(** * Package ovsdb: system identity resolution and OVN chassis correlation

    A shallow embedding of [system.go] (getSystemID, parseSystemInfo,
    populateVersionFromAppctl and their helpers) and of the chassis file
    (GetChassis, MapPortToChassis), with the properties of the design
    document stated and settled against the embedded code.

    Conventions of the embedding:
    - a Go [error] is its message (what [%s] prints);
    - a Go function that may panic (failed type assertion, nil dereference)
      returns an [outcome];
    - [for ... range] loops with [continue], [break] and [return] run through
      the combinator [forRange];
    - Go maps are [gmap]s, [int64] values are integers of [Z]; [float64]
      values are IEEE-754 binary64 numbers ([spec_float] at precision 53);
    - collaborators that are not part of these files (the row decoder, the
      transport, the file system, Go library functions) are parameters. *)

From Stdlib Require Import ZArith String Ascii Lia.
From Stdlib Require Import Floats.SpecFloat.
From stdpp Require Import base option list strings gmap pretty.

(** ** Go runtime *)

Definition error := string.

Inductive outcome (A : Type) : Type :=
| Ret (a : A)
| Panic.
Arguments Ret {A} a.
Arguments Panic {A}.

#[global] Instance outcome_ret : MRet outcome := @Ret.
#[global] Instance outcome_bind : MBind outcome :=
  λ A B f m, match m with Ret a => f a | Panic => Panic end.

(** The dynamic values an [interface{}] returned by the row decoder holds. *)
Inductive interface : Type :=
| VNil
| VString (s : string)
| VStrings (l : list string)
| VMap (m : gmap string string)
| VInt64 (z : Z)
| VFloat64 (f : spec_float)
| VInt (z : Z).

(** Type assertions [r.(T)]: a value of another dynamic type panics. *)
Definition assert_string (r : interface) : outcome string :=
  match r with VString s => Ret s | _ => Panic end.
Definition assert_strings (r : interface) : outcome (list string) :=
  match r with VStrings l => Ret l | _ => Panic end.
Definition assert_map (r : interface) : outcome (gmap string string) :=
  match r with VMap m => Ret m | _ => Panic end.
Definition assert_int64 (r : interface) : outcome Z :=
  match r with VInt64 z => Ret z | _ => Panic end.
Definition assert_float64 (r : interface) : outcome spec_float :=
  match r with VFloat64 f => Ret f | _ => Panic end.
Definition assert_int (r : interface) : outcome Z :=
  match r with VInt z => Ret z | _ => Panic end.

(** What the body of a [for ... range] loop does to the loop: go on with the
    next element ([continue], or the end of the body), leave the loop
    ([break]), or leave the function ([return]). *)
Inductive ctl (S R : Type) : Type :=
| Next (s : S)
| Break (s : S)
| Return (r : R).
Arguments Next {S R} s.
Arguments Break {S R} s.
Arguments Return {S R} r.

Fixpoint forRange {A S R : Type} (body : A → S → outcome (ctl S R))
    (l : list A) (s : S) : outcome (S + R) :=
  match l with
  | [] => Ret (inl s)
  | x :: l' =>
    c ← body x s;
    match c with
    | Next s' => forRange body l' s'
    | Break s' => Ret (inl s')
    | Return r => Ret (inr r)
    end
  end.

(** [int64] range and the conversions the chassis code applies. *)
Definition int64_min : Z := - 2 ^ 63.
Definition int64_max : Z := 2 ^ 63 - 1.
Definition is_int64 (z : Z) : Prop := (int64_min ≤ z ≤ int64_max)%Z.

(** [float64(v)] for an integer [v]: rounding to nearest, ties to even. *)
Definition float64_of_int64 (v : Z) : spec_float :=
  binary_normalize 53 1024 v 0 false.

(** The row decoder, the result set and the query client: declared in other
    files of the package; system.go and the chassis file only call them. *)
Class Decoder : Type := {
  Row : Type;
  ColumnSchema : Type;
  GetColumnValue : Row → string → ColumnSchema → (interface * string) + error
}.

Record Result `{Decoder} : Type := {
  Rows : list Row;
  Columns : ColumnSchema
}.

Record Client `{Decoder} : Type := {
  Transact : string → string → Result + error
}.

(** Go library functions and implementation-dependent behaviour. *)
Definition IP := list Byte.byte.

Class GoRuntime : Type := {
  (** [net.ParseIP]; the nil slice is [[]]. *)
  ParseIP : string → IP;
  (** [regexp.MustCompile(pattern).FindStringSubmatch(s)] *)
  FindStringSubmatch : string → string → list string;
  (** [strings.TrimSpace] *)
  TrimSpace : string → string;
  (** [int64(f)] when [f] is a NaN, an infinity or out of the range of
      [int64]: the conversion succeeds with an implementation-dependent
      value. *)
  int64_of_float64_indefinite : spec_float → Z
}.

(** [int64(f)]: the fraction is discarded (truncation towards zero). *)
Definition int64_of_float64 `{GoRuntime} (f : spec_float) : Z :=
  match f with
  | S754_zero _ => 0
  | S754_finite s m e =>
    let t := cond_Zopp s (Z.shiftl (Z.pos m) e) in
    if decide (int64_min ≤ t ≤ int64_max)%Z then t
    else int64_of_float64_indefinite f
  | _ => int64_of_float64_indefinite f
  end.

(** The machine the code runs on, as far as these files look at it. *)
Inductive FileRead : Type :=
| OpenFailed (err : error)
  (** [os.Open] returned [err] *)
| Scanned (line : option string) (scanErr : option error).
  (** the file opened; [line] is the first token [scanner.Scan] delivered
      (if any), [scanErr] is [scanner.Err()] afterwards *)

Inductive AppctlReply : Type :=
| ConnectFailed (err : error)
| QueryFailed (err : error)
| Response (r : string).

Record Host : Type := {
  (** first line of the file at a path, for getSystemID *)
  readFirstLine : string → FileRead;
  (** the lines of /etc/os-release, [None] when it cannot be opened *)
  osRelease : option (list string);
  (** [NewClient(sock, timeout)] followed by [query(cmd, nil)] *)
  appctl : string → Z → string → AppctlReply
}.

(** ** system.go *)

Section System.
Context `{D : Decoder} `{G : GoRuntime}.
Variable host : Host.

Definition errSystemIDTooLong (n : nat) : error :=
  "system-id is greater than what the exporter currently allows: "
  +:+ pretty n +:+ " vs 253".

Definition errDatabaseAndFile (dbErr err : error) : error :=
  "failed to get system-id from database (" +:+ dbErr
  +:+ ") and file (" +:+ err +:+ ")".

(** Lines 64-83 of getSystemID: the database attempt. [inl] is a [return]
    out of getSystemID, [inr dbErr] falls through to the file with the
    value of [dbErr]. *)
Definition getSystemID_database (client : option Client) (dbName : string)
    : outcome ((string * option error) + option error) :=
  match client with
  | None => Ret (inr None)
  | Some client =>
    if decide (dbName = "") then Ret (inr None) else
    let query := "SELECT external_ids FROM " +:+ dbName in
    match Transact client dbName query with
    | inr err => Ret (inr (Some err))
    | inl result =>
      match Rows result with
      | [] => Ret (inr None)
      | row0 :: _ =>
        let col := "external_ids" in
        match GetColumnValue row0 col (Columns result) with
        | inr _ => Ret (inr None)
        | inl (rowData, dataType) =>
          if decide (dataType = "map[string]string") then
            externalIDs ← assert_map rowData;
            match externalIDs !! "system-id" with
            | Some dbSystemID =>
              if decide (dbSystemID = "") then Ret (inr None)
              else
                let systemID := dbSystemID in
                if 253 <? String.length systemID
                then Ret (inl (systemID,
                               Some (errSystemIDTooLong (String.length systemID))))
                else Ret (inl (systemID, None))
            | None => Ret (inr None)
            end
          else Ret (inr None)
        end
      end
    end
  end.

(** Lines 85-113 of getSystemID: the file fallback. *)
Definition getSystemID_file (dbErr : option error) (filepath : string)
    : string * option error :=
  match readFirstLine host filepath with
  | OpenFailed err =>
    match dbErr with
    | Some dbErr => ("", Some (errDatabaseAndFile dbErr err))
    | None => ("", Some err)
    end
  | Scanned line scanErr =>
    let systemID := default "" line in
    match scanErr with
    | Some err =>
      match dbErr with
      | Some dbErr => ("", Some (errDatabaseAndFile dbErr err))
      | None => ("", Some err)
      end
    | None =>
      if 253 <? String.length systemID
      then (systemID, Some (errSystemIDTooLong (String.length systemID)))
      else (systemID, None)
    end
  end.

Definition getSystemID (client : option Client) (dbName filepath : string)
    : outcome (string * option error) :=
  db ← getSystemID_database client dbName;
  match db with
  | inl ret => Ret ret
  | inr dbErr => Ret (getSystemID_file dbErr filepath)
  end.

Definition getVersionViaAppctl (sock : string) (timeout : Z)
    : string * option error :=
  let cmd := "version" in
  match appctl host sock timeout cmd with
  | ConnectFailed err =>
    ("", Some ("failed to connect to socket " +:+ sock +:+ ": " +:+ err))
  | QueryFailed err =>
    ("", Some ("the '" +:+ cmd +:+ "' command failed: " +:+ err))
  | Response response =>
    if decide (response = "")
    then ("", Some ("the '" +:+ cmd +:+ "' command returned no data"))
    else (response, None)
  end.

Definition parseOvsVersion (versionStr : string) : string :=
  let matches :=
    FindStringSubmatch "\(Open vSwitch\)\s+([\d.]+)" versionStr in
  if 1 <? length matches then default "" (matches !! 1)
  else TrimSpace versionStr.

(** [strings.HasPrefix], [strings.TrimPrefix] and [strings.Trim] on byte
    strings (the prefixes and the cutset used here are ASCII). *)
Definition HasPrefix (s prefix : string) : bool := String.prefix prefix s.

Fixpoint dropBytes (n : nat) (s : string) : string :=
  match n, s with
  | S n', String _ s' => dropBytes n' s'
  | _, _ => s
  end.

Definition TrimPrefix (s prefix : string) : string :=
  if HasPrefix s prefix then dropBytes (String.length prefix) s else s.

Fixpoint inCutset (c : ascii) (cutset : string) : bool :=
  match cutset with
  | EmptyString => false
  | String a cutset' => if decide (a = c) then true else inCutset c cutset'
  end.

Fixpoint TrimLeft (s cutset : string) : string :=
  match s with
  | EmptyString => EmptyString
  | String a s' => if inCutset a cutset then TrimLeft s' cutset else s
  end.

Fixpoint TrimRight (s cutset : string) : string :=
  match s with
  | EmptyString => EmptyString
  | String a s' =>
    match TrimRight s' cutset with
    | EmptyString => if inCutset a cutset then EmptyString else String a EmptyString
    | t => String a t
    end
  end.

Definition Trim (s cutset : string) : string :=
  TrimRight (TrimLeft s cutset) cutset.

Definition quote : string := String "034"%char EmptyString.

Definition getSystemInfoFromOS : string * string :=
  match osRelease host with
  | None => ("", "")
  | Some lines =>
    foldl (λ '(systemType, systemVersion) line,
             if HasPrefix line "ID="
             then (Trim (TrimPrefix line "ID=") quote, systemVersion)
             else if HasPrefix line "VERSION_ID="
             then (systemType, Trim (TrimPrefix line "VERSION_ID=") quote)
             else (systemType, systemVersion))
          ("", "") lines
  end.

Record Schema : Type := { Version : string }.

(** [val, exists := systemInfo[key]; !exists || val == ""] *)
Definition absentOrEmpty (systemInfo : gmap string string) (key : string)
    : bool :=
  match systemInfo !! key with
  | Some val => bool_decide (val = "")
  | None => true
  end.

(** The map is updated in place in the source; here the updated map is the
    result. The three [if] statements of populateVersionFromAppctl, in
    order: lines 168-175, 178-184 and 187-206. *)
Definition populate_ovs_version (systemInfo : gmap string string)
    (sock : string) (timeout : Z) : gmap string string :=
  if absentOrEmpty systemInfo "ovs_version" then
    match getVersionViaAppctl sock timeout with
    | (versionStr, None) =>
      <["ovs_version" := parseOvsVersion versionStr]> systemInfo
    | (_, Some _) => <["ovs_version" := "unknown"]> systemInfo
    end
  else systemInfo.

Definition populate_db_version (systemInfo : gmap string string)
    (schema : option Schema) : gmap string string :=
  if absentOrEmpty systemInfo "db_version" then
    match schema with
    | Some schema =>
      if decide (Version schema = "")
      then <["db_version" := "unknown"]> systemInfo
      else <["db_version" := Version schema]> systemInfo
    | None => <["db_version" := "unknown"]> systemInfo
    end
  else systemInfo.

Definition populate_system (systemInfo : gmap string string)
    : gmap string string :=
  if absentOrEmpty systemInfo "system_type" then
    let '(systemType, systemVersion) := getSystemInfoFromOS in
    let systemInfo :=
      if decide (systemType = "")
      then <["system_type" := "unknown"]> systemInfo
      else <["system_type" := systemType]> systemInfo in
    if decide (systemVersion = "")
    then <["system_version" := "unknown"]> systemInfo
    else <["system_version" := systemVersion]> systemInfo
  else if absentOrEmpty systemInfo "system_version" then
    let '(_, systemVersion) := getSystemInfoFromOS in
    if decide (systemVersion = "")
    then <["system_version" := "unknown"]> systemInfo
    else <["system_version" := systemVersion]> systemInfo
  else systemInfo.

Definition populateVersionFromAppctl (systemInfo : gmap string string)
    (sock : string) (timeout : Z) (schema : option Schema)
    : gmap string string :=
  populate_system
    (populate_db_version (populate_ovs_version systemInfo sock timeout) schema).

Definition errParsing (col : string) (err : error) : error :=
  "parsing '" +:+ col +:+ "' failed: " +:+ err.

Definition errDataType (dataType col : string) : error :=
  "data type '" +:+ dataType +:+ "' for '" +:+ col
  +:+ "' column is unexpected in this context".

Definition errMismatch (dbSystemID systemID : string) : error :=
  "found 'system-id' mismatch " +:+ dbSystemID +:+ " (db) vs. "
  +:+ systemID +:+ " (config)".

Definition errNoMandatory (key : string) : error :=
  "no mandatory '" +:+ key +:+ "' found".

(** Lines 222-240: the loop over the four version columns of one row. *)
Definition parseSystemInfo_column (row : Row) (columns : ColumnSchema)
    (col : string) (systemInfo : gmap string string)
    : outcome (ctl (gmap string string) (gmap string string * option error)) :=
  match GetColumnValue row col columns with
  | inr err => Ret (Return (systemInfo, Some (errParsing col err)))
  | inl (rowData, dataType) =>
    if decide (dataType = "string") then
      s ← assert_string rowData;
      Ret (Next (<[col := s]> systemInfo))
    else if decide (dataType = "[]string") then
      arr ← assert_strings rowData;
      match arr with
      | a :: _ => Ret (Next (<[col := a]> systemInfo))
      | [] => Ret (Next (<[col := ""]> systemInfo))
      end
    else Ret (Return (systemInfo, Some (errDataType dataType col)))
  end.

(** Lines 211-242: the body of the loop over the rows. *)
Definition parseSystemInfo_row (columns : ColumnSchema) (row : Row)
    (systemInfo : gmap string string)
    : outcome (ctl (gmap string string) (gmap string string * option error)) :=
  let col := "external_ids" in
  match GetColumnValue row col columns with
  | inr err => Ret (Return (systemInfo, Some (errParsing col err)))
  | inl (rowData, dataType) =>
    if decide (dataType = "map[string]string") then
      systemInfo ← assert_map rowData;
      let columns' :=
        ["ovs_version"; "db_version"; "system_type"; "system_version"] in
      r ← forRange (parseSystemInfo_column row columns) columns' systemInfo;
      match r with
      | inl systemInfo => Ret (Break systemInfo)
      | inr ret => Ret (Return ret)
      end
    else Ret (Return (systemInfo, Some (errDataType dataType col)))
  end.

Definition parseSystemInfo (systemID : string) (result : Result)
    : outcome (gmap string string * option error) :=
  r ← forRange (parseSystemInfo_row (Columns result)) (Rows result) ∅;
  match r with
  | inr ret => Ret ret
  | inl systemInfo =>
    match systemInfo !! "system-id" with
    | None => Ret (systemInfo, Some "no 'system-id' found")
    | Some dbSystemID =>
      if decide (dbSystemID = systemID) then
        let systemInfo :=
          match systemInfo !! "rundir" with
          | Some _ => systemInfo
          | None => <["rundir" := "/var/run/openvswitch"]> systemInfo
          end in
        let requiredKeys := ["hostname"] in
        r ← forRange (λ key (_ : unit),
                        match systemInfo !! key with
                        | Some _ => Ret (Next ())
                        | None =>
                          Ret (Return (systemInfo, Some (errNoMandatory key)))
                        end) requiredKeys ();
        match r with
        | inr ret => Ret ret
        | inl _ => Ret (systemInfo, None)
        end
      else Ret (systemInfo, Some (errMismatch dbSystemID systemID))
    end
  end.

End System.

(** ** The methods of OvsClient in system.go *)

(** What the methods use of the other files of the package: the process
    record and its ID, the part of OvsClient that system.go neither reads
    nor writes, and the functions GetSystemInfo calls. A method of the
    query client called on a nil client is a function of its own. *)
Class Package `{Decoder} : Type := {
  OvsProcess : Type;
  Process_ID : OvsProcess → Z;
  OvsClientRest : Type;
  getProcessInfoFromFile : string → OvsProcess * option error;
  GetSchema : Client → string → Schema * option error;
  Transact_nil : string → string → outcome (Result + error);
  GetSchema_nil : string → outcome (Schema * option error)
}.

(** The fields of OvsClient that system.go reads or writes:
    [cli.Database.Vswitch.Client], [.Name], [.File.SystemID.Path],
    [.File.Pid.Path], [.Process], [.Socket.Control], [.Version],
    [.Schema.Version], the five fields of [cli.System], and
    [cli.Timeout]. *)
Record OvsClient `{Package} : Type := {
  Vswitch_Client : option Client;
  Vswitch_Name : string;
  Vswitch_File_SystemID_Path : string;
  Vswitch_File_Pid_Path : string;
  Vswitch_Process : OvsProcess;
  Vswitch_Socket_Control : string;
  Vswitch_Version : string;
  Vswitch_Schema_Version : string;
  System_ID : string;
  System_RunDir : string;
  System_Hostname : string;
  System_Type : string;
  System_Version : string;
  cli_Timeout : Z;
  cli_rest : OvsClientRest
}.

Section OvsClientMethods.
Context `{D : Decoder} `{G : GoRuntime} `{P : @Package D}.
Variable host : Host.

(** [cli.updateRefs()], declared in another file of the package: it
    rewrites the client in place. *)
Variable updateRefs : OvsClient → OvsClient.

(** [cli.System.ID = systemID] *)
Definition withSystemID (systemID : string) (cli : OvsClient) : OvsClient :=
  {| Vswitch_Client := Vswitch_Client cli;
     Vswitch_Name := Vswitch_Name cli;
     Vswitch_File_SystemID_Path := Vswitch_File_SystemID_Path cli;
     Vswitch_File_Pid_Path := Vswitch_File_Pid_Path cli;
     Vswitch_Process := Vswitch_Process cli;
     Vswitch_Socket_Control := Vswitch_Socket_Control cli;
     Vswitch_Version := Vswitch_Version cli;
     Vswitch_Schema_Version := Vswitch_Schema_Version cli;
     System_ID := systemID;
     System_RunDir := System_RunDir cli;
     System_Hostname := System_Hostname cli;
     System_Type := System_Type cli;
     System_Version := System_Version cli;
     cli_Timeout := cli_Timeout cli;
     cli_rest := cli_rest cli |}.

(** [cli.Database.Vswitch.Process = p] *)
Definition withProcess (p : OvsProcess) (cli : OvsClient) : OvsClient :=
  {| Vswitch_Client := Vswitch_Client cli;
     Vswitch_Name := Vswitch_Name cli;
     Vswitch_File_SystemID_Path := Vswitch_File_SystemID_Path cli;
     Vswitch_File_Pid_Path := Vswitch_File_Pid_Path cli;
     Vswitch_Process := p;
     Vswitch_Socket_Control := Vswitch_Socket_Control cli;
     Vswitch_Version := Vswitch_Version cli;
     Vswitch_Schema_Version := Vswitch_Schema_Version cli;
     System_ID := System_ID cli;
     System_RunDir := System_RunDir cli;
     System_Hostname := System_Hostname cli;
     System_Type := System_Type cli;
     System_Version := System_Version cli;
     cli_Timeout := cli_Timeout cli;
     cli_rest := cli_rest cli |}.

(** Lines 297-303: the seven assignments from the map; a key that is not
    in the map reads as the empty string. *)
Definition withSystemInfo (systemInfo : gmap string string) (cli : OvsClient)
    : OvsClient :=
  {| Vswitch_Client := Vswitch_Client cli;
     Vswitch_Name := Vswitch_Name cli;
     Vswitch_File_SystemID_Path := Vswitch_File_SystemID_Path cli;
     Vswitch_File_Pid_Path := Vswitch_File_Pid_Path cli;
     Vswitch_Process := Vswitch_Process cli;
     Vswitch_Socket_Control := Vswitch_Socket_Control cli;
     Vswitch_Version := default "" (systemInfo !! "ovs_version");
     Vswitch_Schema_Version := default "" (systemInfo !! "db_version");
     System_ID := default "" (systemInfo !! "system-id");
     System_RunDir := default "" (systemInfo !! "rundir");
     System_Hostname := default "" (systemInfo !! "hostname");
     System_Type := default "" (systemInfo !! "system_type");
     System_Version := default "" (systemInfo !! "system_version");
     cli_Timeout := cli_Timeout cli;
     cli_rest := cli_rest cli |}.

(** Lines 50-57. The method returns an error and writes the client: here
    it returns the client it leaves and the error. *)
Definition OvsClient_GetSystemID (cli : OvsClient)
    : outcome (OvsClient * option error) :=
  r ← getSystemID host (Vswitch_Client cli) (Vswitch_Name cli)
        (Vswitch_File_SystemID_Path cli);
  match r with
  | (_, Some err) => Ret (cli, Some err)
  | (systemID, None) => Ret (withSystemID systemID cli, None)
  end.

(** [cli.Database.Vswitch.Client.Transact(name, query)] *)
Definition vswitchTransact (cli : OvsClient) (query : string)
    : outcome (Result + error) :=
  match Vswitch_Client cli with
  | Some client => Ret (Transact client (Vswitch_Name cli) query)
  | None => Transact_nil (Vswitch_Name cli) query
  end.

(** [cli.Database.Vswitch.Client.GetSchema(name)] *)
Definition vswitchGetSchema (cli : OvsClient)
    : outcome (Schema * option error) :=
  match Vswitch_Client cli with
  | Some client => Ret (GetSchema client (Vswitch_Name cli))
  | None => GetSchema_nil (Vswitch_Name cli)
  end.

Definition querySystemInfo (dbName : string) : string :=
  "SELECT ovs_version, db_version, system_type, system_version, external_ids FROM "
  +:+ dbName.

(** Lines 266-305. *)
Definition GetSystemInfo (cli : OvsClient)
    : outcome (OvsClient * option error) :=
  r ← getSystemID host (Vswitch_Client cli) (Vswitch_Name cli)
        (Vswitch_File_SystemID_Path cli);
  match r with
  | (_, Some err) => Ret (cli, Some err)
  | (systemID, None) =>
    let query := querySystemInfo (Vswitch_Name cli) in
    r ← vswitchTransact cli query;
    match r with
    | inr err =>
      Ret (cli, Some ("The '" +:+ query +:+ "' query failed: " +:+ err))
    | inl result =>
      if decide (length (Rows result) = 0) then
        Ret (cli, Some ("The '" +:+ query
                        +:+ "' query did not return any rows"))
      else
        r ← parseSystemInfo systemID result;
        match r with
        | (_, Some err) =>
          Ret (cli, Some ("The '" +:+ query
                          +:+ "' query returned results but erred: " +:+ err))
        | (systemInfo, None) =>
          r ← vswitchGetSchema cli;
          let schema := r.1 in
          let cli :=
            if decide (Process_ID (Vswitch_Process cli) = 0%Z) then
              match getProcessInfoFromFile (Vswitch_File_Pid_Path cli) with
              | (p, None) => withProcess p cli
              | (_, Some _) => cli
              end
            else cli in
          let cli := updateRefs cli in
          let systemInfo :=
            populateVersionFromAppctl host systemInfo
              (Vswitch_Socket_Control cli) (cli_Timeout cli) (Some schema) in
          Ret (withSystemInfo systemInfo cli, None)
        end
    end
  end.

End OvsClientMethods.

(** ** The chassis file: GetChassis and MapPortToChassis *)

Record OvnChassis : Type := {
  UUID : string;
  Name : string;
  IPAddress : IP;
  Encaps_UUID : string;
  Encaps_Proto : string;
  NbCfg : Z;
  NbCfgTimestamp : Z;
  Ports : list string;
  Switches : list string
}.

(** Field assignments [c.F = v]. *)
Definition withEncap (ip : IP) (proto : string) (c : OvnChassis) : OvnChassis :=
  {| UUID := UUID c; Name := Name c; IPAddress := ip;
     Encaps_UUID := Encaps_UUID c; Encaps_Proto := proto;
     NbCfg := NbCfg c; NbCfgTimestamp := NbCfgTimestamp c;
     Ports := Ports c; Switches := Switches c |}.

Definition withNbCfg (v : Z) (c : OvnChassis) : OvnChassis :=
  {| UUID := UUID c; Name := Name c; IPAddress := IPAddress c;
     Encaps_UUID := Encaps_UUID c; Encaps_Proto := Encaps_Proto c;
     NbCfg := v; NbCfgTimestamp := NbCfgTimestamp c;
     Ports := Ports c; Switches := Switches c |}.

Definition withNbCfgTimestamp (v : Z) (c : OvnChassis) : OvnChassis :=
  {| UUID := UUID c; Name := Name c; IPAddress := IPAddress c;
     Encaps_UUID := Encaps_UUID c; Encaps_Proto := Encaps_Proto c;
     NbCfg := NbCfg c; NbCfgTimestamp := v;
     Ports := Ports c; Switches := Switches c |}.

Definition withPorts (v : list string) (c : OvnChassis) : OvnChassis :=
  {| UUID := UUID c; Name := Name c; IPAddress := IPAddress c;
     Encaps_UUID := Encaps_UUID c; Encaps_Proto := Encaps_Proto c;
     NbCfg := NbCfg c; NbCfgTimestamp := NbCfgTimestamp c;
     Ports := v; Switches := Switches c |}.

Definition withSwitches (v : list string) (c : OvnChassis) : OvnChassis :=
  {| UUID := UUID c; Name := Name c; IPAddress := IPAddress c;
     Encaps_UUID := Encaps_UUID c; Encaps_Proto := Encaps_Proto c;
     NbCfg := NbCfg c; NbCfgTimestamp := NbCfgTimestamp c;
     Ports := Ports c; Switches := v |}.

(** [cli.Database.Southbound] of an [OvnClient]. *)
Record OvnClient `{Decoder} : Type := {
  Southbound_Name : string;
  Southbound_Client : Client
}.

Section Chassis.
Context `{D : Decoder} `{G : GoRuntime}.

(** The read of a mandatory string column, as written seven times in
    phases one and two:
    [if r, dt, err := row.GetColumnValue(col, cols); err != nil { continue }
     else { if dt != "string" { continue }; x = r.(string) }].
    [None] is the [continue]. *)
Definition stringColumn (row : Row) (col : string) (columns : ColumnSchema)
    : outcome (option string) :=
  match GetColumnValue row col columns with
  | inr _ => Ret None
  | inl (r, dt) =>
    if decide (dt = "string") then s ← assert_string r; Ret (Some s)
    else Ret None
  end.

(** Lines 354-383: the body of the loop over the rows of Chassis. *)
Definition GetChassis_chassisRow (columns : ColumnSchema) (row : Row)
    (chassis : list OvnChassis)
    : outcome (ctl (list OvnChassis) (list OvnChassis * option error)) :=
  uuid ← stringColumn row "_uuid" columns;
  match uuid with
  | None => Ret (Next chassis)
  | Some uuid =>
    name ← stringColumn row "name" columns;
    match name with
    | None => Ret (Next chassis)
    | Some name =>
      encaps ← stringColumn row "encaps" columns;
      match encaps with
      | None => Ret (Next chassis)
      | Some encaps =>
        let c := {| UUID := uuid; Name := name; IPAddress := [];
                    Encaps_UUID := encaps; Encaps_Proto := "";
                    NbCfg := 0; NbCfgTimestamp := 0;
                    Ports := []; Switches := [] |} in
        Ret (Next (chassis ++ [c]))
      end
    end
  end.

(** Lines 431-441: the first chassis with this encap UUID and this name
    gets the address and the protocol; the loop then breaks. *)
Fixpoint GetChassis_join (encapUUID encapProto chassisName
    chassisIPAddress : string) (chassis : list OvnChassis)
    : list OvnChassis :=
  match chassis with
  | [] => []
  | c :: rest =>
    if decide (Encaps_UUID c = encapUUID) then
      if decide (Name c = chassisName) then
        withEncap (ParseIP chassisIPAddress) encapProto c :: rest
      else c :: GetChassis_join encapUUID encapProto chassisName
                  chassisIPAddress rest
    else c :: GetChassis_join encapUUID encapProto chassisName
                chassisIPAddress rest
  end.

(** Lines 394-442: the body of the loop over the rows of Encap. *)
Definition GetChassis_encapRow (columns : ColumnSchema) (row : Row)
    (chassis : list OvnChassis)
    : outcome (ctl (list OvnChassis) (list OvnChassis * option error)) :=
  encapUUID ← stringColumn row "_uuid" columns;
  match encapUUID with
  | None => Ret (Next chassis)
  | Some encapUUID =>
    encapProto ← stringColumn row "type" columns;
    match encapProto with
    | None => Ret (Next chassis)
    | Some encapProto =>
      chassisName ← stringColumn row "chassis_name" columns;
      match chassisName with
      | None => Ret (Next chassis)
      | Some chassisName =>
        chassisIPAddress ← stringColumn row "ip" columns;
        match chassisIPAddress with
        | None => Ret (Next chassis)
        | Some chassisIPAddress =>
          Ret (Next (GetChassis_join encapUUID encapProto chassisName
                       chassisIPAddress chassis))
        end
      end
    end
  end.

(** Lines 461-468: an optional string column; the variable keeps its zero
    value when the column does not decode as a string. *)
Definition optionalStringColumn (row : Row) (col : string)
    (columns : ColumnSchema) : outcome string :=
  match GetColumnValue row col columns with
  | inr _ => Ret ""
  | inl (r, dt) =>
    if decide (dt = "string") then assert_string r else Ret ""
  end.

(** Lines 472-482 and 487-497: the switch over the type tag of a numeric
    cell; a tag outside the four cases leaves the variable at zero. *)
Definition decodeInt64 (r : interface) (dt : string) : outcome Z :=
  if decide (dt = "int64") then assert_int64 r
  else if decide (dt = "integer") then assert_int64 r
  else if decide (dt = "float64") then
    f ← assert_float64 r; Ret (int64_of_float64 f)
  else if decide (dt = "int") then assert_int r
  else Ret 0%Z.

Definition int64Column (row : Row) (col : string) (columns : ColumnSchema)
    : outcome Z :=
  match GetColumnValue row col columns with
  | inr _ => Ret 0%Z
  | inl (r, dt) => decodeInt64 r dt
  end.

(** Lines 454-509: the body of the loop over the rows of Chassis_Private;
    the state is the pair of maps [chassisNbCfgMap], [chassisTimestampMap]. *)
Definition GetChassis_privateRow (columns : ColumnSchema) (row : Row)
    (maps : gmap string Z * gmap string Z)
    : outcome (ctl (gmap string Z * gmap string Z)
                   (list OvnChassis * option error)) :=
  chassisUUID ← optionalStringColumn row "chassis" columns;
  chassisName ← optionalStringColumn row "name" columns;
  nbCfg ← int64Column row "nb_cfg" columns;
  nbCfgTimestamp ← int64Column row "nb_cfg_timestamp" columns;
  let maps :=
    if decide (chassisUUID = "") then maps
    else (<[chassisUUID := nbCfg]> maps.1,
          <[chassisUUID := nbCfgTimestamp]> maps.2) in
  let maps :=
    if decide (chassisName = "") then maps
    else (<[chassisName := nbCfg]> maps.1,
          <[chassisName := nbCfgTimestamp]> maps.2) in
  Ret (Next maps).

(** Lines 514-527: the body of the last loop, for one chassis. *)
Definition GetChassis_resolve (maps : gmap string Z * gmap string Z)
    (c : OvnChassis) : OvnChassis :=
  let c :=
    match maps.1 !! UUID c with
    | Some nbCfg => withNbCfg nbCfg c
    | None =>
      match maps.1 !! Name c with
      | Some nbCfg => withNbCfg nbCfg c
      | None => c
      end
    end in
  match maps.2 !! UUID c with
  | Some timestamp => withNbCfgTimestamp timestamp c
  | None =>
    match maps.2 !! Name c with
    | Some timestamp => withNbCfgTimestamp timestamp c
    | None => c
    end
  end.

Definition errTable (dbName table : string) (err : error) : error :=
  dbName +:+ ": '" +:+ table +:+ "' table error: " +:+ err.

Definition errNoChassis (dbName : string) : error :=
  dbName +:+ ": no chassis found".

(** Lines 344-383: phase one. [inl] falls through with the chassis built,
    [inr] is a [return] of GetChassis. *)
Definition GetChassis_base (cli : OvnClient)
    : outcome (list OvnChassis + list OvnChassis * option error) :=
  let chassis := [] in
  let query := "SELECT _uuid, name, encaps FROM Chassis" in
  match Transact (Southbound_Client cli) (Southbound_Name cli) query with
  | inr err => Ret (inr ([], Some (errTable (Southbound_Name cli) "Chassis" err)))
  | inl result =>
    if decide (length (Rows result) = 0)
    then Ret (inr ([], Some (errNoChassis (Southbound_Name cli))))
    else forRange (GetChassis_chassisRow (Columns result)) (Rows result) chassis
  end.

(** Lines 385-442: phase two. *)
Definition GetChassis_encap (cli : OvnClient) (chassis : list OvnChassis)
    : outcome (list OvnChassis + list OvnChassis * option error) :=
  let query := "SELECT _uuid, chassis_name, ip, type FROM Encap" in
  match Transact (Southbound_Client cli) (Southbound_Name cli) query with
  | inr err => Ret (inr ([], Some (errTable (Southbound_Name cli) "Encap" err)))
  | inl result =>
    if decide (length (Rows result) = 0)
    then Ret (inr ([], Some (errNoChassis (Southbound_Name cli))))
    else forRange (GetChassis_encapRow (Columns result)) (Rows result) chassis
  end.

(** Lines 451-510: the two maps built from the rows of Chassis_Private. *)
Definition GetChassis_index (result : Result)
    : outcome (gmap string Z * gmap string Z
               + list OvnChassis * option error) :=
  forRange (GetChassis_privateRow (Columns result)) (Rows result) (∅, ∅).

(** Lines 444-529: phase three. *)
Definition GetChassis_private (cli : OvnClient) (chassis : list OvnChassis)
    : outcome (list OvnChassis * option error) :=
  let query :=
    "SELECT chassis, name, nb_cfg, nb_cfg_timestamp FROM Chassis_Private" in
  match Transact (Southbound_Client cli) (Southbound_Name cli) query with
  | inr _ => Ret (chassis, None)
  | inl result =>
    r ← GetChassis_index result;
    match r with
    | inr ret => Ret ret
    | inl maps => Ret (GetChassis_resolve maps <$> chassis, None)
    end
  end.

Definition GetChassis (cli : OvnClient)
    : outcome (list OvnChassis * option error) :=
  r ← GetChassis_base cli;
  match r with
  | inr ret => Ret ret
  | inl chassis =>
    r ← GetChassis_encap cli chassis;
    match r with
    | inr ret => Ret ret
    | inl chassis => GetChassis_private cli chassis
    end
  end.

End Chassis.

(** The fields of [OvnLogicalSwitchPort] (declared in another file of the
    package) that MapPortToChassis reads or writes. *)
Record OvnLogicalSwitchPort : Type := {
  lsp_UUID : string;
  lsp_ChassisUUID : string;
  lsp_LogicalSwitchUUID : string;
  lsp_Encapsulation : string;
  lsp_ChassisIPAddress : IP
}.

(** MapPortToChassis gets slices of pointers and writes through them: the
    chassis and the ports live in a heap, a pointer is an address, and an
    address with no object behind it (nil) panics when dereferenced. *)
Abbreviation ptr := positive.

Record Heap : Type := {
  chassisAt : gmap positive OvnChassis;
  portAt : gmap positive OvnLogicalSwitchPort
}.

Definition loadChassis (h : Heap) (p : ptr) : outcome OvnChassis :=
  match chassisAt h !! p with Some c => Ret c | None => Panic end.

Definition loadPort (h : Heap) (p : ptr) : outcome OvnLogicalSwitchPort :=
  match portAt h !! p with Some c => Ret c | None => Panic end.

Definition storeChassis (h : Heap) (p : ptr) (c : OvnChassis) : Heap :=
  {| chassisAt := <[p := c]> (chassisAt h); portAt := portAt h |}.

Definition storePort (h : Heap) (p : ptr) (c : OvnLogicalSwitchPort) : Heap :=
  {| chassisAt := chassisAt h; portAt := <[p := c]> (portAt h) |}.

(** Lines 537-539: [portMap[vtep.UUID] = vtep]. *)
Definition MapPortToChassis_index (h : Heap) (vtep : ptr)
    (portMap : gmap string positive)
    : outcome (ctl (gmap string positive) unit) :=
  c ← loadChassis h vtep;
  Ret (Next (<[UUID c := vtep]> portMap)).

(** Lines 540-551: the body of the loop over the ports; the state is the
    heap and [switchMap]. *)
Definition MapPortToChassis_port (portMap : gmap string positive)
    (logicalSwitchPort : ptr) (st : Heap * gmap string bool)
    : outcome (ctl (Heap * gmap string bool) unit) :=
  let '(h, switchMap) := st in
  lsp ← loadPort h logicalSwitchPort;
  match portMap !! lsp_ChassisUUID lsp with
  | None => Ret (Next (h, switchMap))
  | Some vtep =>
    c ← loadChassis h vtep;
    let h := storePort h logicalSwitchPort
               {| lsp_UUID := lsp_UUID lsp;
                  lsp_ChassisUUID := lsp_ChassisUUID lsp;
                  lsp_LogicalSwitchUUID := lsp_LogicalSwitchUUID lsp;
                  lsp_Encapsulation := Encaps_Proto c;
                  lsp_ChassisIPAddress := IPAddress c |} in
    c ← loadChassis h vtep;
    let h := storeChassis h vtep (withPorts (Ports c ++ [lsp_UUID lsp]) c) in
    match switchMap !! lsp_LogicalSwitchUUID lsp with
    | Some _ => Ret (Next (h, switchMap))
    | None =>
      let switchMap := <[lsp_LogicalSwitchUUID lsp := true]> switchMap in
      c ← loadChassis h vtep;
      let h := storeChassis h vtep
                 (withSwitches (Switches c ++ [lsp_LogicalSwitchUUID lsp]) c) in
      Ret (Next (h, switchMap))
    end
  end.

Definition MapPortToChassis_portMap (vteps : list ptr) (h : Heap)
    : outcome (gmap string positive + unit) :=
  forRange (MapPortToChassis_index h) vteps ∅.

Definition MapPortToChassis (vteps logicalSwitchPorts : list ptr) (h : Heap)
    : outcome Heap :=
  r ← MapPortToChassis_portMap vteps h;
  match r with
  | inr _ => Ret h
  | inl portMap =>
    r ← forRange (MapPortToChassis_port portMap) logicalSwitchPorts (h, ∅);
    match r with
    | inr _ => Ret h
    | inl (h, _) => Ret h
    end
  end.

(** ** Instances used to run the code on concrete inputs *)

(** Modelled from the spec: the decoder interface
    [Row.GetColumnValue(columnName, columns) -> (value, typeTag, error)] of
    the design document, section 6; its code is in another file of the
    package. This instance is given by its table: a row lists, column by
    column, the value and the type tag the decoder returns for it, and a
    column that is not listed fails with a column-not-found error. The
    properties below are proved for every decoder; this one only builds
    concrete rows. *)
Definition tableRow : Type := list (string * (interface * string)).

Fixpoint tableGet (row : tableRow) (col : string) : option (interface * string) :=
  match row with
  | [] => None
  | (name, cell) :: row' =>
    if decide (name = col) then Some cell else tableGet row' col
  end.

Definition tableDecoder : Decoder :=
  {| Row := tableRow;
     ColumnSchema := unit;
     GetColumnValue := λ row col _,
       match tableGet row col with
       | Some cell => inl cell
       | None => inr ("column '" +:+ col +:+ "' not found in the row")
       end |}.

(** A Go runtime for concrete runs: the conversion of an out-of-range float
    gives the smallest [int64], as on amd64; the library functions are not
    exercised by the properties below. *)
Definition testRuntime : GoRuntime :=
  {| ParseIP := λ s, String.list_byte_of_string s;
     FindStringSubmatch := λ _ _, [];
     TrimSpace := λ s, s;
     int64_of_float64_indefinite := λ _, int64_min |}.

(** A database answering each query from a list of (query, answer) pairs;
    a query that is not listed is a transport error. *)
Fixpoint answer `{Decoder} (db : list (string * (Result + error)))
    (query : string) : Result + error :=
  match db with
  | [] => inr "connection refused"
  | (q, a) :: db' => if decide (q = query) then a else answer db' query
  end.

Definition tableClient (db : list (string * (@Result tableDecoder + error)))
    : @Client tableDecoder :=
  @Build_Client tableDecoder (λ _ query, answer db query).

Definition tableResult (rows : list tableRow) : @Result tableDecoder :=
  @Build_Result tableDecoder rows ().

(** A host whose identity file cannot be opened, with no os-release file
    and no control socket. *)
Definition bareHost : Host :=
  {| readFirstLine := λ path, OpenFailed ("open " +:+ path +:+ ": no such file or directory");
     osRelease := None;
     appctl := λ _ _ _, ConnectFailed "no such file or directory" |}.

Definition tableOvnClient (db : list (string * (@Result tableDecoder + error)))
    : @OvnClient tableDecoder :=
  @Build_OvnClient tableDecoder "OVN_Southbound" (tableClient db).

(** ** Vocabulary of the properties *)

(** [sub] occurs in [s]. *)
Definition Contains (s sub : string) : Prop :=
  ∃ pre post, s = pre +:+ sub +:+ post.

(** The error of the file attempt of getSystemID, if it fails: from
    [os.Open] or from [scanner.Err()]. *)
Definition fileCause (host : Host) (filepath : string) : option error :=
  match readFirstLine host filepath with
  | OpenFailed err => Some err
  | Scanned _ (Some err) => Some err
  | Scanned _ None => None
  end.

(** The value agrees with its type tag, for the tags the code asserts on. *)
Definition wellTagged (r : interface) (dt : string) : bool :=
  if decide (dt = "string") then
    match r with VString _ => true | _ => false end
  else if decide (dt = "[]string") then
    match r with VStrings _ => true | _ => false end
  else if decide (dt = "map[string]string") then
    match r with VMap _ => true | _ => false end
  else if decide (dt = "int64") then
    match r with VInt64 _ => true | _ => false end
  else if decide (dt = "integer") then
    match r with VInt64 _ => true | _ => false end
  else if decide (dt = "float64") then
    match r with VFloat64 _ => true | _ => false end
  else if decide (dt = "int") then
    match r with VInt _ => true | _ => false end
  else true.

Definition chassisKey (c : OvnChassis) : string * string * string :=
  (UUID c, Name c, Encaps_UUID c).

Definition zeroEncap (c : OvnChassis) : Prop :=
  IPAddress c = [] ∧ Encaps_Proto c = "".

Definition zeroNbCfg (c : OvnChassis) : Prop :=
  NbCfg c = 0%Z ∧ NbCfgTimestamp c = 0%Z.

(** Identifier lookup first, name lookup second, zero otherwise. *)
Definition byUUIDThenName (m : gmap string Z) (c : OvnChassis) : Z :=
  match m !! UUID c with
  | Some v => v
  | None => match m !! Name c with Some v => v | None => 0%Z end
  end.

(** The four type-tag variants of a numeric cell that carries [v]. *)
Definition numericCell (v : Z) (cell : interface * string + error) : Prop :=
  cell = inl (VInt64 v, "int64")
  ∨ cell = inl (VInt64 v, "integer")
  ∨ cell = inl (VFloat64 (float64_of_int64 v), "float64")
  ∨ cell = inl (VInt v, "int").

(** What MapPortToChassis writes into a port of chassis [c]. *)
Definition annotate (c : OvnChassis) (lsp : OvnLogicalSwitchPort)
    : OvnLogicalSwitchPort :=
  {| lsp_UUID := lsp_UUID lsp;
     lsp_ChassisUUID := lsp_ChassisUUID lsp;
     lsp_LogicalSwitchUUID := lsp_LogicalSwitchUUID lsp;
     lsp_Encapsulation := Encaps_Proto c;
     lsp_ChassisIPAddress := IPAddress c |}.

Definition queryChassis : string := "SELECT _uuid, name, encaps FROM Chassis".
Definition queryEncap : string :=
  "SELECT _uuid, chassis_name, ip, type FROM Encap".
Definition queryPrivate : string :=
  "SELECT chassis, name, nb_cfg, nb_cfg_timestamp FROM Chassis_Private".

Section Vocabulary.
Context `{D : Decoder}.

(** A version column decodes as a string or as a list of strings. *)
Definition versionColumnOk (row : Row) (columns : ColumnSchema) (col : string)
    : bool :=
  match GetColumnValue row col columns with
  | inl (VString _, dt) => bool_decide (dt = "string")
  | inl (VStrings _, dt) => bool_decide (dt = "[]string")
  | _ => false
  end.

Definition cellWellTagged (columns : ColumnSchema) (row : Row) (col : string)
    : bool :=
  match GetColumnValue row col columns with
  | inl (r, dt) => wellTagged r dt
  | inr _ => true
  end.

Definition rowsWellTagged (result : Result) (cols : list string) : bool :=
  forallb (λ row, forallb (cellWellTagged (Columns result) row) cols)
          (Rows result).

(** [cli.Database.Southbound.Client.Transact(cli.Database.Southbound.Name, q)] *)
Definition southbound (cli : OvnClient) (query : string) : Result + error :=
  Transact (Southbound_Client cli) (Southbound_Name cli) query.

Definition privateWellTagged (cli : OvnClient) : bool :=
  match southbound cli queryPrivate with
  | inl private =>
    rowsWellTagged private ["chassis"; "name"; "nb_cfg"; "nb_cfg_timestamp"]
  | inr _ => true
  end.

(** A row of Chassis whose three mandatory columns decode as strings. *)
Definition baseRowDecodes (columns : ColumnSchema) (row : Row)
    (uuid name encaps : string) : Prop :=
  stringColumn row "_uuid" columns = Ret (Some uuid)
  ∧ stringColumn row "name" columns = Ret (Some name)
  ∧ stringColumn row "encaps" columns = Ret (Some encaps).

(** A row of Encap whose four columns decode as strings. *)
Definition encapRowDecodes (columns : ColumnSchema) (row : Row)
    (encapUUID encapProto chassisName chassisIPAddress : string) : Prop :=
  stringColumn row "_uuid" columns = Ret (Some encapUUID)
  ∧ stringColumn row "type" columns = Ret (Some encapProto)
  ∧ stringColumn row "chassis_name" columns = Ret (Some chassisName)
  ∧ stringColumn row "ip" columns = Ret (Some chassisIPAddress).

(** An endpoint row that matches chassis [c] on the compound key. *)
Definition endpointFor (columns : ColumnSchema) (row : Row) (c : OvnChassis)
    : Prop :=
  ∃ encapProto chassisIPAddress,
    encapRowDecodes columns row (Encaps_UUID c) encapProto (Name c)
      chassisIPAddress.

(** What phase two keeps of the chassis list [cs1] of phase one. *)
Definition afterEncap (columns : ColumnSchema) (rows : list Row)
    (cs1 cs : list OvnChassis) : Prop :=
  chassisKey <$> cs = chassisKey <$> cs1
  ∧ Forall zeroNbCfg cs
  ∧ ∀ c, c ∈ cs → (∀ row, row ∈ rows → ¬ endpointFor columns row c) →
      zeroEncap c.

End Vocabulary.

Section Vocabulary_private.
Context `{D : Decoder} `{G : GoRuntime}.

(** A row of Chassis_Private that carries [key] as its chassis reference
    or as its name: the cell is a string, and it is [key]. *)
Definition keyedBy (columns : ColumnSchema) (row : Row) (key : string)
    : Prop :=
  GetColumnValue row "chassis" columns = inl (VString key, "string")
  ∨ GetColumnValue row "name" columns = inl (VString key, "string").

(** Lines 455-498: what the loop over the rows of Chassis_Private reads
    from a row: chassis reference, name, nb_cfg and nb_cfg_timestamp. *)
Definition privateRecord (columns : ColumnSchema) (row : Row)
    : outcome (string * string * Z * Z) :=
  chassisUUID ← optionalStringColumn row "chassis" columns;
  chassisName ← optionalStringColumn row "name" columns;
  nbCfg ← int64Column row "nb_cfg" columns;
  nbCfgTimestamp ← int64Column row "nb_cfg_timestamp" columns;
  Ret (chassisUUID, chassisName, nbCfg, nbCfgTimestamp).

(** The index of the private table as the design document describes it,
    written on the rows and not on the maps of the code: each record is
    indexed under both its chassis reference and its chassis name (either
    of them, when it is not empty), and of several records under one key
    the last one counts. The result is the pair of nb_cfg and
    nb_cfg_timestamp indexed under [key]. *)
Fixpoint privateIndex_spec (columns : ColumnSchema) (rows : list Row)
    (key : string) : option (Z * Z) :=
  match rows with
  | [] => None
  | row :: rows' =>
    match privateIndex_spec columns rows' key with
    | Some later => Some later
    | None =>
      match privateRecord columns row with
      | Ret (chassisUUID, chassisName, nbCfg, nbCfgTimestamp) =>
        if decide (key ≠ "" ∧ (chassisUUID = key ∨ chassisName = key))
        then Some (nbCfg, nbCfgTimestamp)
        else None
      | Panic => None
      end
    end
  end.

(** Identifier lookup first, name lookup second, zero when neither key
    resolves, in an index given as a function of the key. *)
Definition resolveIn (index : string → option Z) (c : OvnChassis) : Z :=
  match index (UUID c) with
  | Some v => v
  | None => match index (Name c) with Some v => v | None => 0%Z end
  end.

End Vocabulary_private.

(** ** Concrete inputs *)

Definition idFile : string := "/etc/openvswitch/system-id.conf".
Definition idFileErr : error :=
  "open /etc/openvswitch/system-id.conf: no such file or directory".

(** An identity of 254 bytes. *)
Definition longID : string :=
  String.string_of_list_ascii (replicate 254 "a"%char).

Definition identityDB (externalIDs : gmap string string)
    : list (string * (@Result tableDecoder + error)) :=
  [("SELECT external_ids FROM Open_vSwitch",
    inl (tableResult
           [[("external_ids", (VMap externalIDs, "map[string]string"))]]))].

(** A row of Open_vSwitch with the four version columns. *)
Definition versionRow (externalIDs : gmap string string) : tableRow :=
  [("external_ids", (VMap externalIDs, "map[string]string"));
   ("ovs_version", (VString "3.1.0", "string"));
   ("db_version", (VString "8.3.0", "string"));
   ("system_type", (VStrings ["ubuntu"], "[]string"));
   ("system_version", (VStrings [], "[]string"))].

(** A host with an os-release file. *)
Definition osReleaseHost : Host :=
  {| readFirstLine := readFirstLine bareHost;
     osRelease := Some ["NAME=Ubuntu"; "ID=ubuntu";
                        "VERSION_ID=" +:+ quote +:+ "20.04" +:+ quote];
     appctl := appctl bareHost |}.

Definition mkChassisRow (uuid name encaps : string) : tableRow :=
  [("_uuid", (VString uuid, "string"));
   ("name", (VString name, "string"));
   ("encaps", (VString encaps, "string"))].

Definition mkEncapRow (uuid type chassis_name ip : string) : tableRow :=
  [("_uuid", (VString uuid, "string"));
   ("type", (VString type, "string"));
   ("chassis_name", (VString chassis_name, "string"));
   ("ip", (VString ip, "string"))].

Definition mkPrivateRow (chassis name : string)
    (nb_cfg nb_cfg_timestamp : interface * string) : tableRow :=
  [("chassis", (VString chassis, "string"));
   ("name", (VString name, "string"));
   ("nb_cfg", nb_cfg);
   ("nb_cfg_timestamp", nb_cfg_timestamp)].

Definition twoChassis : list (string * (@Result tableDecoder + error)) :=
  [(queryChassis,
    inl (tableResult [mkChassisRow "uuid-1" "ch-1" "encap-1";
                      mkChassisRow "uuid-2" "ch-2" "encap-2"]))].

(** Two chassis, an endpoint for the first one only, no Chassis_Private. *)
Definition joinedDB : list (string * (@Result tableDecoder + error)) :=
  twoChassis
  ++ [(queryEncap,
       inl (tableResult [mkEncapRow "encap-1" "geneve" "ch-1" "10.0.0.1"]))].

Definition chassis1 : OvnChassis :=
  {| UUID := "uuid-1"; Name := "ch-1";
     IPAddress := String.list_byte_of_string "10.0.0.1";
     Encaps_UUID := "encap-1"; Encaps_Proto := "geneve";
     NbCfg := 0; NbCfgTimestamp := 0; Ports := []; Switches := [] |}.

Definition chassis2 : OvnChassis :=
  {| UUID := "uuid-2"; Name := "ch-2"; IPAddress := [];
     Encaps_UUID := "encap-2"; Encaps_Proto := "";
     NbCfg := 0; NbCfgTimestamp := 0; Ports := []; Switches := [] |}.

(** Chassis 1 as phase one leaves it. *)
Definition fresh1 : OvnChassis := withEncap [] "" chassis1.

(** A private record of chassis 1 with its chassis reference, and one of
    chassis 2 that carries the name only. *)
Definition privateResult : @Result tableDecoder :=
  tableResult
    [mkPrivateRow "uuid-1" "ch-1" (VInt64 7, "integer") (VInt64 1700, "integer");
     [("name", (VString "ch-2", "string"));
      ("nb_cfg", (VInt64 9, "int64"));
      ("nb_cfg_timestamp", (VInt64 1900, "int64"))]].

Definition enrichedDB : list (string * (@Result tableDecoder + error)) :=
  joinedDB ++ [(queryPrivate, inl privateResult)].

Definition mkPort (uuid chassis switch : string) : OvnLogicalSwitchPort :=
  {| lsp_UUID := uuid; lsp_ChassisUUID := chassis;
     lsp_LogicalSwitchUUID := switch;
     lsp_Encapsulation := ""; lsp_ChassisIPAddress := [] |}.

(** Chassis 1 and 2 at addresses 1 and 2, two ports of switch sw-1 on
    chassis 1. *)
Definition heap0 : Heap :=
  {| chassisAt := <[1%positive := chassis1]> (<[2%positive := chassis2]> ∅);
     portAt := <[1%positive := mkPort "port-a" "uuid-1" "sw-1"]>
                 (<[2%positive := mkPort "port-b" "uuid-1" "sw-1"]> ∅) |}.

(** The same heap after a first call of MapPortToChassis on the first
    port: chassis 1 lists the port and the switch. *)
Definition heap1 : Heap :=
  {| chassisAt :=
       <[1%positive := withSwitches ["sw-1"] (withPorts ["port-a"] chassis1)]>
         (<[2%positive := chassis2]> ∅);
     portAt := portAt heap0 |}.

(** ** Vocabulary of the further properties *)

(** The database attempt of getSystemID (lines 64-83) ends without an
    identity; the index is the value of [dbErr] afterwards. The cases are
    the ways out of the nested conditions: no client or no database name;
    a failed query; no row; a first row whose external_ids cell does not
    decode, or not under the tag of a string map; a map without a
    system-id, or with an empty one. *)
Inductive noDatabaseIdentity `{Decoder}
    : option Client → string → option error → Prop :=
| noClient dbName : noDatabaseIdentity None dbName None
| noDatabaseName c : noDatabaseIdentity (Some c) "" None
| queryFailed c dbName err :
    dbName ≠ "" →
    Transact c dbName ("SELECT external_ids FROM " +:+ dbName) = inr err →
    noDatabaseIdentity (Some c) dbName (Some err)
| noRows c dbName result :
    dbName ≠ "" →
    Transact c dbName ("SELECT external_ids FROM " +:+ dbName) = inl result →
    Rows result = [] →
    noDatabaseIdentity (Some c) dbName None
| noExternalIDs c dbName result row rest err :
    dbName ≠ "" →
    Transact c dbName ("SELECT external_ids FROM " +:+ dbName) = inl result →
    Rows result = row :: rest →
    GetColumnValue row "external_ids" (Columns result) = inr err →
    noDatabaseIdentity (Some c) dbName None
| otherDataType c dbName result row rest rowData dataType :
    dbName ≠ "" →
    Transact c dbName ("SELECT external_ids FROM " +:+ dbName) = inl result →
    Rows result = row :: rest →
    GetColumnValue row "external_ids" (Columns result)
      = inl (rowData, dataType) →
    dataType ≠ "map[string]string" →
    noDatabaseIdentity (Some c) dbName None
| noSystemID c dbName result row rest externalIDs :
    dbName ≠ "" →
    Transact c dbName ("SELECT external_ids FROM " +:+ dbName) = inl result →
    Rows result = row :: rest →
    GetColumnValue row "external_ids" (Columns result)
      = inl (VMap externalIDs, "map[string]string") →
    externalIDs !! "system-id" = None ∨ externalIDs !! "system-id" = Some "" →
    noDatabaseIdentity (Some c) dbName None.

(** A failed type assertion in the database attempt: the first row's
    external_ids cell carries the tag of a string map and a value of
    another dynamic type. *)
Definition illTaggedExternalIDs `{Decoder} (client : option Client)
    (dbName : string) : Prop :=
  ∃ c result row rest rowData,
    client = Some c ∧ dbName ≠ ""
    ∧ Transact c dbName ("SELECT external_ids FROM " +:+ dbName) = inl result
    ∧ Rows result = row :: rest
    ∧ GetColumnValue row "external_ids" (Columns result)
      = inl (rowData, "map[string]string")
    ∧ ∀ m, rowData ≠ VMap m.

(** No byte of [v] is a double quote. *)
Fixpoint quoteFree (v : string) : bool :=
  match v with
  | EmptyString => true
  | String a v' => negb (inCutset a quote) && quoteFree v'
  end.

(** [if v != "" { v } else { "unknown" }] *)
Definition orUnknown (v : string) : string :=
  if decide (v = "") then "unknown" else v.

Definition versionKeys : list string :=
  ["ovs_version"; "db_version"; "system_type"; "system_version"].

(** Lines 156-161: the body of the loop of getSystemInfoFromOS over the
    lines of the file. *)
Definition getSystemInfoFromOS_line
    : string * string → string → string * string :=
  λ '(systemType, systemVersion) line,
    if HasPrefix line "ID="
    then (Trim (TrimPrefix line "ID=") quote, systemVersion)
    else if HasPrefix line "VERSION_ID="
    then (systemType, Trim (TrimPrefix line "VERSION_ID=") quote)
    else (systemType, systemVersion).

Section Vocabulary_system.
Context `{D : Decoder}.

(** What parseSystemInfo stores for a version column: the string of a
    string cell, the first element of a list cell, the empty string for an
    empty list. *)
Definition versionValue (row : Row) (columns : ColumnSchema) (col : string)
    : string :=
  match GetColumnValue row col columns with
  | inl (VString s, _) => s
  | inl (VStrings (a :: _), _) => a
  | _ => ""
  end.

End Vocabulary_system.

Section Vocabulary_chassis.
Context `{D : Decoder}.

(** The UUID, the name and the encap reference of the chassis a row of
    Chassis gives; [None] for a row that the loop of phase one skips. *)
Definition baseKey (columns : ColumnSchema) (row : Row)
    : option (string * string * string) :=
  match stringColumn row "_uuid" columns,
        stringColumn row "name" columns,
        stringColumn row "encaps" columns with
  | Ret (Some uuid), Ret (Some name), Ret (Some encaps) =>
    Some (uuid, name, encaps)
  | _, _, _ => None
  end.

(** Chassis [c] is the first of the list with its encap reference and its
    name: the one the inner loop of phase two stops at. *)
Definition firstWithKey (chassis : list OvnChassis) (i : nat) (c : OvnChassis)
    : Prop :=
  chassis !! i = Some c
  ∧ ∀ j d, j < i → chassis !! j = Some d →
      ¬ (Encaps_UUID d = Encaps_UUID c ∧ Name d = Name c).

End Vocabulary_chassis.

(** The UUIDs of the ports of the list whose chassis UUID the lookup
    sends to the chassis at [vtep], in the order of the list. *)
Definition portsOn (h : Heap) (portMap : gmap string positive) (vtep : ptr)
    (logicalSwitchPorts : list ptr) : list string :=
  omap (λ p,
          match portAt h !! p with
          | Some lsp =>
            match portMap !! lsp_ChassisUUID lsp with
            | Some v => if decide (v = vtep) then Some (lsp_UUID lsp) else None
            | None => None
            end
          | None => None
          end) logicalSwitchPorts.

(** What a port of the list is after MapPortToChassis: the port with the
    protocol and the address of the chassis the lookup has for its chassis
    UUID, and the port as it was when the lookup has none. *)
Definition annotated (h : Heap) (portMap : gmap string positive)
    (lsp : OvnLogicalSwitchPort) : OvnLogicalSwitchPort :=
  match portMap !! lsp_ChassisUUID lsp with
  | Some vtep =>
    match chassisAt h !! vtep with
    | Some c => annotate c lsp
    | None => lsp
    end
  | None => lsp
  end.

(** ** Further concrete inputs *)

(** A host whose identity file has [line] as its first line (no line for
    an empty file), with no os-release file and no control socket. *)
Definition idFileHost (line : option string) : Host :=
  {| readFirstLine := λ path,
       if decide (path = idFile) then Scanned line None
       else readFirstLine bareHost path;
     osRelease := None;
     appctl := appctl bareHost |}.

(** Three rows of Chassis, the second without a name. *)
Definition threeRows : list (string * (@Result tableDecoder + error)) :=
  [(queryChassis,
    inl (tableResult [mkChassisRow "uuid-1" "ch-1" "encap-1";
                      [("_uuid", (VString "uuid-x", "string"));
                       ("encaps", (VString "encap-x", "string"))];
                      mkChassisRow "uuid-2" "ch-2" "encap-2"]));
   (queryEncap,
    inl (tableResult [mkEncapRow "encap-1" "geneve" "ch-1" "10.0.0.1"]))].

(** Chassis 1 and 2 at addresses 1 and 2; a port of switch sw-1 on each
    of them, and a third port of sw-1 on a chassis that is not known. *)
Definition heap2 : Heap :=
  {| chassisAt := <[1%positive := chassis1]> (<[2%positive := chassis2]> ∅);
     portAt := <[1%positive := mkPort "port-a" "uuid-1" "sw-1"]>
                 (<[2%positive := mkPort "port-b" "uuid-2" "sw-1"]>
                    (<[3%positive := mkPort "port-c" "uuid-9" "sw-1"]> ∅)) |}.

(** A package for concrete runs: a process is its ID, there is no pid
    file, the schema has version 8.3.0, and a method called on a nil
    client panics. *)
Definition testPackage : @Package tableDecoder :=
  {| OvsProcess := Z;
     Process_ID := λ p, p;
     OvsClientRest := unit;
     getProcessInfoFromFile := λ path,
       (0%Z, Some ("open " +:+ path +:+ ": no such file or directory"));
     GetSchema := λ _ _, ({| Version := "8.3.0" |}, None);
     Transact_nil := λ _ _, Panic;
     GetSchema_nil := λ _, Panic |}.

(** An Open_vSwitch database with one row, answering the query of
    getSystemID and the query of GetSystemInfo. *)
Definition vswitchDB (externalIDs : gmap string string)
    : list (string * (@Result tableDecoder + error)) :=
  identityDB externalIDs
  ++ [(querySystemInfo "Open_vSwitch",
       inl (tableResult [versionRow externalIDs]))].

Definition testCli (db : list (string * (@Result tableDecoder + error)))
    : @OvsClient tableDecoder testPackage :=
  @Build_OvsClient tableDecoder testPackage
    (Some (tableClient db))
    "Open_vSwitch"
    idFile
    "/var/run/openvswitch/ovs-vswitchd.pid"
    0%Z
    "/var/run/openvswitch/ovs-vswitchd.ctl"
    "" "" "" "" "" "" ""
    2%Z
    ().

(** ** General lemmas *)

Lemma append_cons a (s t : string) : String a s +:+ t = String a (s +:+ t).
Proof. reflexivity. Qed.

Lemma length_append (s t : string) :
  String.length (s +:+ t) = String.length s + String.length t.
Proof.
  induction s as [|a s IH]; [done|]. rewrite append_cons. simpl. by rewrite IH.
Qed.

Lemma append_assoc (s t u : string) : (s +:+ t) +:+ u = s +:+ t +:+ u.
Proof.
  induction s as [|a s IH]; [done|]. by rewrite !append_cons, IH.
Qed.

Lemma filter_absent (x : string) (l : list string) :
  x ∉ l → filter (λ s, s = x) l = [].
Proof.
  induction l as [|y l IH]; [done|]. intros Hx.
  rewrite filter_cons_False; [apply IH|]; set_solver.
Qed.

Lemma bind_Ret {A B} (a : A) (f : A → outcome B) : Ret a ≫= f = f a.
Proof. reflexivity. Qed.

Lemma bind_inv {A B} (m : outcome A) (f : A → outcome B) b :
  m ≫= f = Ret b → ∃ a, m = Ret a ∧ f a = Ret b.
Proof. destruct m as [a|]; [|done]. rewrite bind_Ret. eauto. Qed.

(** A loop whose body stops at the first element runs on that element
    only. *)
Lemma forRange_head {A S R} (body : A → S → outcome (ctl S R)) x l s :
  (∀ s', body x s ≠ Ret (Next s')) →
  forRange body (x :: l) s = forRange body [x] s.
Proof.
  intros H. simpl. destruct (body x s) as [[s'| |]|]; cbn; try done.
  by destruct (H s').
Qed.

(** A loop whose body does not panic does not panic. *)
Lemma forRange_returns {A S R} (body : A → S → outcome (ctl S R)) l s :
  (∀ x s, x ∈ l → ∃ c, body x s = Ret c) →
  ∃ r, forRange body l s = Ret r.
Proof.
  revert s. induction l as [|x l IH]; intros s Hbody; cbn [forRange].
  - by eexists.
  - destruct (Hbody x s) as [c ->]; [left|]. rewrite bind_Ret.
    destruct c; [|by eexists..]. apply IH. intros y s' Hy.
    apply Hbody. by right.
Qed.

(** A loop whose body never breaks and never returns: an invariant of the
    body is an invariant of the loop. *)
Lemma forRange_invariant {A S R} (P : S → Prop)
    (body : A → S → outcome (ctl S R)) l s r :
  (∀ x s c, x ∈ l → P s → body x s = Ret c → ∃ s', c = Next s' ∧ P s') →
  P s → forRange body l s = Ret r → ∃ s', r = inl s' ∧ P s'.
Proof.
  revert s. induction l as [|x l IH]; intros s Hbody HP; cbn [forRange].
  - intros [= <-]. eauto.
  - intros (c & Hc & Hrest)%bind_inv.
    destruct (Hbody x s c) as (s' & -> & HP'); [left|done..|].
    eapply IH; [|done..]. intros y s0 c0 Hy. apply Hbody. by right.
Qed.

(** ** getSystemID *)

Section GetSystemID.
Context `{D : Decoder}.
Variable host : Host.

Lemma getSystemID_database_bound client dbName systemID err :
  getSystemID_database client dbName = Ret (inl (systemID, err)) →
  253 < String.length systemID →
  err = Some (errSystemIDTooLong (String.length systemID)).
Proof.
  unfold getSystemID_database. intros H Hlen.
  destruct client as [c|]; [|discriminate].
  destruct (decide (dbName = "")); [discriminate|].
  destruct (Transact c dbName _) as [result|e]; [|discriminate].
  destruct (Rows result) as [|row0 ?]; [discriminate|].
  cbv zeta in H.
  destruct (GetColumnValue row0 _ _) as [[rowData dataType]|]; [|discriminate].
  destruct (decide (dataType = _)); [|discriminate].
  destruct rowData; try discriminate.
  unfold assert_map, mbind, outcome_bind in H; cbv beta iota in H.
  destruct (m !! "system-id") as [id|]; [|discriminate].
  destruct (decide (id = "")); [discriminate|].
  destruct (253 <? String.length id) eqn:E.
  - inversion H; subst; done.
  - inversion H; subst. apply Nat.ltb_ge in E. lia.
Qed.

Lemma getSystemID_file_bound dbErr filepath systemID err :
  getSystemID_file host dbErr filepath = (systemID, err) →
  253 < String.length systemID →
  err = Some (errSystemIDTooLong (String.length systemID)).
Proof.
  unfold getSystemID_file. intros H Hlen.
  destruct (readFirstLine host filepath) as [e|line [e|]].
  - destruct dbErr; inversion H; subst; simpl in Hlen; lia.
  - destruct dbErr; inversion H; subst; simpl in Hlen; lia.
  - cbv zeta in H. destruct (253 <? _) eqn:E.
    + inversion H; subst; done.
    + inversion H; subst. apply Nat.ltb_ge in E. lia.
Qed.

Lemma getSystemID_database_long (c : Client) dbName result row rest m systemID :
  dbName ≠ "" →
  Transact c dbName ("SELECT external_ids FROM " +:+ dbName) = inl result →
  Rows result = row :: rest →
  GetColumnValue row "external_ids" (Columns result)
    = inl (VMap m, "map[string]string") →
  m !! "system-id" = Some systemID →
  253 < String.length systemID →
  getSystemID_database (Some c) dbName
  = Ret (inl (systemID, Some (errSystemIDTooLong (String.length systemID)))).
Proof.
  intros Hname Hq Hrows Hcol Hid Hlen. unfold getSystemID_database.
  destruct (decide (dbName = "")); [done|]. cbv zeta.
  rewrite Hq, Hrows, Hcol. destruct (decide _); [|done].
  cbn [assert_map]. rewrite bind_Ret, Hid.
  destruct (decide (systemID = "")) as [->|]; [simpl in Hlen; lia|].
  cbv zeta. by rewrite (proj2 (Nat.ltb_lt _ _) Hlen).
Qed.

(** C9. An identity longer than 253 bytes never comes back from
    getSystemID with a nil error: whenever getSystemID returns such an
    identity the error is the too-long error; and it does return that
    error, both when the identity comes from the external_ids map of the
    database and when it is the first line of the identity file. *)
Theorem getSystemID_too_long client dbName filepath systemID :
  253 < String.length systemID →
  (∀ err,
     getSystemID host client dbName filepath = Ret (systemID, err) →
     err = Some (errSystemIDTooLong (String.length systemID)))
  ∧ (∀ (c : Client) result row rest m,
       client = Some c → dbName ≠ "" →
       Transact c dbName ("SELECT external_ids FROM " +:+ dbName)
         = inl result →
       Rows result = row :: rest →
       GetColumnValue row "external_ids" (Columns result)
         = inl (VMap m, "map[string]string") →
       m !! "system-id" = Some systemID →
       getSystemID host client dbName filepath
       = Ret (systemID,
              Some (errSystemIDTooLong (String.length systemID))))
  ∧ (∀ dbErr,
       getSystemID_database client dbName = Ret (inr dbErr) →
       readFirstLine host filepath = Scanned (Some systemID) None →
       getSystemID host client dbName filepath
       = Ret (systemID,
              Some (errSystemIDTooLong (String.length systemID)))).
Proof.
  intros Hlen. split; [|split].
  - intros err H. unfold getSystemID in H.
    destruct (getSystemID_database client dbName) as [[[id e]|dbErr]|] eqn:Hdb;
      rewrite ?bind_Ret in H; [| |done].
    + inversion H; subst. eauto using getSystemID_database_bound.
    + inversion H as [Hf]. eauto using getSystemID_file_bound.
  - intros c result row rest m -> Hname Hq Hrows Hcol Hid.
    unfold getSystemID.
    by rewrite (getSystemID_database_long c dbName result row rest m systemID).
  - intros dbErr Hdb Hfile. unfold getSystemID, getSystemID_file.
    rewrite Hdb, bind_Ret, Hfile. cbv zeta.
    change (default "" (Some systemID)) with systemID.
    by rewrite (proj2 (Nat.ltb_lt _ _) Hlen).
Qed.

Lemma getSystemID_file_fails dbErr filepath fileErr :
  fileCause host filepath = Some fileErr →
  getSystemID_file host dbErr filepath =
    ("", Some (match dbErr with
               | Some dbErr => errDatabaseAndFile dbErr fileErr
               | None => fileErr
               end)).
Proof.
  unfold fileCause, getSystemID_file.
  destruct (readFirstLine host filepath) as [e|line [e|]]; intros [= ->];
    by destruct dbErr.
Qed.

(** When the database attempt falls through without a query error, the
    error of getSystemID is the error of the file alone. *)
Lemma getSystemID_file_only client dbName filepath fileErr :
  getSystemID_database client dbName = Ret (inr None) →
  fileCause host filepath = Some fileErr →
  getSystemID host client dbName filepath = Ret ("", Some fileErr).
Proof.
  intros Hdb Hf. unfold getSystemID. rewrite Hdb, bind_Ret.
  by rewrite (getSystemID_file_fails None _ _ Hf).
Qed.

(** C3, as amended. When the query of the database attempt returns an
    error and the file attempt fails too, getSystemID returns the combined
    error, in which both messages occur. *)
Theorem getSystemID_reports_both (c : Client) dbName filepath dbErr fileErr :
  dbName ≠ "" →
  Transact c dbName ("SELECT external_ids FROM " +:+ dbName) = inr dbErr →
  fileCause host filepath = Some fileErr →
  ∃ e, getSystemID host (Some c) dbName filepath = Ret ("", Some e)
       ∧ e = errDatabaseAndFile dbErr fileErr
       ∧ Contains e dbErr ∧ Contains e fileErr.
Proof.
  intros Hname Hq Hf. exists (errDatabaseAndFile dbErr fileErr).
  split; [|split; [done|split]].
  - unfold getSystemID, getSystemID_database.
    destruct (decide (dbName = "")); [done|]. cbv zeta.
    rewrite Hq, bind_Ret.
    by rewrite (getSystemID_file_fails (Some dbErr) _ _ Hf).
  - exists "failed to get system-id from database (",
           (") and file (" +:+ fileErr +:+ ")"). done.
  - exists ("failed to get system-id from database (" +:+ dbErr
            +:+ ") and file ("), ")".
    unfold errDatabaseAndFile. by rewrite !append_assoc.
Qed.

End GetSystemID.

Lemma getSystemID_too_long_witness :
  getSystemID (D := tableDecoder) bareHost
    (Some (tableClient (identityDB {["system-id" := longID]})))
    "Open_vSwitch" idFile
  = Ret (longID, Some (errSystemIDTooLong (String.length longID))).
Proof.
  refine (proj1 (proj2 (getSystemID_too_long (D := tableDecoder) bareHost
            (Some (tableClient (identityDB {["system-id" := longID]})))
            "Open_vSwitch" idFile longID _))
          (tableClient (identityDB {["system-id" := longID]}))
          (tableResult
             [[("external_ids",
                (VMap {["system-id" := longID]}, "map[string]string"))]])
          _ [] {["system-id" := longID]} _ _ _ _ _ _).
  - vm_compute. lia.
  - reflexivity.
  - vm_compute. discriminate.
  - reflexivity.
  - reflexivity.
  - reflexivity.
  - vm_compute. reflexivity.
Defined.

Lemma getSystemID_reports_both_witness :
  ∃ e, getSystemID (D := tableDecoder) bareHost (Some (tableClient []))
         "Open_vSwitch" idFile = Ret ("", Some e)
       ∧ e = errDatabaseAndFile "connection refused" idFileErr
       ∧ Contains e "connection refused" ∧ Contains e idFileErr.
Proof.
  apply (getSystemID_reports_both (D := tableDecoder) bareHost
           (tableClient []) "Open_vSwitch" idFile
           "connection refused" idFileErr).
  - vm_compute. discriminate.
  - reflexivity.
  - reflexivity.
Defined.

(** C3, as stated, fails: with no query client, and with a database whose
    external_ids has no system-id, the database attempt fails, the file
    attempt fails, and the error returned is the error of the file, which
    is no combined error. *)
Lemma getSystemID_file_cause_alone :
  fileCause bareHost idFile = Some idFileErr
  ∧ getSystemID (D := tableDecoder) bareHost None "Open_vSwitch" idFile
    = Ret ("", Some idFileErr)
  ∧ getSystemID (D := tableDecoder) bareHost
      (Some (tableClient (identityDB {["hostname" := "node-1"]})))
      "Open_vSwitch" idFile
    = Ret ("", Some idFileErr)
  ∧ ∀ dbCause, idFileErr ≠ errDatabaseAndFile dbCause idFileErr.
Proof.
  split; [reflexivity|]. split; [reflexivity|].
  split; [vm_compute; reflexivity|].
  intros dbCause Heq. apply (f_equal String.length) in Heq.
  unfold errDatabaseAndFile in Heq. rewrite !length_append in Heq.
  simpl in Heq. lia.
Qed.

(** ** parseSystemInfo *)

Section ParseSystemInfo.
Context `{D : Decoder}.

Lemma parseSystemInfo_row_stops columns row systemInfo s' :
  parseSystemInfo_row columns row systemInfo ≠ Ret (Next s').
Proof.
  unfold parseSystemInfo_row. cbv zeta.
  destruct (GetColumnValue row _ _) as [[rowData dataType]|]; [|done].
  destruct (decide _); [|done].
  unfold mbind, outcome_bind.
  destruct (assert_map rowData) as [m|]; [|done].
  match goal with
  | |- context [forRange ?b ?l ?s] => destruct (forRange b l s) as [[?|?]|]
  end; done.
Qed.

Lemma parseSystemInfo_rows systemID columns row rest :
  parseSystemInfo systemID {| Rows := row :: rest; Columns := columns |}
  = parseSystemInfo systemID {| Rows := [row]; Columns := columns |}.
Proof.
  unfold parseSystemInfo. cbn [Rows Columns].
  rewrite forRange_head; [done|]. intros s'. apply parseSystemInfo_row_stops.
Qed.

(** C10. For a result with at least one row, the map and the error of
    parseSystemInfo are those of the result cut down to its first row: the
    body of the loop over the rows ends in a return or in the break, so
    the rows after the first one are never looked at. *)
Theorem parseSystemInfo_first_row systemID (result : Result) row rest :
  Rows result = row :: rest →
  parseSystemInfo systemID result
  = parseSystemInfo systemID {| Rows := [row]; Columns := Columns result |}.
Proof.
  destruct result as [rows columns]. cbn [Rows Columns]. intros ->.
  apply parseSystemInfo_rows.
Qed.

Lemma parseSystemInfo_column_ok row columns col systemInfo :
  versionColumnOk row columns col = true →
  ∃ v, parseSystemInfo_column row columns col systemInfo
       = Ret (Next (<[col := v]> systemInfo)).
Proof.
  unfold versionColumnOk, parseSystemInfo_column.
  destruct (GetColumnValue row col columns) as [[r dt]|]; [|done].
  destruct r; try done; intros Hdt%bool_decide_eq_true; subst dt.
  - destruct (decide _); [|done]. by eexists.
  - destruct (decide ("[]string" = "string")); [done|].
    destruct (decide _); [|done]. destruct l; by eexists.
Qed.

Lemma parseSystemInfo_columns_ok row columns m :
  forallb (versionColumnOk row columns)
    ["ovs_version"; "db_version"; "system_type"; "system_version"] = true →
  ∃ v1 v2 v3 v4,
    forRange (parseSystemInfo_column row columns)
      ["ovs_version"; "db_version"; "system_type"; "system_version"] m
    = Ret (inl (<["system_version" := v4]> (<["system_type" := v3]>
                 (<["db_version" := v2]> (<["ovs_version" := v1]> m))))).
Proof.
  intros Hcols. cbn in Hcols.
  repeat (apply andb_prop in Hcols as [? Hcols]).
  cbn [forRange].
  destruct (parseSystemInfo_column_ok row columns "ovs_version" m) as [v1 ->];
    [done|]. rewrite bind_Ret.
  destruct (parseSystemInfo_column_ok row columns "db_version"
              (<["ovs_version" := v1]> m)) as [v2 ->]; [done|].
  rewrite bind_Ret.
  destruct (parseSystemInfo_column_ok row columns "system_type"
              (<["db_version" := v2]> (<["ovs_version" := v1]> m)))
    as [v3 ->]; [done|]. rewrite bind_Ret.
  destruct (parseSystemInfo_column_ok row columns "system_version"
              (<["system_type" := v3]> (<["db_version" := v2]>
                 (<["ovs_version" := v1]> m)))) as [v4 ->]; [done|].
  rewrite bind_Ret. by exists v1, v2, v3, v4.
Qed.

(** C2, as amended. When the external_ids map of the first row has a
    system-id and the four version columns of that row decode (as a string
    or a list of strings), parseSystemInfo fails with the mismatch error if
    the system-id differs from the expected identity; if the two are equal
    it returns a nil error exactly when the map also has a hostname, and
    the missing-hostname error otherwise. *)
Theorem parseSystemInfo_identity systemID columns row rest m dbSystemID :
  GetColumnValue row "external_ids" columns
    = inl (VMap m, "map[string]string") →
  m !! "system-id" = Some dbSystemID →
  forallb (versionColumnOk row columns)
    ["ovs_version"; "db_version"; "system_type"; "system_version"] = true →
  ∃ systemInfo,
    parseSystemInfo systemID {| Rows := row :: rest; Columns := columns |}
    = Ret (systemInfo,
           if decide (dbSystemID = systemID) then
             match m !! "hostname" with
             | Some _ => None
             | None => Some (errNoMandatory "hostname")
             end
           else Some (errMismatch dbSystemID systemID)).
Proof.
  intros Hext Hid Hcols. rewrite parseSystemInfo_rows.
  destruct (parseSystemInfo_columns_ok row columns m Hcols)
    as (v1 & v2 & v3 & v4 & Hloop).
  unfold parseSystemInfo. cbn [Rows Columns forRange].
  unfold parseSystemInfo_row. cbv zeta. rewrite Hext.
  destruct (decide _); [|done]. cbn [assert_map].
  rewrite bind_Ret, Hloop, !bind_Ret.
  rewrite !lookup_insert_ne, Hid by done.
  destruct (decide (dbSystemID = systemID)); [|by eexists].
  destruct (_ !! "rundir"); cbn [forRange];
    rewrite ?lookup_insert_ne by done;
    destruct (m !! "hostname"); rewrite !bind_Ret; by eexists.
Qed.

End ParseSystemInfo.

Lemma parseSystemInfo_first_row_witness :
  parseSystemInfo (D := tableDecoder) "sys-1"
    (tableResult
       [versionRow {["system-id" := "sys-1"; "hostname" := "node-1"]};
        versionRow {["system-id" := "sys-2"]}])
  = parseSystemInfo (D := tableDecoder) "sys-1"
      (tableResult
         [versionRow {["system-id" := "sys-1"; "hostname" := "node-1"]}]).
Proof.
  apply (parseSystemInfo_first_row (D := tableDecoder) "sys-1"
           (tableResult
              [versionRow {["system-id" := "sys-1"; "hostname" := "node-1"]};
               versionRow {["system-id" := "sys-2"]}])
           (versionRow {["system-id" := "sys-1"; "hostname" := "node-1"]})
           [versionRow {["system-id" := "sys-2"]}]).
  reflexivity.
Defined.

Lemma parseSystemInfo_identity_witness :
  ∃ systemInfo,
    parseSystemInfo (D := tableDecoder) "sys-1"
      (tableResult
         [versionRow {["system-id" := "sys-1"; "hostname" := "node-1"]}])
    = Ret (systemInfo, None).
Proof.
  destruct (parseSystemInfo_identity (D := tableDecoder) "sys-1" ()
           (versionRow {["system-id" := "sys-1"; "hostname" := "node-1"]}) []
           {["system-id" := "sys-1"; "hostname" := "node-1"]} "sys-1")
    as [systemInfo Hrun].
  - reflexivity.
  - vm_compute. reflexivity.
  - vm_compute. reflexivity.
  - exists systemInfo. exact Hrun.
Defined.

(** C2, as stated, fails. The external_ids map of the first row has a
    system-id: with an equal expected identity parseSystemInfo still
    returns an error when the map has no hostname; and with a different
    expected identity the error is not the mismatch error when a version
    column does not decode. *)
Lemma parseSystemInfo_identity_not_enough :
  (∃ systemInfo,
     ({["system-id" := "sys-1"]} : gmap string string) !! "system-id"
       = Some "sys-1"
     ∧ parseSystemInfo (D := tableDecoder) "sys-1"
         (tableResult [versionRow {["system-id" := "sys-1"]}])
       = Ret (systemInfo, Some "no mandatory 'hostname' found"))
  ∧ (∃ systemInfo,
       parseSystemInfo (D := tableDecoder) "sys-2"
         (tableResult
            [[("external_ids",
               (VMap {["system-id" := "sys-1"; "hostname" := "node-1"]},
                "map[string]string"))]])
       = Ret (systemInfo,
              Some "parsing 'ovs_version' failed: column 'ovs_version' not found in the row")).
Proof.
  split.
  - eexists. split; [reflexivity|]. vm_compute. reflexivity.
  - eexists. vm_compute. reflexivity.
Qed.

(** ** populateVersionFromAppctl *)

Section PopulateVersion.
Context `{G : GoRuntime}.
Variable host : Host.

Lemma absentOrEmpty_false systemInfo key v :
  systemInfo !! key = Some v → v ≠ "" → absentOrEmpty systemInfo key = false.
Proof.
  unfold absentOrEmpty. intros -> Hv. by apply bool_decide_eq_false.
Qed.

Lemma populate_ovs_version_other systemInfo sock timeout key :
  key ≠ "ovs_version" →
  populate_ovs_version host systemInfo sock timeout !! key = systemInfo !! key.
Proof.
  intros Hk. unfold populate_ovs_version.
  destruct (absentOrEmpty _ _); [|done].
  destruct (getVersionViaAppctl host sock timeout) as [? [?|]];
    by rewrite lookup_insert_ne.
Qed.

Lemma populate_db_version_other systemInfo schema key :
  key ≠ "db_version" →
  populate_db_version systemInfo schema !! key = systemInfo !! key.
Proof.
  intros Hk. unfold populate_db_version.
  destruct (absentOrEmpty _ _); [|done].
  destruct schema as [sc|]; [destruct (decide _)|]; by rewrite lookup_insert_ne.
Qed.

Lemma populate_system_other systemInfo key :
  key ≠ "system_type" → key ≠ "system_version" →
  populate_system host systemInfo !! key = systemInfo !! key.
Proof.
  intros Hk1 Hk2. unfold populate_system.
  destruct (getSystemInfoFromOS host) as [ty ver].
  destruct (absentOrEmpty _ "system_type");
    [|destruct (absentOrEmpty _ "system_version")];
    repeat destruct (decide _); by rewrite ?lookup_insert_ne.
Qed.

(** Where populateVersionFromAppctl does prefer the database: a non-empty
    ovs_version, db_version or system_type is left as it is, and so is a
    non-empty system_version when the row has a non-empty system_type
    too. *)
Lemma populateVersion_keeps systemInfo sock timeout schema key v :
  key = "ovs_version" ∨ key = "db_version" ∨ key = "system_type"
  ∨ (key = "system_version"
     ∧ absentOrEmpty systemInfo "system_type" = false) →
  systemInfo !! key = Some v → v ≠ "" →
  populateVersionFromAppctl host systemInfo sock timeout schema !! key = Some v.
Proof.
  intros Hkey Hv Hne. unfold populateVersionFromAppctl.
  destruct Hkey as [->|[->|[->|[-> Hty]]]].
  - rewrite populate_system_other, populate_db_version_other by done.
    unfold populate_ovs_version.
    by rewrite (absentOrEmpty_false _ _ _ Hv Hne).
  - rewrite populate_system_other by done.
    unfold populate_db_version.
    rewrite (absentOrEmpty_false _ _ v); [| |done];
      by rewrite populate_ovs_version_other.
  - unfold populate_system.
    rewrite (absentOrEmpty_false _ "system_type" v); [| |done].
    + destruct (absentOrEmpty _ "system_version");
        [destruct (getSystemInfoFromOS host); destruct (decide _)|];
        rewrite ?lookup_insert_ne by done;
        by rewrite populate_db_version_other, populate_ovs_version_other.
    + by rewrite populate_db_version_other, populate_ovs_version_other.
  - unfold populate_system.
    assert (∀ k, k ≠ "ovs_version" → k ≠ "db_version" →
      populate_db_version (populate_ovs_version host systemInfo sock timeout)
        schema !! k = systemInfo !! k) as Hsame.
    { intros k ? ?.
      by rewrite populate_db_version_other, populate_ovs_version_other. }
    assert (∀ k, k ≠ "ovs_version" → k ≠ "db_version" →
      absentOrEmpty (populate_db_version
        (populate_ovs_version host systemInfo sock timeout) schema) k
      = absentOrEmpty systemInfo k) as Habs.
    { intros k ? ?. unfold absentOrEmpty. by rewrite Hsame. }
    rewrite !Habs, Hty by done.
    rewrite (absentOrEmpty_false _ _ _ Hv Hne). by rewrite Hsame.
Qed.

End PopulateVersion.

(** C4: the code does not do what the claim says for system_version. A
    row that supplies system_version "22.04" and no system_type takes the
    first branch of the third statement, which assigns system_version
    without looking at it: the database value is replaced by "unknown" on a
    host without os-release file, and by the VERSION_ID of the file on a
    host with one. *)
Theorem populateVersion_overwrites_system_version :
  let systemInfo : gmap string string :=
    {["ovs_version" := "3.1.0"; "db_version" := "8.3.0";
      "system_version" := "22.04"]} in
  systemInfo !! "system_version" = Some "22.04"
  ∧ populateVersionFromAppctl (G := testRuntime) bareHost systemInfo
      "/var/run/openvswitch/ovs-vswitchd.ctl" 1 (Some {| Version := "8.3.0" |})
      !! "system_version" = Some "unknown"
  ∧ populateVersionFromAppctl (G := testRuntime) osReleaseHost systemInfo
      "/var/run/openvswitch/ovs-vswitchd.ctl" 1 (Some {| Version := "8.3.0" |})
      !! "system_version" = Some "20.04".
Proof. vm_compute. done. Qed.

(** ** The conversions between int64 and float64 *)

Lemma digits2_pos_size p : digits2_pos p = Pos.size p.
Proof. induction p; simpl; congruence. Qed.

Lemma digits2_pos_bound p :
  (Z.pos p < 2 ^ 53)%Z → (Z.pos (digits2_pos p) ≤ 53)%Z.
Proof.
  intros Hp. rewrite digits2_pos_size.
  pose proof (Pos.size_le p) as Hle.
  apply Pos2Z.pos_le_pos in Hle. rewrite Pos2Z.inj_pow in Hle.
  change (Z.pos p~0) with (2 * Z.pos p)%Z in Hle.
  destruct (Z_le_gt_dec (Z.pos (Pos.size p)) 53) as [|Hgt]; [done|].
  assert (2 ^ 54 ≤ 2 ^ Z.pos (Pos.size p))%Z by (apply Z.pow_le_mono_r; lia).
  assert (2 ^ 54 = 2 * 2 ^ 53)%Z by reflexivity.
  lia.
Qed.

Lemma iter_xO_digits p k :
  digits2_pos (Pos.iter xO p k) = (digits2_pos p + k)%positive.
Proof.
  induction k as [|k IH] using Pos.peano_ind.
  - simpl. lia.
  - rewrite Pos.iter_succ. simpl. rewrite IH. lia.
Qed.

Lemma iter_xO_value p k :
  Z.pos (Pos.iter xO p k) = (Z.pos p * 2 ^ Z.pos k)%Z.
Proof.
  induction k as [|k IH] using Pos.peano_ind.
  - simpl. lia.
  - rewrite Pos.iter_succ, Pos2Z.inj_xO, IH, Pos2Z.inj_succ, Z.pow_succ_r; lia.
Qed.

Lemma binary_round_aux_exact s m e :
  Z.pos (digits2_pos m) = 53%Z → (-1074 ≤ e ≤ 971)%Z →
  binary_round_aux 53 1024 s (Z.pos m) e loc_Exact = S754_finite s m e.
Proof.
  intros Hd He.
  assert (fexp 53 1024 (53 + e) - e = 0)%Z as Hshift.
  { unfold fexp, emin. lia. }
  unfold binary_round_aux, shr_fexp. cbn [Zdigits2 shr_record_of_loc].
  rewrite Hd, Hshift. cbn [shr shr_m loc_of_shr_record round_nearest_even].
  cbn [Zdigits2 shr_record_of_loc]. rewrite Hd, Hshift. cbn [shr shr_m].
  destruct (Z.leb_spec e (1024 - 53)); [done|lia].
Qed.

Lemma binary_round_small s p :
  (Z.pos p < 2 ^ 53)%Z →
  ∃ m e, binary_round 53 1024 s p 0 = S754_finite s m e
         ∧ Z.shiftl (Z.pos m) e = Z.pos p.
Proof.
  intros Hp. pose proof (digits2_pos_bound p Hp) as Hd.
  unfold binary_round.
  assert (fexp 53 1024 (Z.pos (digits2_pos p) + 0)
          = Z.pos (digits2_pos p) - 53)%Z as ->.
  { unfold fexp, emin. lia. }
  unfold shl_align.
  destruct (Z.pos (digits2_pos p) - 53 - 0)%Z as [|k|k] eqn:Hk; [|lia|].
  - exists p, 0%Z. split; [|done].
    apply binary_round_aux_exact; lia.
  - exists (Pos.iter xO p k), (Z.pos (digits2_pos p) - 53)%Z. split.
    + apply binary_round_aux_exact; [|lia].
      rewrite iter_xO_digits. lia.
    + rewrite Z.shiftl_div_pow2 by lia. rewrite iter_xO_value.
      replace (- (Z.pos (digits2_pos p) - 53))%Z with (Z.pos k) by lia.
      apply Z.div_mul. lia.
Qed.

Lemma float64_roundtrip `{G : GoRuntime} v :
  (- 2 ^ 53 ≤ v ≤ 2 ^ 53)%Z →
  int64_of_float64 (float64_of_int64 v) = v.
Proof.
  intros Hv. unfold float64_of_int64, binary_normalize.
  destruct v as [|p|p]; [done| |].
  - destruct (decide (Z.pos p = 2 ^ 53)%Z) as [Heq|Hne].
    + injection Heq as ->. vm_compute. done.
    + destruct (binary_round_small false p) as (m & e & -> & Hval); [lia|].
      unfold int64_of_float64. cbn [cond_Zopp]. rewrite Hval.
      destruct (decide _) as [|Hr]; [done|].
      unfold int64_min, int64_max in Hr. lia.
  - destruct (decide (Z.pos p = 2 ^ 53)%Z) as [Heq|Hne].
    + injection Heq as ->. vm_compute. done.
    + destruct (binary_round_small true p) as (m & e & -> & Hval); [lia|].
      unfold int64_of_float64. cbn [cond_Zopp]. rewrite Hval.
      destruct (decide _) as [|Hr]; [done|].
      unfold int64_min, int64_max in Hr. lia.
Qed.

(** ** GetChassis *)

Section GetChassis.
Context `{D : Decoder} `{G : GoRuntime}.

Lemma stringColumn_returns columns row col :
  cellWellTagged columns row col = true →
  ∃ o, stringColumn row col columns = Ret o.
Proof.
  unfold cellWellTagged, stringColumn.
  destruct (GetColumnValue row col columns) as [[r dt]|]; [|by eexists].
  unfold wellTagged. destruct (decide (dt = "string")); [|by eexists].
  destruct r; try done. by eexists.
Qed.

Lemma optionalStringColumn_returns columns row col :
  cellWellTagged columns row col = true →
  ∃ o, optionalStringColumn row col columns = Ret o.
Proof.
  unfold cellWellTagged, optionalStringColumn.
  destruct (GetColumnValue row col columns) as [[r dt]|]; [|by eexists].
  unfold wellTagged. destruct (decide (dt = "string")); [|by eexists].
  destruct r; try done. by eexists.
Qed.

Lemma int64Column_returns columns row col :
  cellWellTagged columns row col = true →
  ∃ o, int64Column row col columns = Ret o.
Proof.
  unfold cellWellTagged, int64Column, decodeInt64.
  destruct (GetColumnValue row col columns) as [[r dt]|]; [|by eexists].
  unfold wellTagged. repeat destruct (decide _); subst; try done;
    destruct r; try done; by eexists.
Qed.


Lemma chassisRow_returns columns row chassis :
  forallb (cellWellTagged columns row) ["_uuid"; "name"; "encaps"] = true →
  ∃ c, GetChassis_chassisRow columns row chassis = Ret c.
Proof.
  intros Hw. cbn in Hw. repeat (apply andb_prop in Hw as [? Hw]).
  unfold GetChassis_chassisRow.
  destruct (stringColumn_returns columns row "_uuid") as [[u|] ->]; [done| |];
    rewrite bind_Ret; [|by eexists].
  destruct (stringColumn_returns columns row "name") as [[n|] ->]; [done| |];
    rewrite bind_Ret; [|by eexists].
  destruct (stringColumn_returns columns row "encaps") as [[e|] ->]; [done| |];
    rewrite bind_Ret; by eexists.
Qed.

Lemma chassisRow_spec columns row chassis c :
  GetChassis_chassisRow columns row chassis = Ret c →
  ∃ cs, c = Next (chassis ++ cs)
    ∧ Forall (λ c, zeroEncap c ∧ zeroNbCfg c) cs
    ∧ ∀ u n e, baseRowDecodes columns row u n e →
        ∃ c, c ∈ cs ∧ chassisKey c = (u, n, e).
Proof.
  unfold GetChassis_chassisRow, baseRowDecodes.
  intros (ou & Hu & H)%bind_inv. rewrite Hu.
  destruct ou as [u|].
  2:{ injection H as <-. exists []. rewrite app_nil_r.
      split; [done|]. split; [done|]. by intros ??? [? _]. }
  apply bind_inv in H as (on & Hn & H). rewrite Hn.
  destruct on as [n|].
  2:{ injection H as <-. exists []. rewrite app_nil_r.
      split; [done|]. split; [done|]. by intros ??? (_ & ? & _). }
  apply bind_inv in H as (oe & He & H). rewrite He.
  destruct oe as [e|].
  2:{ injection H as <-. exists []. rewrite app_nil_r.
      split; [done|]. split; [done|]. by intros ??? (_ & _ & ?). }
  injection H as <-. eexists [_]. split; [done|]. split.
  - by repeat constructor.
  - intros u' n' e' ([= <-] & [= <-] & [= <-]). eexists. split; [left|done].
Qed.

Lemma base_loop columns rows acc r :
  forRange (GetChassis_chassisRow columns) rows acc = Ret r →
  ∃ cs, r = inl (acc ++ cs)
    ∧ Forall (λ c, zeroEncap c ∧ zeroNbCfg c) cs
    ∧ ∀ row u n e, row ∈ rows → baseRowDecodes columns row u n e →
        ∃ c, c ∈ cs ∧ chassisKey c = (u, n, e).
Proof.
  revert acc. induction rows as [|row rows IH]; intros acc; cbn [forRange].
  - intros [= <-]. exists []. rewrite app_nil_r. split; [done|].
    split; [done|]. intros ???? Hin. by apply elem_of_nil in Hin.
  - intros (c & Hc & H)%bind_inv.
    apply chassisRow_spec in Hc as (cs1 & -> & Hz1 & Hd1).
    apply IH in H as (cs2 & -> & Hz2 & Hd2).
    exists (cs1 ++ cs2). rewrite app_assoc. split; [done|]. split.
    + by apply Forall_app.
    + intros row' u n e [->|Hin]%elem_of_cons Hdec.
      * destruct (Hd1 u n e Hdec) as (c & ? & ?). exists c.
        split; [|done]. apply elem_of_app. by left.
      * destruct (Hd2 row' u n e Hin Hdec) as (c & ? & ?). exists c.
        split; [|done]. apply elem_of_app. by right.
Qed.

Lemma join_key u p n ip cs :
  chassisKey <$> GetChassis_join u p n ip cs = chassisKey <$> cs.
Proof.
  induction cs as [|c cs IH]; [done|]. cbn [GetChassis_join].
  repeat destruct (decide _); cbn; by rewrite ?IH.
Qed.

Lemma join_zeroNbCfg u p n ip cs :
  Forall zeroNbCfg cs → Forall zeroNbCfg (GetChassis_join u p n ip cs).
Proof.
  induction 1 as [|c cs Hc Hcs IH]; [done|]. cbn [GetChassis_join].
  repeat destruct (decide _); by constructor.
Qed.

Lemma join_elem u p n ip cs c' :
  c' ∈ GetChassis_join u p n ip cs →
  c' ∈ cs ∨ (Encaps_UUID c' = u ∧ Name c' = n).
Proof.
  induction cs as [|c cs IH]; [by left|]. cbn [GetChassis_join].
  destruct (decide (Encaps_UUID c = u)) as [Hu|];
    [destruct (decide (Name c = n)) as [Hn|]|].
  - intros [->|?]%elem_of_cons; [by right|]. left. by right.
  - intros [->|[?|?]%IH]%elem_of_cons; [left; left|left; by right|by right].
  - intros [->|[?|?]%IH]%elem_of_cons; [left; left|left; by right|by right].
Qed.

Lemma encapRow_returns columns row chassis :
  forallb (cellWellTagged columns row)
    ["_uuid"; "type"; "chassis_name"; "ip"] = true →
  ∃ c, GetChassis_encapRow columns row chassis = Ret c.
Proof.
  intros Hw. cbn in Hw. repeat (apply andb_prop in Hw as [? Hw]).
  unfold GetChassis_encapRow.
  destruct (stringColumn_returns columns row "_uuid") as [[u|] ->]; [done| |];
    rewrite bind_Ret; [|by eexists].
  destruct (stringColumn_returns columns row "type") as [[p|] ->]; [done| |];
    rewrite bind_Ret; [|by eexists].
  destruct (stringColumn_returns columns row "chassis_name") as [[n|] ->];
    [done| |]; rewrite bind_Ret; [|by eexists].
  destruct (stringColumn_returns columns row "ip") as [[ip|] ->]; [done| |];
    rewrite bind_Ret; by eexists.
Qed.

Lemma encapRow_spec columns row chassis c :
  GetChassis_encapRow columns row chassis = Ret c →
  c = Next chassis
  ∨ ∃ u p n ip, encapRowDecodes columns row u p n ip
                ∧ c = Next (GetChassis_join u p n ip chassis).
Proof.
  unfold GetChassis_encapRow, encapRowDecodes.
  intros (ou & Hu & H)%bind_inv. rewrite Hu.
  destruct ou as [u|]; [|injection H as <-; by left].
  apply bind_inv in H as (op & Hp & H). rewrite Hp.
  destruct op as [p|]; [|injection H as <-; by left].
  apply bind_inv in H as (on & Hn & H). rewrite Hn.
  destruct on as [n|]; [|injection H as <-; by left].
  apply bind_inv in H as (oi & Hi & H). rewrite Hi.
  destruct oi as [ip|]; [|injection H as <-; by left].
  injection H as <-. right. by exists u, p, n, ip.
Qed.

Lemma encap_loop columns rows cs1 r :
  Forall (λ c, zeroEncap c ∧ zeroNbCfg c) cs1 →
  forRange (GetChassis_encapRow columns) rows cs1 = Ret r →
  ∃ cs, r = inl cs ∧ afterEncap columns rows cs1 cs.
Proof.
  intros Hfresh Hrun.
  eapply (forRange_invariant (afterEncap columns rows cs1)); [| |done].
  - intros row cs c Hin (Hkey & Hz & Hno) Hc.
    apply encapRow_spec in Hc as [->|(u & p & n & ip & Hdec & ->)].
    { by eexists. }
    eexists. split; [done|]. split; [|split].
    + by rewrite join_key.
    + by apply join_zeroNbCfg.
    + intros c' [Hc'|[Hu Hn]]%join_elem Hnone; [by apply Hno|].
      destruct (Hnone row Hin). exists p, ip. by rewrite Hu, Hn.
  - split; [done|]. split.
    + eapply Forall_impl; [done|]. by intros ? [_ ?].
    + intros c Hc _. rewrite Forall_forall in Hfresh. by apply Hfresh.
Qed.


Lemma privateRow_returns columns row maps :
  forallb (cellWellTagged columns row)
    ["chassis"; "name"; "nb_cfg"; "nb_cfg_timestamp"] = true →
  ∃ c, GetChassis_privateRow columns row maps = Ret c.
Proof.
  intros Hw. cbn in Hw. repeat (apply andb_prop in Hw as [? Hw]).
  unfold GetChassis_privateRow.
  destruct (optionalStringColumn_returns columns row "chassis") as [u ->];
    [done|]. rewrite bind_Ret.
  destruct (optionalStringColumn_returns columns row "name") as [n ->];
    [done|]. rewrite bind_Ret.
  destruct (int64Column_returns columns row "nb_cfg") as [v ->]; [done|].
  rewrite bind_Ret.
  destruct (int64Column_returns columns row "nb_cfg_timestamp") as [w ->];
    [done|]. rewrite bind_Ret. by eexists.
Qed.

Lemma privateRow_next columns row maps c :
  GetChassis_privateRow columns row maps = Ret c → ∃ maps', c = Next maps'.
Proof.
  unfold GetChassis_privateRow.
  intros (u & _ & (n & _ & (v & _ & (w & _ & H)%bind_inv)%bind_inv)%bind_inv)
           %bind_inv.
  injection H as <-. by eexists.
Qed.

Lemma index_inl result r :
  GetChassis_index result = Ret r → ∃ maps, r = inl maps.
Proof.
  unfold GetChassis_index. intros H.
  eapply (forRange_invariant (λ _, True)) in H as (maps & -> & _);
    [by eexists| |done].
  intros row maps c _ _ [maps' ->]%privateRow_next. by eexists.
Qed.

Lemma index_returns result :
  rowsWellTagged result ["chassis"; "name"; "nb_cfg"; "nb_cfg_timestamp"]
    = true →
  ∃ maps, GetChassis_index result = Ret (inl maps).
Proof.
  intros Hw. unfold rowsWellTagged in Hw. rewrite forallb_forall in Hw.
  destruct (forRange_returns (GetChassis_privateRow (Columns result))
              (Rows result) (∅, ∅)) as [r Hr].
  { intros row maps Hin. apply privateRow_returns, Hw.
    by apply list_elem_of_In. }
  destruct (index_inl _ _ Hr) as [maps ->]. by exists maps.
Qed.

Lemma resolve_key maps c :
  chassisKey (GetChassis_resolve maps c) = chassisKey c.
Proof. unfold GetChassis_resolve. by repeat case_match. Qed.

Lemma resolve_encap maps c :
  zeroEncap c → zeroEncap (GetChassis_resolve maps c).
Proof. unfold GetChassis_resolve, zeroEncap. by repeat case_match. Qed.

Lemma resolve_nbCfg maps c :
  zeroNbCfg c →
  NbCfg (GetChassis_resolve maps c) = byUUIDThenName maps.1 c
  ∧ NbCfgTimestamp (GetChassis_resolve maps c) = byUUIDThenName maps.2 c.
Proof.
  unfold GetChassis_resolve, byUUIDThenName. intros [H1 H2].
  repeat case_match; simplify_eq/=; done.
Qed.

Lemma resolve_by_uuid maps c v w :
  maps.1 !! UUID c = Some v → maps.2 !! UUID c = Some w →
  NbCfg (GetChassis_resolve maps c) = v
  ∧ NbCfgTimestamp (GetChassis_resolve maps c) = w.
Proof.
  intros H1 H2. unfold GetChassis_resolve. rewrite H1.
  cbn [UUID withNbCfg]. by rewrite H2.
Qed.

Lemma GetChassis_base_inv cli cs1 :
  GetChassis_base cli = Ret (inl cs1) →
  ∃ base, southbound cli queryChassis = inl base
    ∧ Forall (λ c, zeroEncap c ∧ zeroNbCfg c) cs1
    ∧ ∀ row u n e, row ∈ Rows base →
        baseRowDecodes (Columns base) row u n e →
        ∃ c, c ∈ cs1 ∧ chassisKey c = (u, n, e).
Proof.
  unfold GetChassis_base, southbound, queryChassis. cbv zeta.
  destruct (Transact _ _ _) as [base|]; [|done].
  destruct (decide _); [done|]. intros (cs & [= <-] & ? & ?)%base_loop.
  by exists base.
Qed.

Lemma GetChassis_encap_inv cli cs1 cs2 :
  Forall (λ c, zeroEncap c ∧ zeroNbCfg c) cs1 →
  GetChassis_encap cli cs1 = Ret (inl cs2) →
  ∃ encap, southbound cli queryEncap = inl encap
    ∧ afterEncap (Columns encap) (Rows encap) cs1 cs2.
Proof.
  unfold GetChassis_encap, southbound, queryEncap. cbv zeta. intros Hfresh.
  destruct (Transact _ _ _) as [encap|]; [|done].
  destruct (decide _); [done|].
  intros (cs & [= <-] & ?)%encap_loop; [|done]. by exists encap.
Qed.

Lemma rowsWellTagged_elem result cols row :
  rowsWellTagged result cols = true → row ∈ Rows result →
  forallb (cellWellTagged (Columns result) row) cols = true.
Proof.
  unfold rowsWellTagged. rewrite forallb_forall. intros Hw Hin.
  by apply Hw, list_elem_of_In.
Qed.

(** C1, as amended. When the Chassis query succeeds with at least one
    row and the Encap query succeeds with at least one row (whether or not
    a row matches a given chassis), and the decoded values agree with their
    type tags, GetChassis returns a chassis list and a nil error; every
    row of Chassis that decodes has its chassis in the list; and a chassis
    that no Encap row matches has a nil IP address and an empty
    protocol. *)
Theorem GetChassis_without_endpoint cli base encap :
  southbound cli queryChassis = inl base →
  southbound cli queryEncap = inl encap →
  0 < length (Rows base) →
  0 < length (Rows encap) →
  rowsWellTagged base ["_uuid"; "name"; "encaps"] = true →
  rowsWellTagged encap ["_uuid"; "type"; "chassis_name"; "ip"] = true →
  privateWellTagged cli = true →
  ∃ chassis,
    GetChassis cli = Ret (chassis, None)
    ∧ (∀ row u n e, row ∈ Rows base →
         baseRowDecodes (Columns base) row u n e →
         ∃ c, c ∈ chassis ∧ chassisKey c = (u, n, e))
    ∧ (∀ c, c ∈ chassis →
         (∀ row, row ∈ Rows encap → ¬ endpointFor (Columns encap) row c) →
         IPAddress c = [] ∧ Encaps_Proto c = "").
Proof.
  intros Hbase Hencap Hnb Hne Hwb Hwe Hwp.
  (* phase one *)
  destruct (forRange_returns (GetChassis_chassisRow (Columns base))
              (Rows base) []) as [r1 Hr1].
  { intros row cs Hin. by eapply chassisRow_returns, rowsWellTagged_elem. }
  destruct (base_loop _ _ _ _ Hr1) as (cs1 & -> & Hfresh & Hpresent).
  rewrite app_nil_l in Hr1.
  assert (GetChassis_base cli = Ret (inl cs1)) as Hphase1.
  { unfold GetChassis_base. cbv zeta.
    unfold southbound, queryChassis in Hbase. rewrite Hbase.
    destruct (decide _); [lia|done]. }
  (* phase two *)
  destruct (forRange_returns (GetChassis_encapRow (Columns encap))
              (Rows encap) cs1) as [r2 Hr2].
  { intros row cs Hin. by eapply encapRow_returns, rowsWellTagged_elem. }
  destruct (encap_loop _ _ _ _ Hfresh Hr2) as (cs2 & -> & Hkey & Hz & Hzero).
  assert (GetChassis_encap cli cs1 = Ret (inl cs2)) as Hphase2.
  { unfold GetChassis_encap. cbv zeta.
    unfold southbound, queryEncap in Hencap. rewrite Hencap.
    destruct (decide _); [lia|done]. }
  (* phase three *)
  assert (∃ maps, GetChassis_private cli cs2
                  = Ret (GetChassis_resolve maps <$> cs2, None)
                  ∨ GetChassis_private cli cs2 = Ret (cs2, None))
    as [maps Hphase3].
  { unfold GetChassis_private, privateWellTagged, southbound, queryPrivate
      in *. cbv zeta.
    destruct (Transact _ _ "SELECT chassis, name, nb_cfg, nb_cfg_timestamp FROM Chassis_Private")
      as [private|]; [|exists (∅, ∅); by right].
    destruct (index_returns _ Hwp) as [maps ->]. exists maps. by left. }
  assert (∀ c, c ∈ cs1 → ∃ c2, c2 ∈ cs2 ∧ chassisKey c2 = chassisKey c)
    as Hkept.
  { intros c (i & Hi)%list_elem_of_lookup_1.
    assert ((chassisKey <$> cs2) !! i = Some (chassisKey c)) as Hi2.
    { by rewrite Hkey, list_lookup_fmap, Hi. }
    apply list_lookup_fmap_Some in Hi2 as (c2 & ? & ?).
    exists c2. split; [|done]. by eapply list_elem_of_lookup_2. }
  unfold GetChassis. rewrite Hphase1, bind_Ret, Hphase2, bind_Ret.
  destruct Hphase3 as [-> | ->]; eexists; (split; [done|]); split.
  - intros row u n e Hin Hdec.
    destruct (Hpresent row u n e Hin Hdec) as (c & Hc & <-).
    destruct (Hkept c Hc) as (c2 & Hc2 & <-).
    exists (GetChassis_resolve maps c2). split; [|apply resolve_key].
    apply list_elem_of_fmap. by exists c2.
  - intros c' (c & -> & Hc)%list_elem_of_fmap Hnone.
    apply resolve_encap, Hzero; [done|].
    intros row Hin (p & ip & Hdec). apply (Hnone row Hin). exists p, ip.
    pose proof (resolve_key maps c) as [= Hu Hn He]. by rewrite Hn, He.
  - intros row u n e Hin Hdec.
    destruct (Hpresent row u n e Hin Hdec) as (c & Hc & <-).
    by apply Hkept.
  - intros c Hc Hnone. by apply Hzero.
Qed.

Lemma int64Column_numericCell columns row col v :
  (- 2 ^ 53 ≤ v ≤ 2 ^ 53)%Z →
  numericCell v (GetColumnValue row col columns) →
  int64Column row col columns = Ret v.
Proof.
  intros Hv. unfold int64Column, decodeInt64.
  intros [-> | [-> | [-> | ->]]]; repeat (destruct (decide _); try done).
  cbn [assert_float64]. by rewrite bind_Ret, float64_roundtrip.
Qed.

(** C5, as amended. For [v] and [w] of absolute value at most 2^53, a
    row of Chassis_Private whose nb_cfg cell carries [v] and whose
    nb_cfg_timestamp cell carries [w], each under any of the four numeric
    tags, decodes to [v] and [w], and these are the NbCfg and the
    NbCfgTimestamp of the chassis the row refers to. *)
Theorem GetChassis_numeric_tags columns row maps chassisUUID v w :
  (- 2 ^ 53 ≤ v ≤ 2 ^ 53)%Z →
  (- 2 ^ 53 ≤ w ≤ 2 ^ 53)%Z →
  numericCell v (GetColumnValue row "nb_cfg" columns) →
  numericCell w (GetColumnValue row "nb_cfg_timestamp" columns) →
  GetColumnValue row "chassis" columns = inl (VString chassisUUID, "string") →
  chassisUUID ≠ "" →
  cellWellTagged columns row "name" = true →
  int64Column row "nb_cfg" columns = Ret v
  ∧ int64Column row "nb_cfg_timestamp" columns = Ret w
  ∧ ∃ maps',
      GetChassis_privateRow columns row maps = Ret (Next maps')
      ∧ ∀ c, UUID c = chassisUUID →
          NbCfg (GetChassis_resolve maps' c) = v
          ∧ NbCfgTimestamp (GetChassis_resolve maps' c) = w.
Proof.
  intros Hv Hw Hcv Hcw Hu Hne Hname.
  pose proof (int64Column_numericCell _ _ _ _ Hv Hcv) as Hnb.
  pose proof (int64Column_numericCell _ _ _ _ Hw Hcw) as Hts.
  split; [done|]. split; [done|].
  unfold GetChassis_privateRow.
  assert (optionalStringColumn row "chassis" columns = Ret chassisUUID) as ->.
  { unfold optionalStringColumn. rewrite Hu. by destruct (decide _). }
  destruct (optionalStringColumn_returns _ _ _ Hname) as [n ->].
  rewrite !bind_Ret, Hnb, Hts, !bind_Ret.
  destruct (decide (chassisUUID = "")); [done|].
  eexists. split; [done|]. intros c <-.
  apply resolve_by_uuid; destruct (decide (n = "")); cbn [fst snd].
  all: rewrite !lookup_insert; by repeat case_decide.
Qed.

(** C6. When the Chassis_Private query returns an error, GetChassis
    returns the chassis list of phases one and two as it is, with a nil
    error; no chassis of phase one is missing, and NbCfg and NbCfgTimestamp
    are zero in every chassis. *)
Theorem GetChassis_private_error cli cs1 cs2 err :
  GetChassis_base cli = Ret (inl cs1) →
  GetChassis_encap cli cs1 = Ret (inl cs2) →
  southbound cli queryPrivate = inr err →
  GetChassis cli = Ret (cs2, None)
  ∧ chassisKey <$> cs2 = chassisKey <$> cs1
  ∧ Forall (λ c, NbCfg c = 0%Z ∧ NbCfgTimestamp c = 0%Z) cs2.
Proof.
  intros Hbase Hencap Hprivate.
  destruct (GetChassis_base_inv _ _ Hbase) as (base & _ & Hfresh & _).
  destruct (GetChassis_encap_inv _ _ _ Hfresh Hencap)
    as (encap & _ & Hkey & Hz & _).
  split; [|done].
  unfold GetChassis. rewrite Hbase, bind_Ret, Hencap, bind_Ret.
  unfold GetChassis_private. cbv zeta.
  unfold southbound, queryPrivate in Hprivate. by rewrite Hprivate.
Qed.

Lemma privateRow_record columns row maps c :
  GetChassis_privateRow columns row maps = Ret c →
  ∃ u n v w,
    privateRecord columns row = Ret (u, n, v, w)
    ∧ c = Next
        (let maps :=
           if decide (u = "") then maps
           else (<[u := v]> maps.1, <[u := w]> maps.2) in
         if decide (n = "") then maps
         else (<[n := v]> maps.1, <[n := w]> maps.2)).
Proof.
  unfold GetChassis_privateRow, privateRecord.
  intros (u & Hu & (n & Hn & (v & Hv & (w & Hw & H)%bind_inv)%bind_inv)
            %bind_inv)%bind_inv.
  injection H as <-. exists u, n, v, w.
  by rewrite Hu, Hn, Hv, Hw, !bind_Ret.
Qed.

(** The maps the loop over the rows builds are the index of the design
    document: under every key, both maps hold what the last row with that
    chassis reference or that name carries. *)
Lemma index_loop columns rows (maps0 maps : gmap string Z * gmap string Z) :
  forRange (GetChassis_privateRow columns) rows maps0 = Ret (inl maps) →
  ∀ key,
    maps.1 !! key
    = match privateIndex_spec columns rows key with
      | Some r => Some r.1
      | None => maps0.1 !! key
      end
    ∧ maps.2 !! key
      = match privateIndex_spec columns rows key with
        | Some r => Some r.2
        | None => maps0.2 !! key
        end.
Proof.
  revert maps0. induction rows as [|row rows IH]; intros maps0;
    cbn [forRange privateIndex_spec].
  - intros H. by injection H as <-.
  - intros (c & Hc & H)%bind_inv key.
    apply privateRow_record in Hc as (u & n & v & w & Hrec & ->).
    cbv zeta in H. destruct (IH _ H key) as [-> ->]. rewrite Hrec.
    destruct (privateIndex_spec columns rows key) as [later|]; [done|].
    destruct (decide (key ≠ "" ∧ (u = key ∨ n = key))) as [[Hk Hm]|Hno].
    + destruct (decide (n = key)) as [->|Hn].
      * destruct (decide (key = "")); [done|]. cbn [fst snd].
        by rewrite !lookup_insert_eq.
      * destruct Hm as [->|?]; [|done].
        destruct (decide (key = "")); [done|].
        destruct (decide (n = "")); cbn [fst snd];
          by rewrite ?(lookup_insert_ne _ n) by done;
             rewrite !lookup_insert_eq.
    + assert (u = "" ∨ u ≠ key) as Hu.
      { destruct (decide (u = "")); [by left|right]. intros ->.
        apply Hno. by split; [|left]. }
      assert (n = "" ∨ n ≠ key) as Hn.
      { destruct (decide (n = "")); [by left|right]. intros ->.
        apply Hno. by split; [|right]. }
      destruct (decide (u = "")), (decide (n = "")); cbn [fst snd];
        rewrite ?lookup_insert_ne; naive_solver.
Qed.

Lemma optionalStringColumn_cell columns row col key :
  GetColumnValue row col columns = inl (VString key, "string") →
  optionalStringColumn row col columns = Ret key.
Proof.
  unfold optionalStringColumn. intros ->. by destruct (decide _).
Qed.

Lemma optionalStringColumn_key columns row col key :
  optionalStringColumn row col columns = Ret key → key ≠ "" →
  GetColumnValue row col columns = inl (VString key, "string").
Proof.
  unfold optionalStringColumn.
  destruct (GetColumnValue row col columns) as [[r dt]|].
  - destruct (decide (dt = "string")) as [->|].
    + destruct r; try done. by intros [= ->].
    + by intros [= <-].
  - by intros [= <-].
Qed.

Lemma privateIndex_spec_none columns rows key :
  (∀ row, row ∈ rows → ¬ keyedBy columns row key) →
  privateIndex_spec columns rows key = None.
Proof.
  induction rows as [|row rows IH]; intros Hnone; [done|].
  cbn [privateIndex_spec]. rewrite IH.
  2:{ intros row' Hin. apply Hnone. by right. }
  destruct (privateRecord columns row) as [[[[u n] v] w]|] eqn:Hrec; [|done].
  destruct (decide _) as [[Hk Hm]|]; [|done].
  destruct (Hnone row); [left|].
  revert Hrec. unfold privateRecord.
  intros (u' & Hu & (n' & Hn & (v' & _ & (w' & _ & H)%bind_inv)%bind_inv)
            %bind_inv)%bind_inv.
  injection H as -> -> _ _.
  destruct Hm as [->| ->]; [left|right]; by apply optionalStringColumn_key.
Qed.

Lemma privateIndex_spec_app columns before after key :
  privateIndex_spec columns (before ++ after) key
  = match privateIndex_spec columns after key with
    | Some later => Some later
    | None => privateIndex_spec columns before key
    end.
Proof.
  induction before as [|row before IH]; cbn [app privateIndex_spec].
  - by destruct (privateIndex_spec columns after key).
  - rewrite IH. by destruct (privateIndex_spec columns after key).
Qed.

Lemma privateIndex_spec_last columns before row after key v w :
  forallb (cellWellTagged columns row) ["chassis"; "name"] = true →
  keyedBy columns row key → key ≠ "" →
  (- 2 ^ 53 ≤ v ≤ 2 ^ 53)%Z →
  (- 2 ^ 53 ≤ w ≤ 2 ^ 53)%Z →
  numericCell v (GetColumnValue row "nb_cfg" columns) →
  numericCell w (GetColumnValue row "nb_cfg_timestamp" columns) →
  (∀ row', row' ∈ after → ¬ keyedBy columns row' key) →
  privateIndex_spec columns (before ++ row :: after) key = Some (v, w).
Proof.
  intros Hw Hkey Hne Hv Hw' Hcv Hcw Hnone.
  cbn in Hw. repeat (apply andb_prop in Hw as [? Hw]).
  rewrite privateIndex_spec_app. cbn [privateIndex_spec].
  rewrite (privateIndex_spec_none _ after) by done.
  destruct (optionalStringColumn_returns columns row "chassis") as [u Hu];
    [done|].
  destruct (optionalStringColumn_returns columns row "name") as [n Hn];
    [done|].
  unfold privateRecord.
  rewrite Hu, Hn, !bind_Ret.
  rewrite (int64Column_numericCell _ _ _ v Hv Hcv), bind_Ret.
  rewrite (int64Column_numericCell _ _ _ w Hw' Hcw), bind_Ret.
  destruct (decide _) as [|Hno]; [done|]. destruct Hno. split; [done|].
  destruct Hkey as [Hc|Hc]; apply optionalStringColumn_cell in Hc;
    [left|right]; congruence.
Qed.

Lemma resolveIn_maps (m : gmap string Z) index c :
  (∀ key, m !! key = index key) →
  byUUIDThenName m c = resolveIn index c.
Proof.
  intros H. unfold byUUIDThenName, resolveIn. by rewrite !H.
Qed.

(** C7. GetChassis gives every chassis of phase one, in order, the values
    of the private table: NbCfg is the nb_cfg indexed under the UUID of the
    chassis if a record is indexed under it, else the nb_cfg indexed under
    its name if there is one, else zero, and NbCfgTimestamp is found the
    same way on its own, where a record is indexed under both its chassis
    reference and its name and the last record under a key counts. On the
    cells of the rows: a chassis whose UUID a row carries, as chassis
    reference or as name, has the two values of the last such row; a
    chassis whose UUID no row carries and whose name a row carries has the
    two values of the last row with its name, so a record keyed by name
    only resolves to its chassis; a chassis that no row carries has zero
    for both. *)
Theorem GetChassis_private_resolution cli cs1 cs2 private :
  GetChassis_base cli = Ret (inl cs1) →
  GetChassis_encap cli cs1 = Ret (inl cs2) →
  southbound cli queryPrivate = inl private →
  rowsWellTagged private ["chassis"; "name"; "nb_cfg"; "nb_cfg_timestamp"]
    = true →
  ∃ chassis,
    GetChassis cli = Ret (chassis, None)
    ∧ chassisKey <$> chassis = chassisKey <$> cs1
    ∧ (∀ i c', chassis !! i = Some c' →
         NbCfg c'
         = resolveIn
             (λ key, fst <$> privateIndex_spec (Columns private)
                               (Rows private) key) c'
         ∧ NbCfgTimestamp c'
           = resolveIn
               (λ key, snd <$> privateIndex_spec (Columns private)
                                 (Rows private) key) c')
    ∧ (∀ i c' before row after v w,
         chassis !! i = Some c' →
         Rows private = before ++ row :: after →
         (- 2 ^ 53 ≤ v ≤ 2 ^ 53)%Z →
         (- 2 ^ 53 ≤ w ≤ 2 ^ 53)%Z →
         numericCell v (GetColumnValue row "nb_cfg" (Columns private)) →
         numericCell w
           (GetColumnValue row "nb_cfg_timestamp" (Columns private)) →
         (UUID c' ≠ ""
          ∧ keyedBy (Columns private) row (UUID c')
          ∧ ∀ row', row' ∈ after →
              ¬ keyedBy (Columns private) row' (UUID c'))
         ∨ ((∀ row', row' ∈ Rows private →
               ¬ keyedBy (Columns private) row' (UUID c'))
            ∧ Name c' ≠ ""
            ∧ keyedBy (Columns private) row (Name c')
            ∧ ∀ row', row' ∈ after →
                ¬ keyedBy (Columns private) row' (Name c')) →
         NbCfg c' = v ∧ NbCfgTimestamp c' = w)
    ∧ (∀ i c',
         chassis !! i = Some c' →
         (∀ row, row ∈ Rows private →
            ¬ keyedBy (Columns private) row (UUID c')
            ∧ ¬ keyedBy (Columns private) row (Name c')) →
         NbCfg c' = 0%Z ∧ NbCfgTimestamp c' = 0%Z).
Proof.
  intros Hbase Hencap Hprivate Htagged.
  destruct (index_returns _ Htagged) as [maps Hindex].
  destruct (GetChassis_base_inv _ _ Hbase) as (base & _ & Hfresh & _).
  destruct (GetChassis_encap_inv _ _ _ Hfresh Hencap)
    as (encap & _ & Hkey & Hz & _).
  pose proof (index_loop _ _ _ _ Hindex) as Hmaps. cbn [fst snd] in Hmaps.
  assert (∀ i c', (GetChassis_resolve maps <$> cs2) !! i = Some c' →
    NbCfg c'
    = resolveIn
        (λ key, fst <$> privateIndex_spec (Columns private)
                          (Rows private) key) c'
    ∧ NbCfgTimestamp c'
      = resolveIn
          (λ key, snd <$> privateIndex_spec (Columns private)
                            (Rows private) key) c') as Hres.
  { intros i c' (c & -> & Hc)%list_lookup_fmap_Some.
    rewrite Forall_lookup in Hz.
    destruct (resolve_nbCfg maps c (Hz i c Hc)) as [-> ->].
    pose proof (resolve_key maps c) as [= Hu Hn _].
    assert (∀ m c1 c2, UUID c1 = UUID c2 → Name c1 = Name c2 →
              byUUIDThenName m c1 = byUUIDThenName m c2) as Hsame.
    { intros m c1 c2 H1 H2. unfold byUUIDThenName. by rewrite H1, H2. }
    rewrite (Hsame maps.1 c (GetChassis_resolve maps c)),
      (Hsame maps.2 c (GetChassis_resolve maps c)) by done.
    split; apply resolveIn_maps; intros key;
      destruct (Hmaps key) as [H1 H2]; rewrite ?H1, ?H2, ?lookup_empty;
      by destruct (privateIndex_spec _ _ key). }
  exists (GetChassis_resolve maps <$> cs2).
  split; [|split; [|split; [done|split]]].
  - unfold GetChassis. rewrite Hbase, bind_Ret, Hencap, bind_Ret.
    unfold GetChassis_private. cbv zeta.
    unfold southbound, queryPrivate in Hprivate.
    by rewrite Hprivate, Hindex, bind_Ret.
  - rewrite <- Hkey, <- list_fmap_compose. apply list_fmap_ext.
    intros ? c _. apply resolve_key.
  - intros i c' before row after v w Hi Hrows Hv Hw Hcv Hcw Hcase.
    destruct (Hres i c' Hi) as [-> ->]. unfold resolveIn.
    assert (forallb (cellWellTagged (Columns private) row)
              ["chassis"; "name"] = true) as Hwt.
    { assert (row ∈ Rows private) as Hin.
      { rewrite Hrows. apply elem_of_app. right. left. }
      pose proof (rowsWellTagged_elem _ _ _ Htagged Hin) as Hall.
      cbn in Hall |- *. repeat (apply andb_prop in Hall as [? Hall]).
      by repeat (apply andb_true_intro; split). }
    destruct Hcase as [(Hne & Hk & Hlast)|(Hnone & Hne & Hk & Hlast)].
    + rewrite Hrows,
        (privateIndex_spec_last _ before row after (UUID c') v w) by done.
      done.
    + rewrite (privateIndex_spec_none _ (Rows private) (UUID c')) by done.
      rewrite Hrows,
        (privateIndex_spec_last _ before row after (Name c') v w) by done.
      done.
  - intros i c' Hi Hnone. destruct (Hres i c' Hi) as [-> ->].
    unfold resolveIn.
    rewrite !privateIndex_spec_none; [done|intros row Hin; by apply Hnone..].
Qed.

End GetChassis.

(** ** MapPortToChassis *)

Lemma MapPortToChassis_port_step portMap p h switchMap lsp vtep c :
  portAt h !! p = Some lsp →
  portMap !! lsp_ChassisUUID lsp = Some vtep →
  chassisAt h !! vtep = Some c →
  MapPortToChassis_port portMap p (h, switchMap)
  = Ret (Next
      match switchMap !! lsp_LogicalSwitchUUID lsp with
      | Some _ =>
        ({| chassisAt :=
              <[vtep := withPorts (Ports c ++ [lsp_UUID lsp]) c]> (chassisAt h);
            portAt := <[p := annotate c lsp]> (portAt h) |}, switchMap)
      | None =>
        ({| chassisAt :=
              <[vtep := withSwitches
                          (Switches c ++ [lsp_LogicalSwitchUUID lsp])
                          (withPorts (Ports c ++ [lsp_UUID lsp]) c)]>
                (chassisAt h);
            portAt := <[p := annotate c lsp]> (portAt h) |},
         <[lsp_LogicalSwitchUUID lsp := true]> switchMap)
      end).
Proof.
  intros Hp Hm Hc. unfold MapPortToChassis_port. cbv beta iota zeta.
  unfold loadPort, loadChassis, storePort, storeChassis.
  cbn [chassisAt portAt].
  rewrite Hp, bind_Ret, Hm, Hc, !bind_Ret.
  destruct (switchMap !! lsp_LogicalSwitchUUID lsp); [done|].
  by rewrite lookup_insert_eq, bind_Ret, insert_insert_eq.
Qed.

(** C8, as amended. MapPortToChassis on two ports that refer to the same
    chassis UUID, present in the lookup, and to the same logical switch:
    afterwards the Switches of that chassis are those it had before the
    call with the switch UUID appended once, and its Ports those it had
    with the UUIDs of both ports appended. The switch UUID therefore occurs
    exactly once when the chassis did not list it before the call (as for
    the chassis GetChassis builds), and both port UUIDs occur in Ports. *)
Theorem MapPortToChassis_two_ports vteps h portMap vtep c p1 p2 port1 port2 :
  MapPortToChassis_portMap vteps h = Ret (inl portMap) →
  portMap !! lsp_ChassisUUID port1 = Some vtep →
  chassisAt h !! vtep = Some c →
  portAt h !! p1 = Some port1 →
  portAt h !! p2 = Some port2 →
  lsp_ChassisUUID port2 = lsp_ChassisUUID port1 →
  lsp_LogicalSwitchUUID port2 = lsp_LogicalSwitchUUID port1 →
  ∃ h' c',
    MapPortToChassis vteps [p1; p2] h = Ret h'
    ∧ chassisAt h' !! vtep = Some c'
    ∧ Switches c' = Switches c ++ [lsp_LogicalSwitchUUID port1]
    ∧ Ports c' = Ports c ++ [lsp_UUID port1; lsp_UUID port2]
    ∧ (lsp_LogicalSwitchUUID port1 ∉ Switches c →
       length (filter (λ s, s = lsp_LogicalSwitchUUID port1) (Switches c'))
       = 1)
    ∧ lsp_UUID port1 ∈ Ports c' ∧ lsp_UUID port2 ∈ Ports c'.
Proof.
  intros Hpm Hvtep Hc Hp1 Hp2 Hcu Hsw.
  unfold MapPortToChassis. rewrite Hpm, bind_Ret. cbn [forRange].
  rewrite (MapPortToChassis_port_step _ _ _ _ port1 vtep c) by done.
  rewrite lookup_empty, bind_Ret.
  set (c1 := withSwitches _ _).
  assert (∃ port2',
    <[p1 := annotate c port1]> (portAt h) !! p2 = Some port2'
    ∧ lsp_UUID port2' = lsp_UUID port2
    ∧ lsp_ChassisUUID port2' = lsp_ChassisUUID port1
    ∧ lsp_LogicalSwitchUUID port2' = lsp_LogicalSwitchUUID port1)
    as (port2' & Hp2' & Hid & Hcu' & Hsw').
  { destruct (decide (p1 = p2)) as [->|?].
    - exists (annotate c port1). rewrite lookup_insert_eq.
      by simplify_eq.
    - exists port2. by rewrite lookup_insert_ne. }
  rewrite (MapPortToChassis_port_step _ _ _ _ port2' vtep c1);
    [|done|by rewrite Hcu'|cbn [chassisAt]; by rewrite lookup_insert_eq].
  rewrite Hsw', lookup_insert_eq, bind_Ret.
  eexists _, _. split; [done|]. cbn [chassisAt].
  split; [by rewrite lookup_insert_eq|].
  cbn [Switches Ports withPorts withSwitches c1]. rewrite Hid.
  split; [done|]. split; [by rewrite <- app_assoc|]. split; [|split].
  - intros Hfresh. rewrite filter_app, length_app, filter_absent by done.
    by rewrite filter_cons_True.
  - set_solver.
  - set_solver.
Qed.

(** ** Concrete runs of the chassis code *)

(** C1, as stated, fails. The Chassis query returns two rows that decode,
    the Encap query succeeds with zero rows, and GetChassis returns no
    chassis and the error of line 392. *)
Lemma GetChassis_empty_encap_fails :
  let cli :=
    tableOvnClient (twoChassis ++ [(queryEncap, inl (tableResult []))]) in
  (∃ base, southbound cli queryChassis = inl base
           ∧ mkChassisRow "uuid-1" "ch-1" "encap-1" ∈ Rows base
           ∧ baseRowDecodes (Columns base)
               (mkChassisRow "uuid-1" "ch-1" "encap-1")
               "uuid-1" "ch-1" "encap-1")
  ∧ southbound cli queryEncap = inl (tableResult [])
  ∧ GetChassis (G := testRuntime) cli
    = Ret ([], Some "OVN_Southbound: no chassis found").
Proof.
  split; [eexists; split; [reflexivity|split; [left|by repeat split]]|].
  split; [reflexivity|]. vm_compute. reflexivity.
Qed.

Lemma GetChassis_without_endpoint_witness :
  ∃ chassis,
    GetChassis (G := testRuntime) (tableOvnClient joinedDB)
      = Ret (chassis, None)
    ∧ (∃ c, c ∈ chassis ∧ chassisKey c = ("uuid-2", "ch-2", "encap-2")
            ∧ IPAddress c = [] ∧ Encaps_Proto c = "").
Proof.
  destruct (GetChassis_without_endpoint (D := tableDecoder) (G := testRuntime)
              (tableOvnClient joinedDB)
              (tableResult [mkChassisRow "uuid-1" "ch-1" "encap-1";
                            mkChassisRow "uuid-2" "ch-2" "encap-2"])
              (tableResult [mkEncapRow "encap-1" "geneve" "ch-1" "10.0.0.1"]))
    as (chassis & Hrun & Hpresent & Hzero).
  - reflexivity.
  - reflexivity.
  - simpl. lia.
  - simpl. lia.
  - reflexivity.
  - reflexivity.
  - reflexivity.
  - exists chassis. split; [exact Hrun|].
    destruct (Hpresent (mkChassisRow "uuid-2" "ch-2" "encap-2")
                "uuid-2" "ch-2" "encap-2") as (c & Hc & Hkey).
    + right. left.
    + by repeat split.
    + exists c. split; [done|]. split; [done|]. apply Hzero; [done|].
      intros row ->%list_elem_of_singleton (p & ip & Hu & _).
      injection Hkey as _ _ He. rewrite He in Hu. discriminate Hu.
Defined.

(** C5, as stated, fails at v = 2^53 + 1, a 64-bit integer: under the tag
    int64 the nb_cfg cell decodes to v, under the tag float64 the cell
    carries float64(v) = 2^53 and decodes to 2^53. *)
Lemma GetChassis_float_tag_loses_precision :
  let v := (2 ^ 53 + 1)%Z in
  is_int64 v
  ∧ int64Column (D := tableDecoder) (G := testRuntime)
      (mkPrivateRow "uuid-1" "ch-1" (VInt64 v, "int64") (VInt64 v, "int64"))
      "nb_cfg" () = Ret v
  ∧ float64_of_int64 v = S754_finite false (2 ^ 52) 1
  ∧ int64Column (D := tableDecoder) (G := testRuntime)
      (mkPrivateRow "uuid-1" "ch-1"
         (VFloat64 (float64_of_int64 v), "float64") (VInt64 v, "int64"))
      "nb_cfg" () = Ret (2 ^ 53)%Z
  ∧ (2 ^ 53)%Z ≠ v.
Proof.
  split; [unfold is_int64, int64_min, int64_max; lia|].
  split; [reflexivity|]. split; [vm_compute; reflexivity|].
  split; [vm_compute; reflexivity|]. lia.
Qed.

Lemma GetChassis_numeric_tags_witness :
  int64Column (D := tableDecoder) (G := testRuntime)
    (mkPrivateRow "uuid-1" "ch-1" (VFloat64 (float64_of_int64 42), "float64")
       (VInt 1700000000, "int"))
    "nb_cfg" () = Ret 42%Z
  ∧ int64Column (D := tableDecoder) (G := testRuntime)
    (mkPrivateRow "uuid-1" "ch-1" (VFloat64 (float64_of_int64 42), "float64")
       (VInt 1700000000, "int"))
    "nb_cfg_timestamp" () = Ret 1700000000%Z.
Proof.
  destruct (GetChassis_numeric_tags (D := tableDecoder) (G := testRuntime) ()
              (mkPrivateRow "uuid-1" "ch-1"
                 (VFloat64 (float64_of_int64 42), "float64")
                 (VInt 1700000000, "int"))
              (∅, ∅) "uuid-1" 42 1700000000) as (Hv & Hw & _).
  - lia.
  - lia.
  - right. right. left. reflexivity.
  - right. right. right. reflexivity.
  - reflexivity.
  - discriminate.
  - reflexivity.
  - split; [exact Hv|exact Hw].
Defined.

Lemma GetChassis_private_error_witness :
  GetChassis (G := testRuntime) (tableOvnClient joinedDB)
    = Ret ([chassis1; chassis2], None)
  ∧ Forall (λ c, NbCfg c = 0%Z ∧ NbCfgTimestamp c = 0%Z) [chassis1; chassis2].
Proof.
  destruct (GetChassis_private_error (D := tableDecoder) (G := testRuntime)
              (tableOvnClient joinedDB) [fresh1; chassis2]
              [chassis1; chassis2] "connection refused")
    as (Hrun & _ & Hzero).
  - vm_compute. reflexivity.
  - vm_compute. reflexivity.
  - reflexivity.
  - split; [exact Hrun|exact Hzero].
Defined.

(** The record of chassis 1 carries its chassis reference and the record
    of chassis 2 its name only, no chassis reference: chassis 1 has the
    values of its record, and chassis 2 gets the values of its record
    through the name lookup. *)
Lemma GetChassis_private_resolution_witness :
  ∃ c1 c2,
    GetChassis (G := testRuntime) (tableOvnClient enrichedDB)
    = Ret ([c1; c2], None)
    ∧ (UUID c1 = "uuid-1" ∧ Name c1 = "ch-1")
    ∧ (UUID c2 = "uuid-2" ∧ Name c2 = "ch-2")
    ∧ (NbCfg c1 = 7%Z ∧ NbCfgTimestamp c1 = 1700%Z)
    ∧ (NbCfg c2 = 9%Z ∧ NbCfgTimestamp c2 = 1900%Z).
Proof.
  destruct (GetChassis_private_resolution (D := tableDecoder)
              (G := testRuntime) (tableOvnClient enrichedDB)
              [fresh1; chassis2] [chassis1; chassis2] privateResult)
    as (chassis & Hrun & Hkey & Hres & Hrow & _).
  - vm_compute. reflexivity.
  - vm_compute. reflexivity.
  - reflexivity.
  - reflexivity.
  - destruct chassis as [|c1 [|c2 [|c3 chassis]]]; try discriminate Hkey.
    injection Hkey as Hu1 Hn1 _ Hu2 Hn2 _.
    exists c1, c2. split; [exact Hrun|].
    split; [exact (conj Hu1 Hn1)|]. split; [exact (conj Hu2 Hn2)|].
    split.
    + pose proof (Hres 0 c1 eq_refl) as H1. unfold resolveIn in H1.
      rewrite Hu1, Hn1 in H1. exact H1.
    + apply (Hrow 1 c2
               [mkPrivateRow "uuid-1" "ch-1" (VInt64 7, "integer")
                  (VInt64 1700, "integer")]
               [("name", (VString "ch-2", "string"));
                ("nb_cfg", (VInt64 9, "int64"));
                ("nb_cfg_timestamp", (VInt64 1900, "int64"))] []);
        [reflexivity|reflexivity|lia|lia|by left|by left|].
      right. rewrite Hu2, Hn2. split; [|split; [done|split]].
      * intros row' Hin [Hc|Hc]; apply list_elem_of_In in Hin;
          destruct Hin as [<-|[<-|[]]]; discriminate Hc.
      * by right.
      * intros row' Hin. by apply elem_of_nil in Hin.
Defined.

Lemma MapPortToChassis_two_ports_witness :
  ∃ h' c',
    MapPortToChassis [1%positive; 2%positive] [1%positive; 2%positive] heap0
      = Ret h'
    ∧ chassisAt h' !! 1%positive = Some c'
    ∧ Switches c' = ["sw-1"]
    ∧ Ports c' = ["port-a"; "port-b"].
Proof.
  destruct (MapPortToChassis_two_ports [1%positive; 2%positive] heap0
              (<["uuid-2" := 2%positive]> (<["uuid-1" := 1%positive]> ∅))
              1%positive chassis1 1%positive 2%positive
              (mkPort "port-a" "uuid-1" "sw-1")
              (mkPort "port-b" "uuid-1" "sw-1"))
    as (h' & c' & Hrun & Hc' & Hsw & Hports & _).
  - vm_compute. reflexivity.
  - vm_compute. reflexivity.
  - vm_compute. reflexivity.
  - vm_compute. reflexivity.
  - vm_compute. reflexivity.
  - reflexivity.
  - reflexivity.
  - exists h', c'. split; [exact Hrun|]. split; [exact Hc'|].
    split; [exact Hsw|exact Hports].
Defined.

(** C8, as stated, fails on a chassis that lists the switch already (the
    chassis of an earlier call, say): the auxiliary set of the call is
    empty at the first port, the switch UUID is appended again, and it
    occurs twice. *)
Lemma MapPortToChassis_switch_twice :
  ∃ h' c',
    portAt heap1 !! 1%positive = Some (mkPort "port-a" "uuid-1" "sw-1")
    ∧ portAt heap1 !! 2%positive = Some (mkPort "port-b" "uuid-1" "sw-1")
    ∧ MapPortToChassis [1%positive; 2%positive] [1%positive; 2%positive] heap1
      = Ret h'
    ∧ chassisAt h' !! 1%positive = Some c'
    ∧ UUID c' = "uuid-1"
    ∧ Switches c' = ["sw-1"; "sw-1"]
    ∧ length (filter (λ s, s = "sw-1") (Switches c')) = 2.
Proof.
  eexists _, _. split; [vm_compute; reflexivity|].
  split; [vm_compute; reflexivity|].
  split; [vm_compute; reflexivity|].
  split; [vm_compute; reflexivity|].
  split; [reflexivity|]. split; reflexivity.
Qed.

(** * Further properties of the code *)

(** ** getSystemID *)

Section GetSystemID_fallback.
Context `{D : Decoder}.
Variable host : Host.

Lemma getSystemID_database_silent client dbName dbErr :
  noDatabaseIdentity client dbName dbErr ↔
  getSystemID_database client dbName = Ret (inr dbErr).
Proof.
  split.
  - unfold getSystemID_database.
    destruct 1 as [dbName|c|c dbName err Hn Hq|c dbName result Hn Hq Hr
                  |c dbName result row rest err Hn Hq Hr Hc
                  |c dbName result row rest rowData dataType Hn Hq Hr Hc Hdt
                  |c dbName result row rest m Hn Hq Hr Hc Hid];
      try done; destruct (decide (dbName = "")); try done; cbv zeta;
      rewrite Hq; try done; rewrite Hr; try done; rewrite Hc; try done.
    + by destruct (decide (dataType = _)).
    + destruct (decide _); [|done]. cbn [assert_map]. rewrite bind_Ret.
      destruct Hid as [-> | ->]; [done|]. by destruct (decide _).
  - unfold getSystemID_database.
    destruct client as [c|]; [|intros [= <-]; constructor].
    destruct (decide (dbName = "")) as [->|Hn]; [intros [= <-]; constructor|].
    cbv zeta.
    destruct (Transact c dbName _) as [result|err] eqn:Hq;
      [|intros [= <-]; by constructor].
    destruct (Rows result) as [|row rest] eqn:Hr;
      [intros [= <-]; by econstructor|].
    destruct (GetColumnValue row _ _) as [[rowData dataType]|err] eqn:Hc;
      [|intros [= <-]; by econstructor].
    destruct (decide (dataType = _)) as [->|Hdt];
      [|intros [= <-]; by eapply otherDataType].
    destruct rowData; try done. cbn [assert_map]. rewrite bind_Ret.
    destruct (m !! "system-id") as [id|] eqn:Hid;
      [|intros [= <-]; eapply noSystemID; eauto].
    destruct (decide (id = "")) as [->|];
      [intros [= <-]; eapply noSystemID; eauto|].
    cbv zeta. by destruct (253 <? _).
Qed.

(** The database comes first: when the first row of the external_ids
    query carries a system-id that is not empty and has at most 253 bytes,
    getSystemID returns it with a nil error, on every host and for every
    path: the identity file is not read. *)
Theorem getSystemID_prefers_database (c : Client) dbName filepath result row
    rest externalIDs systemID :
  dbName ≠ "" →
  Transact c dbName ("SELECT external_ids FROM " +:+ dbName) = inl result →
  Rows result = row :: rest →
  GetColumnValue row "external_ids" (Columns result)
    = inl (VMap externalIDs, "map[string]string") →
  externalIDs !! "system-id" = Some systemID →
  systemID ≠ "" →
  String.length systemID ≤ 253 →
  getSystemID host (Some c) dbName filepath = Ret (systemID, None).
Proof.
  intros Hn Hq Hr Hc Hid Hne Hlen. unfold getSystemID, getSystemID_database.
  destruct (decide (dbName = "")); [done|]. cbv zeta.
  rewrite Hq, Hr, Hc. destruct (decide _); [|done].
  cbn [assert_map]. rewrite bind_Ret, Hid.
  destruct (decide (systemID = "")); [done|]. cbv zeta.
  by rewrite (proj2 (Nat.ltb_ge _ _) Hlen).
Qed.

(** The file comes second: when the database attempt ends without an
    identity, for whichever reason, and the identity file opens and scans
    without error, getSystemID returns the first line of the file with a
    nil error if it has at most 253 bytes. The error of a failed query is
    then dropped, and a file without a line gives the empty identity with
    a nil error. *)
Theorem getSystemID_falls_back_to_file client dbName filepath dbErr line :
  noDatabaseIdentity client dbName dbErr →
  readFirstLine host filepath = Scanned line None →
  String.length (default "" line) ≤ 253 →
  getSystemID host client dbName filepath = Ret (default "" line, None).
Proof.
  intros Hdb%getSystemID_database_silent Hf Hlen.
  unfold getSystemID. rewrite Hdb, bind_Ret.
  unfold getSystemID_file. rewrite Hf. cbv zeta.
  by rewrite (proj2 (Nat.ltb_ge _ _) Hlen).
Qed.

(** getSystemID panics in one case only: the decoder hands out the
    external_ids cell of the first row under the tag of a string map with
    a value that is no string map, and the type assertion of line 71
    fails. *)
Theorem getSystemID_panics_iff client dbName filepath :
  getSystemID host client dbName filepath = Panic
  ↔ illTaggedExternalIDs client dbName.
Proof.
  unfold getSystemID, illTaggedExternalIDs. split.
  - destruct (getSystemID_database client dbName) as [[?|?]|] eqn:Hdb;
      [done..|]. intros _. revert Hdb. unfold getSystemID_database.
    destruct client as [c|]; [|done].
    destruct (decide (dbName = "")) as [->|Hn]; [done|]. cbv zeta.
    destruct (Transact c dbName _) as [result|err] eqn:Hq; [|done].
    destruct (Rows result) as [|row rest] eqn:Hr; [done|].
    destruct (GetColumnValue row _ _) as [[rowData dataType]|err] eqn:Hc;
      [|done].
    destruct (decide (dataType = _)) as [->|Hdt]; [|done].
    intros Hp. exists c, result, row, rest, rowData.
    repeat (split; [done|]). intros m ->. revert Hp.
    cbn [assert_map]. rewrite bind_Ret.
    destruct (m !! "system-id") as [id|]; [|done].
    destruct (decide _); [done|]. cbv zeta. by destruct (253 <? _).
  - intros (c & result & row & rest & rowData & -> & Hn & Hq & Hr & Hc & Hno).
    unfold getSystemID_database.
    destruct (decide (dbName = "")); [done|]. cbv zeta.
    rewrite Hq, Hr, Hc. destruct (decide _); [|done].
    destruct rowData; try done. by destruct (Hno m).
Qed.

(** The identity that comes with an error of getSystemID is empty,
    except for the identity of more than 253 bytes, which comes back with
    the too-long error. *)
Theorem getSystemID_error_identity client dbName filepath systemID err :
  getSystemID host client dbName filepath = Ret (systemID, Some err) →
  systemID = ""
  ∨ (253 < String.length systemID
     ∧ err = errSystemIDTooLong (String.length systemID)).
Proof.
  unfold getSystemID.
  destruct (getSystemID_database client dbName) as [[[id e]|dbErr]|] eqn:Hdb;
    rewrite ?bind_Ret; [| |done].
  - intros [= -> ->]. right. revert Hdb. unfold getSystemID_database.
    destruct client as [c|]; [|done].
    destruct (decide (dbName = "")); [done|]. cbv zeta.
    destruct (Transact c dbName _) as [result|]; [|done].
    destruct (Rows result) as [|row rest]; [done|].
    destruct (GetColumnValue row _ _) as [[rowData dataType]|]; [|done].
    destruct (decide (dataType = _)); [|done].
    destruct rowData; try done. cbn [assert_map]. rewrite bind_Ret.
    destruct (m !! "system-id") as [id|]; [|done].
    destruct (decide _); [done|]. cbv zeta.
    destruct (253 <? String.length id) eqn:E; intros [= <- <-].
    by apply Nat.ltb_lt in E.
  - intros [= Hf]. revert Hf. unfold getSystemID_file.
    destruct (readFirstLine host filepath) as [e|line [e|]].
    + destruct dbErr; intros [= <- <-]; by left.
    + destruct dbErr; intros [= <- <-]; by left.
    + cbv zeta. destruct (253 <? _) eqn:E; intros [= <- <-].
      right. by apply Nat.ltb_lt in E.
Qed.

End GetSystemID_fallback.

(** ** getVersionViaAppctl and getSystemInfoFromOS *)

Lemma TrimRight_quote : TrimRight quote quote = "".
Proof. reflexivity. Qed.

Lemma TrimLeft_quoteFree v : quoteFree v = true → TrimLeft v quote = v.
Proof.
  destruct v as [|a v]; [done|]. cbn [quoteFree TrimLeft].
  intros [Ha _]%andb_prop. by destruct (inCutset a quote).
Qed.

Lemma TrimRight_quoteFree v : quoteFree v = true → TrimRight v quote = v.
Proof.
  induction v as [|a v IH]; [done|]. cbn [quoteFree TrimRight].
  intros [Ha Hv]%andb_prop. rewrite (IH Hv).
  destruct v; [|done]. by destruct (inCutset a quote).
Qed.

Lemma TrimRight_closing v :
  quoteFree v = true → TrimRight (v +:+ quote) quote = v.
Proof.
  induction v as [|a v IH]; [done|]. rewrite append_cons.
  cbn [quoteFree TrimRight]. intros [Ha Hv]%andb_prop. rewrite (IH Hv).
  destruct v; [|done]. by destruct (inCutset a quote).
Qed.

Lemma Trim_plain v : quoteFree v = true → Trim v quote = v.
Proof.
  intros Hv. unfold Trim. by rewrite TrimLeft_quoteFree, TrimRight_quoteFree.
Qed.

Lemma Trim_quoted v :
  quoteFree v = true → Trim (quote +:+ v +:+ quote) quote = v.
Proof.
  intros Hv. unfold Trim.
  change (TrimLeft (quote +:+ v +:+ quote) quote)
    with (TrimLeft (v +:+ quote) quote).
  destruct v as [|a v]; [done|]. rewrite append_cons.
  cbn [quoteFree] in Hv. apply andb_prop in Hv as [Ha Hv].
  cbn [TrimLeft]. destruct (inCutset a quote) eqn:E; [done|].
  rewrite <- append_cons. apply TrimRight_closing.
  cbn [quoteFree]. by rewrite E, Hv.
Qed.

Lemma TrimPrefix_append prefix v : TrimPrefix (prefix +:+ v) prefix = v.
Proof.
  unfold TrimPrefix, HasPrefix.
  assert (String.prefix prefix (prefix +:+ v) = true) as ->.
  { induction prefix as [|a p IH]; [by destruct v|]. rewrite append_cons.
    cbn [String.prefix]. by destruct (ascii_dec a a). }
  induction prefix as [|a p IH]; [by destruct v|]. by rewrite append_cons.
Qed.

Lemma HasPrefix_append prefix v : HasPrefix (prefix +:+ v) prefix = true.
Proof.
  unfold HasPrefix. induction prefix as [|a p IH]; [by destruct v|].
  rewrite append_cons. cbn [String.prefix]. by destruct (ascii_dec a a).
Qed.

Lemma HasPrefix_VERSION_ID line :
  HasPrefix line "VERSION_ID=" = true → HasPrefix line "ID=" = false.
Proof.
  unfold HasPrefix. destruct line as [|a line]; [done|].
  cbn [String.prefix]. destruct (ascii_dec "V" a) as [<-|]; [|done].
  by destruct (ascii_dec "I" "V").
Qed.

Lemma osRelease_type_kept lines systemType systemVersion :
  Forall (λ line, HasPrefix line "ID=" = false) lines →
  (foldl getSystemInfoFromOS_line (systemType, systemVersion) lines).1
  = systemType.
Proof.
  intros H. revert systemVersion.
  induction H as [|line lines Hl _ IH]; intros systemVersion; [done|].
  cbn [foldl getSystemInfoFromOS_line]. rewrite Hl.
  destruct (HasPrefix line "VERSION_ID="); apply IH.
Qed.

Lemma osRelease_version_kept lines systemType systemVersion :
  Forall (λ line, HasPrefix line "VERSION_ID=" = false) lines →
  (foldl getSystemInfoFromOS_line (systemType, systemVersion) lines).2
  = systemVersion.
Proof.
  intros H. revert systemType.
  induction H as [|line lines Hl _ IH]; intros systemType; [done|].
  cbn [foldl getSystemInfoFromOS_line]. rewrite Hl.
  destruct (HasPrefix line "ID="); apply IH.
Qed.

Section HostQueries.
Variable host : Host.

Lemma getSystemInfoFromOS_lines lines :
  osRelease host = Some lines →
  getSystemInfoFromOS host = foldl getSystemInfoFromOS_line ("", "") lines.
Proof. unfold getSystemInfoFromOS. by intros ->. Qed.

(** getVersionViaAppctl returns either a non-empty response, which is the
    answer of the daemon to the version command, and a nil error, or the
    empty string and an error: an empty answer is an error. *)
Lemma getVersionViaAppctl_response sock timeout :
  match getVersionViaAppctl host sock timeout with
  | (response, None) =>
    response ≠ "" ∧ appctl host sock timeout "version" = Response response
  | (response, Some _) => response = ""
  end.
Proof.
  unfold getVersionViaAppctl. cbv zeta.
  destruct (appctl host sock timeout "version") as [e|e|r]; [done..|].
  by destruct (decide (r = "")).
Qed.

(** In /etc/os-release the last line that starts with ID= gives the
    system type and the last line that starts with VERSION_ID= the system
    version, each with the prefix and the surrounding double quotes
    removed; the lines before it and the lines with other keys do not
    count. *)
Theorem getSystemInfoFromOS_last_line_wins lines :
  osRelease host = Some lines →
  (∀ pre line post,
     lines = pre ++ line :: post →
     HasPrefix line "ID=" = true →
     Forall (λ line, HasPrefix line "ID=" = false) post →
     (getSystemInfoFromOS host).1 = Trim (TrimPrefix line "ID=") quote)
  ∧ (∀ pre line post,
       lines = pre ++ line :: post →
       HasPrefix line "VERSION_ID=" = true →
       Forall (λ line, HasPrefix line "VERSION_ID=" = false) post →
       (getSystemInfoFromOS host).2
       = Trim (TrimPrefix line "VERSION_ID=") quote).
Proof.
  intros Hos. rewrite (getSystemInfoFromOS_lines _ Hos). split.
  - intros pre line post -> Hl Hpost. rewrite foldl_app. cbn [foldl].
    destruct (foldl _ _ pre) as [ty ver].
    cbn [getSystemInfoFromOS_line]. rewrite Hl.
    by apply osRelease_type_kept.
  - intros pre line post -> Hl Hpost. rewrite foldl_app. cbn [foldl].
    destruct (foldl _ _ pre) as [ty ver].
    cbn [getSystemInfoFromOS_line].
    rewrite (HasPrefix_VERSION_ID _ Hl), Hl.
    by apply osRelease_version_kept.
Qed.

(** A value of /etc/os-release reads the same with and without double
    quotes around it: when the last ID= line is ID=v or ID="v", for a v
    without double quote, the system type is v; the same for VERSION_ID=
    and the system version. *)
Theorem getSystemInfoFromOS_quotes pre line post key v :
  osRelease host = Some (pre ++ line :: post) →
  line = key +:+ v ∨ line = key +:+ quote +:+ v +:+ quote →
  quoteFree v = true →
  Forall (λ line, HasPrefix line key = false) post →
  (key = "ID=" → (getSystemInfoFromOS host).1 = v)
  ∧ (key = "VERSION_ID=" → (getSystemInfoFromOS host).2 = v).
Proof.
  intros Hos Hline Hv Hpost.
  assert (HasPrefix line key = true) as Hl.
  { destruct Hline as [-> | ->]; apply HasPrefix_append. }
  assert (Trim (TrimPrefix line key) quote = v) as Hval.
  { destruct Hline as [-> | ->]; rewrite TrimPrefix_append;
      [by apply Trim_plain|by apply Trim_quoted]. }
  rewrite (getSystemInfoFromOS_lines _ Hos), foldl_app. cbn [foldl].
  destruct (foldl _ _ pre) as [ty ver]. cbn [getSystemInfoFromOS_line].
  split; intros ->.
  - rewrite Hl. by rewrite osRelease_type_kept.
  - rewrite (HasPrefix_VERSION_ID _ Hl), Hl.
    by rewrite osRelease_version_kept.
Qed.

(** Without /etc/os-release both values are empty; with a file, the system
    type is empty when no line starts with ID= and the system version is
    empty when no line starts with VERSION_ID=. *)
Theorem getSystemInfoFromOS_empty :
  (osRelease host = None → getSystemInfoFromOS host = ("", ""))
  ∧ (∀ lines, osRelease host = Some lines →
       Forall (λ line, HasPrefix line "ID=" = false) lines →
       (getSystemInfoFromOS host).1 = "")
  ∧ (∀ lines, osRelease host = Some lines →
       Forall (λ line, HasPrefix line "VERSION_ID=" = false) lines →
       (getSystemInfoFromOS host).2 = "").
Proof.
  split; [|split].
  - unfold getSystemInfoFromOS. by intros ->.
  - intros lines Hos H. rewrite (getSystemInfoFromOS_lines _ Hos).
    by apply osRelease_type_kept.
  - intros lines Hos H. rewrite (getSystemInfoFromOS_lines _ Hos).
    by apply osRelease_version_kept.
Qed.

End HostQueries.

(** ** populateVersionFromAppctl *)

Section PopulateVersion_more.
Context `{G : GoRuntime}.
Variable host : Host.

Lemma absentOrEmpty_insert systemInfo key v :
  v ≠ "" → absentOrEmpty (<[key := v]> systemInfo) key = false.
Proof.
  intros Hv. unfold absentOrEmpty. rewrite lookup_insert_eq.
  by apply bool_decide_eq_false.
Qed.

Lemma absentOrEmpty_lookup (m m' : gmap string string) key :
  m' !! key = m !! key → absentOrEmpty m' key = absentOrEmpty m key.
Proof. unfold absentOrEmpty. by intros ->. Qed.

Lemma orUnknown_nonempty v : orUnknown v ≠ "".
Proof. unfold orUnknown. by destruct (decide (v = "")). Qed.

Lemma populate_db_version_spec systemInfo schema :
  populate_db_version systemInfo schema =
    if absentOrEmpty systemInfo "db_version"
    then <["db_version" :=
             orUnknown (match schema with Some s => Version s | None => "" end)]>
           systemInfo
    else systemInfo.
Proof.
  unfold populate_db_version, orUnknown.
  destruct (absentOrEmpty _ _); [|done].
  destruct schema as [s|]; [|done]. by destruct (decide _).
Qed.

Lemma populate_system_spec systemInfo :
  populate_system host systemInfo =
    if absentOrEmpty systemInfo "system_type" then
      <["system_version" := orUnknown (getSystemInfoFromOS host).2]>
        (<["system_type" := orUnknown (getSystemInfoFromOS host).1]> systemInfo)
    else if absentOrEmpty systemInfo "system_version" then
      <["system_version" := orUnknown (getSystemInfoFromOS host).2]> systemInfo
    else systemInfo.
Proof.
  unfold populate_system, orUnknown.
  destruct (getSystemInfoFromOS host) as [ty ver]. cbn [fst snd].
  destruct (absentOrEmpty _ "system_type");
    [|destruct (absentOrEmpty _ "system_version")];
    by repeat destruct (decide _).
Qed.

Lemma populate_db_version_present systemInfo schema :
  absentOrEmpty (populate_db_version systemInfo schema) "db_version" = false.
Proof.
  rewrite populate_db_version_spec.
  destruct (absentOrEmpty systemInfo "db_version") eqn:E; [|done].
  apply absentOrEmpty_insert, orUnknown_nonempty.
Qed.

Lemma populate_system_present systemInfo :
  absentOrEmpty (populate_system host systemInfo) "system_type" = false
  ∧ absentOrEmpty (populate_system host systemInfo) "system_version" = false.
Proof.
  rewrite populate_system_spec.
  destruct (absentOrEmpty systemInfo "system_type") eqn:E1;
    [|destruct (absentOrEmpty systemInfo "system_version") eqn:E2].
  - split; [|apply absentOrEmpty_insert, orUnknown_nonempty].
    rewrite (absentOrEmpty_lookup
               (<["system_type" := orUnknown (getSystemInfoFromOS host).1]>
                  systemInfo)) by by rewrite lookup_insert_ne.
    apply absentOrEmpty_insert, orUnknown_nonempty.
  - split; [|apply absentOrEmpty_insert, orUnknown_nonempty].
    rewrite (absentOrEmpty_lookup systemInfo) by by rewrite lookup_insert_ne.
    done.
  - done.
Qed.

(** populateVersionFromAppctl writes the four version keys only: every
    other key of the map, system-id, hostname and rundir among them, keeps
    its value, and a key that is absent stays absent. *)
Theorem populateVersion_frame systemInfo sock timeout schema key :
  key ∉ versionKeys →
  populateVersionFromAppctl host systemInfo sock timeout schema !! key
  = systemInfo !! key.
Proof.
  unfold versionKeys. intros Hkey. unfold populateVersionFromAppctl.
  rewrite populate_system_other, populate_db_version_other,
    populate_ovs_version_other; [done|set_solver..].
Qed.

Lemma populateVersion_present systemInfo sock timeout schema :
  let systemInfo' :=
    populateVersionFromAppctl host systemInfo sock timeout schema in
  is_Some (systemInfo' !! "ovs_version")
  ∧ absentOrEmpty systemInfo' "db_version" = false
  ∧ absentOrEmpty systemInfo' "system_type" = false
  ∧ absentOrEmpty systemInfo' "system_version" = false.
Proof.
  cbv zeta. unfold populateVersionFromAppctl. split; [|split].
  - rewrite populate_system_other, populate_db_version_other by done.
    unfold populate_ovs_version, absentOrEmpty.
    destruct (systemInfo !! "ovs_version") as [v|] eqn:E.
    + destruct (bool_decide _); [|by rewrite E].
      destruct (getVersionViaAppctl host sock timeout) as [? [?|]];
        by rewrite lookup_insert_eq.
    + destruct (getVersionViaAppctl host sock timeout) as [? [?|]];
        by rewrite lookup_insert_eq.
  - rewrite (absentOrEmpty_lookup
               (populate_db_version
                  (populate_ovs_version host systemInfo sock timeout) schema))
      by by rewrite populate_system_other.
    apply populate_db_version_present.
  - apply populate_system_present.
Qed.

(** After populateVersionFromAppctl the four version keys are in the map,
    and db_version, system_type and system_version are not empty: where no
    source has a value the text unknown stands. *)
Theorem populateVersion_complete systemInfo sock timeout schema :
  let systemInfo' :=
    populateVersionFromAppctl host systemInfo sock timeout schema in
  is_Some (systemInfo' !! "ovs_version")
  ∧ absentOrEmpty systemInfo' "db_version" = false
  ∧ absentOrEmpty systemInfo' "system_type" = false
  ∧ absentOrEmpty systemInfo' "system_version" = false.
Proof. apply populateVersion_present. Qed.

(** Where the values of populateVersionFromAppctl come from when the row
    has none: ovs_version is the version parsed from the answer of the
    daemon, or unknown when the daemon gives no answer; db_version is the
    version of the schema, or unknown without a schema or with an empty
    version; system_type and system_version are those of /etc/os-release,
    or unknown. *)
Theorem populateVersion_fills systemInfo sock timeout schema :
  let systemInfo' :=
    populateVersionFromAppctl host systemInfo sock timeout schema in
  (absentOrEmpty systemInfo "ovs_version" = true →
     systemInfo' !! "ovs_version"
     = Some (match appctl host sock timeout "version" with
             | Response response =>
               if decide (response = "") then "unknown"
               else parseOvsVersion response
             | _ => "unknown"
             end))
  ∧ (absentOrEmpty systemInfo "db_version" = true →
       systemInfo' !! "db_version"
       = Some (match schema with
               | Some schema => orUnknown (Version schema)
               | None => "unknown"
               end))
  ∧ (absentOrEmpty systemInfo "system_type" = true →
       systemInfo' !! "system_type"
       = Some (orUnknown (getSystemInfoFromOS host).1)
       ∧ systemInfo' !! "system_version"
         = Some (orUnknown (getSystemInfoFromOS host).2))
  ∧ (absentOrEmpty systemInfo "system_version" = true →
       systemInfo' !! "system_version"
       = Some (orUnknown (getSystemInfoFromOS host).2)).
Proof.
  cbv zeta. unfold populateVersionFromAppctl.
  set (m1 := populate_ovs_version host systemInfo sock timeout).
  set (m2 := populate_db_version m1 schema).
  assert (∀ k, k ≠ "ovs_version" → k ≠ "db_version" →
            absentOrEmpty m2 k = absentOrEmpty systemInfo k) as Hsame.
  { intros k ? ?. apply absentOrEmpty_lookup. unfold m2, m1.
    by rewrite populate_db_version_other, populate_ovs_version_other. }
  split; [|split; [|split]].
  - intros Habs. rewrite populate_system_other by done. unfold m2.
    rewrite populate_db_version_other by done. unfold m1.
    unfold populate_ovs_version. rewrite Habs.
    unfold getVersionViaAppctl. cbv zeta.
    destruct (appctl host sock timeout "version") as [e|e|r];
      [by rewrite lookup_insert_eq..|].
    destruct (decide (r = "")); by rewrite lookup_insert_eq.
  - intros Habs. rewrite populate_system_other by done. unfold m2.
    rewrite populate_db_version_spec.
    rewrite (absentOrEmpty_lookup systemInfo m1), Habs
      by (unfold m1; by rewrite populate_ovs_version_other).
    rewrite lookup_insert_eq. destruct schema; [done|].
    unfold orUnknown. by destruct (decide _).
  - intros Habs. rewrite populate_system_spec, Hsame, Habs by done.
    rewrite lookup_insert_ne, !lookup_insert_eq by done. done.
  - intros Habs. rewrite populate_system_spec, !Hsame, Habs by done.
    destruct (absentOrEmpty systemInfo "system_type");
      by rewrite lookup_insert_eq.
Qed.

(** populateVersionFromAppctl is idempotent: a second call on the map the
    first call left finds the three guarded keys non-empty and writes
    ovs_version, if at all, with the value it has. *)
Theorem populateVersion_idempotent systemInfo sock timeout schema :
  populateVersionFromAppctl host
    (populateVersionFromAppctl host systemInfo sock timeout schema)
    sock timeout schema
  = populateVersionFromAppctl host systemInfo sock timeout schema.
Proof.
  destruct (populateVersion_present systemInfo sock timeout schema)
    as (Hovs & Hdb & Hty & Hver). cbv zeta in *.
  assert (populateVersionFromAppctl host systemInfo sock timeout schema
            !! "ovs_version"
          = populate_ovs_version host systemInfo sock timeout
              !! "ovs_version") as Hfirst.
  { unfold populateVersionFromAppctl.
    by rewrite populate_system_other, populate_db_version_other. }
  set (m := populateVersionFromAppctl host systemInfo sock timeout schema)
    in *.
  assert (populate_ovs_version host m sock timeout = m) as Hstep1.
  { unfold populate_ovs_version at 1.
    destruct (absentOrEmpty m "ovs_version") eqn:Habs; [|done].
    assert (m !! "ovs_version" = Some "") as Hempty.
    { unfold absentOrEmpty in Habs. destruct Hovs as [v Hv].
      rewrite Hv in Habs |- *. by apply bool_decide_eq_true in Habs as ->. }
    pose proof Hempty as Hcur. rewrite Hfirst in Hempty. revert Hempty.
    unfold populate_ovs_version, absentOrEmpty.
    destruct (systemInfo !! "ovs_version") as [v|] eqn:Hv.
    - destruct (bool_decide (v = "")) eqn:E.
      + destruct (getVersionViaAppctl host sock timeout) as [r [e|]];
          rewrite lookup_insert_eq; intros Heq; [done|];
          injection Heq as Heq; rewrite Heq; by apply insert_id.
      + rewrite Hv. intros [= ->]. by apply bool_decide_eq_false in E.
    - destruct (getVersionViaAppctl host sock timeout) as [r [e|]];
        rewrite lookup_insert_eq; intros Heq; [done|];
        injection Heq as Heq; rewrite Heq; by apply insert_id. }
  unfold populateVersionFromAppctl at 1. rewrite Hstep1.
  unfold populate_db_version. rewrite Hdb.
  unfold populate_system. by rewrite Hty, Hver.
Qed.

End PopulateVersion_more.

(** ** parseSystemInfo *)

Section ParseSystemInfo_more.
Context `{D : Decoder}.

Lemma parseSystemInfo_column_inv row columns col systemInfo c :
  parseSystemInfo_column row columns col systemInfo = Ret c →
  (∃ v, c = Next (<[col := v]> systemInfo))
  ∨ (∃ err, c = Return (systemInfo, Some err)).
Proof.
  unfold parseSystemInfo_column.
  destruct (GetColumnValue row col columns) as [[r dt]|e];
    [|intros [= <-]; right; by eexists].
  destruct (decide (dt = "string")).
  { intros (s & _ & [= <-])%bind_inv. left. by eexists. }
  destruct (decide (dt = "[]string")).
  { intros ([|a l] & _ & [= <-])%bind_inv; left; by eexists. }
  intros [= <-]. right. by eexists.
Qed.

Lemma parseSystemInfo_columns_inv row columns cols systemInfo r :
  forRange (parseSystemInfo_column row columns) cols systemInfo = Ret r →
  match r with
  | inl systemInfo' =>
    (∀ key, key ∉ cols → systemInfo' !! key = systemInfo !! key)
    ∧ (∀ key, key ∈ cols → is_Some (systemInfo' !! key))
  | inr (_, err) => is_Some err
  end.
Proof.
  revert systemInfo r. induction cols as [|col cols IH]; intros systemInfo r;
    cbn [forRange].
  - intros H. injection H as <-. split; [done|]. by intros key ?%elem_of_nil.
  - intros (c & Hc & H)%bind_inv.
    apply parseSystemInfo_column_inv in Hc as [[v ->]|[err ->]].
    + apply IH in H. destruct r as [systemInfo'|[? err]]; [|done].
      destruct H as [Hout Hin]. split.
      * intros key Hk. rewrite Hout by set_solver.
        apply lookup_insert_ne. set_solver.
      * intros key Hk. destruct (decide (key ∈ cols)); [by apply Hin|].
        apply elem_of_cons in Hk as [->|?]; [|done].
        rewrite Hout by done. by rewrite lookup_insert_eq.
    + by injection H as <-.
Qed.

Lemma parseSystemInfo_row_inv columns row systemInfo c :
  parseSystemInfo_row columns row systemInfo = Ret c →
  match c with
  | Next _ => False
  | Break systemInfo' =>
    ∃ externalIDs,
      GetColumnValue row "external_ids" columns
        = inl (VMap externalIDs, "map[string]string")
      ∧ (∀ key, key ∉ versionKeys → systemInfo' !! key = externalIDs !! key)
      ∧ (∀ key, key ∈ versionKeys → is_Some (systemInfo' !! key))
  | Return (_, err) => is_Some err
  end.
Proof.
  unfold parseSystemInfo_row. cbv zeta.
  destruct (GetColumnValue row _ _) as [[rowData dataType]|e];
    [|by intros [= <-]].
  destruct (decide (dataType = _)) as [->|]; [|by intros [= <-]].
  intros (m & Hm & (r & Hr & H)%bind_inv)%bind_inv.
  destruct rowData; try done. injection Hm as ->.
  apply parseSystemInfo_columns_inv in Hr.
  destruct r as [systemInfo'|[? err]]; injection H as <-; [|done].
  by exists m.
Qed.

Lemma parseSystemInfo_success_inv systemID (result : Result) systemInfo :
  parseSystemInfo systemID result = Ret (systemInfo, None) →
  (∃ row rest externalIDs,
     Rows result = row :: rest
     ∧ GetColumnValue row "external_ids" (Columns result)
       = inl (VMap externalIDs, "map[string]string")
     ∧ externalIDs !! "system-id" = Some systemID
     ∧ externalIDs !! "hostname" = systemInfo !! "hostname")
  ∧ systemInfo !! "system-id" = Some systemID
  ∧ is_Some (systemInfo !! "hostname")
  ∧ is_Some (systemInfo !! "rundir")
  ∧ ∀ key, key ∈ versionKeys → is_Some (systemInfo !! key).
Proof.
  unfold parseSystemInfo.
  destruct (Rows result) as [|row rest] eqn:Hrows; cbn [forRange].
  { rewrite bind_Ret, lookup_empty. by intros [= _]. }
  intros (r & (c & Hc & Hr)%bind_inv & H)%bind_inv.
  apply parseSystemInfo_row_inv in Hc.
  destruct c as [?|m|[? err]]; [done| |].
  2:{ injection Hr as <-. injection H as _ ->. by destruct Hc. }
  injection Hr as <-.
  destruct Hc as (externalIDs & Hext & Hout & Hin).
  destruct (m !! "system-id") as [dbSystemID|] eqn:Hid; [|by injection H].
  destruct (decide (dbSystemID = systemID)) as [->|]; [|by injection H].
  cbv zeta in H. cbn [forRange] in H.
  set (m' := match m !! "rundir" with
             | Some _ => m
             | None => <["rundir" := "/var/run/openvswitch"]> m
             end) in H.
  assert (∀ key, key ≠ "rundir" → m' !! key = m !! key) as Hm'.
  { intros key Hk. unfold m'. destruct (m !! "rundir"); [done|].
    by rewrite lookup_insert_ne. }
  assert (is_Some (m' !! "rundir")) as Hrundir.
  { unfold m'. destruct (m !! "rundir") eqn:E; [by rewrite E|].
    by rewrite lookup_insert_eq. }
  destruct (m' !! "hostname") as [hostname|] eqn:Hh;
    rewrite !bind_Ret in H; [|by injection H].
  injection H as <-.
  unfold versionKeys in *. split; [|split; [|split; [|split]]].
  - exists row, rest, externalIDs. split; [done|]. split; [done|].
    rewrite <- !Hout by set_solver. split; [done|].
    by rewrite <- (Hm' "hostname").
  - by rewrite Hm'.
  - by rewrite Hh.
  - done.
  - intros key Hk. rewrite Hm' by set_solver. by apply Hin.
Qed.

(** What a nil error of parseSystemInfo guarantees: the result has a first
    row, whose external_ids cell is a string map that has the expected
    identity as system-id and has a hostname; the map returned has
    system-id (the expected identity), hostname, rundir and the four
    version keys. *)
Theorem parseSystemInfo_success systemID (result : Result) systemInfo :
  parseSystemInfo systemID result = Ret (systemInfo, None) →
  (∃ row rest externalIDs,
     Rows result = row :: rest
     ∧ GetColumnValue row "external_ids" (Columns result)
       = inl (VMap externalIDs, "map[string]string")
     ∧ externalIDs !! "system-id" = Some systemID
     ∧ externalIDs !! "hostname" = systemInfo !! "hostname")
  ∧ systemInfo !! "system-id" = Some systemID
  ∧ is_Some (systemInfo !! "hostname")
  ∧ is_Some (systemInfo !! "rundir")
  ∧ ∀ key, key ∈ versionKeys → is_Some (systemInfo !! key).
Proof. apply parseSystemInfo_success_inv. Qed.

Lemma parseSystemInfo_column_value row columns col systemInfo :
  versionColumnOk row columns col = true →
  parseSystemInfo_column row columns col systemInfo
  = Ret (Next (<[col := versionValue row columns col]> systemInfo)).
Proof.
  unfold versionColumnOk, parseSystemInfo_column, versionValue.
  destruct (GetColumnValue row col columns) as [[r dt]|]; [|done].
  destruct r; try done; intros Hdt%bool_decide_eq_true; subst dt.
  - by destruct (decide _).
  - destruct (decide ("[]string" = "string")); [done|].
    destruct (decide _); [|done]. by destruct l.
Qed.

Lemma parseSystemInfo_columns_value row columns m :
  versionColumnOk row columns "ovs_version" = true →
  versionColumnOk row columns "db_version" = true →
  versionColumnOk row columns "system_type" = true →
  versionColumnOk row columns "system_version" = true →
  forRange (parseSystemInfo_column row columns)
    ["ovs_version"; "db_version"; "system_type"; "system_version"] m
  = Ret (inl (<["system_version" := versionValue row columns "system_version"]>
               (<["system_type" := versionValue row columns "system_type"]>
                 (<["db_version" := versionValue row columns "db_version"]>
                   (<["ovs_version" := versionValue row columns "ovs_version"]>
                      m))))).
Proof.
  intros H1 H2 H3 H4. cbn [forRange].
  rewrite (parseSystemInfo_column_value _ _ "ovs_version"), bind_Ret by done.
  rewrite (parseSystemInfo_column_value _ _ "db_version"), bind_Ret by done.
  rewrite (parseSystemInfo_column_value _ _ "system_type"), bind_Ret by done.
  by rewrite (parseSystemInfo_column_value _ _ "system_version"), bind_Ret.
Qed.

(** The contents of the map parseSystemInfo returns with a nil error,
    for a first row whose version columns decode: each version key has the
    value of its column (which replaces an entry of external_ids of the
    same name), rundir has the value of external_ids or else the default
    directory, and every other key has the value of external_ids. *)
Theorem parseSystemInfo_contents systemID columns row rest externalIDs :
  GetColumnValue row "external_ids" columns
    = inl (VMap externalIDs, "map[string]string") →
  externalIDs !! "system-id" = Some systemID →
  is_Some (externalIDs !! "hostname") →
  forallb (versionColumnOk row columns) versionKeys = true →
  ∃ systemInfo,
    parseSystemInfo systemID {| Rows := row :: rest; Columns := columns |}
    = Ret (systemInfo, None)
    ∧ (∀ key, key ∈ versionKeys →
         systemInfo !! key = Some (versionValue row columns key))
    ∧ systemInfo !! "rundir"
      = Some (default "/var/run/openvswitch" (externalIDs !! "rundir"))
    ∧ (∀ key, key ∉ versionKeys → key ≠ "rundir" →
         systemInfo !! key = externalIDs !! key).
Proof.
  intros Hext Hid [hostname Hh] Hcols. unfold versionKeys in *.
  cbn in Hcols. repeat (apply andb_prop in Hcols as [? Hcols]).
  unfold parseSystemInfo. cbn [Rows Columns forRange].
  unfold parseSystemInfo_row. cbv zeta. rewrite Hext.
  destruct (decide _); [|done]. cbn [assert_map].
  rewrite bind_Ret, parseSystemInfo_columns_value, !bind_Ret by done.
  rewrite !lookup_insert_ne, Hid by done.
  destruct (decide (systemID = systemID)); [|done].
  cbv zeta. cbn [forRange].
  set (m := <["system_version" := _]> _).
  assert (∀ key, key ∈ ["ovs_version"; "db_version"; "system_type";
                        "system_version"] →
            m !! key = Some (versionValue row columns key)) as Hin.
  { intros key Hk. unfold m.
    repeat (apply elem_of_cons in Hk as [->|Hk]);
      [..|by apply elem_of_nil in Hk];
      rewrite ?lookup_insert_ne by done; by rewrite lookup_insert_eq. }
  assert (∀ key, key ∉ ["ovs_version"; "db_version"; "system_type";
                        "system_version"] →
            m !! key = externalIDs !! key) as Hout.
  { intros key Hk. unfold m. rewrite !lookup_insert_ne; set_solver. }
  destruct (externalIDs !! "rundir") as [rundir|] eqn:Hr.
  - rewrite Hout, Hh, !bind_Ret by set_solver. eexists. split; [done|].
    split; [exact Hin|]. split; [|intros key Hk _; by apply Hout].
    by rewrite Hout, Hr by set_solver.
  - rewrite lookup_insert_ne, Hout, Hh, !bind_Ret by set_solver.
    eexists. split; [done|]. split; [|split].
    + intros key Hk. rewrite lookup_insert_ne; [by apply Hin|set_solver].
    + by rewrite lookup_insert_eq.
    + intros key Hk1 Hk2. rewrite lookup_insert_ne by done. by apply Hout.
Qed.

(** parseSystemInfo without an external_ids map: on a result with no row
    it fails for want of a system-id; when the external_ids cell of the
    first row does not decode, or decodes under another tag than that of a
    string map, it fails with an error that names the column. The map
    returned is empty in the three cases. *)
Lemma parseSystemInfo_no_external_ids systemID (result : Result) :
  (Rows result = [] →
     parseSystemInfo systemID result = Ret (∅, Some "no 'system-id' found"))
  ∧ (∀ row rest err,
       Rows result = row :: rest →
       GetColumnValue row "external_ids" (Columns result) = inr err →
       parseSystemInfo systemID result
       = Ret (∅, Some (errParsing "external_ids" err)))
  ∧ (∀ row rest rowData dataType,
       Rows result = row :: rest →
       GetColumnValue row "external_ids" (Columns result)
         = inl (rowData, dataType) →
       dataType ≠ "map[string]string" →
       parseSystemInfo systemID result
       = Ret (∅, Some (errDataType dataType "external_ids"))).
Proof.
  unfold parseSystemInfo. split; [|split].
  - intros ->. cbn [forRange]. by rewrite bind_Ret, lookup_empty.
  - intros row rest err -> Hc. cbn [forRange].
    unfold parseSystemInfo_row. cbv zeta. by rewrite Hc.
  - intros row rest rowData dataType -> Hc Hdt. cbn [forRange].
    unfold parseSystemInfo_row. cbv zeta. rewrite Hc.
    by destruct (decide _).
Qed.

Lemma parseSystemInfo_columns_stop row columns before col after e systemInfo :
  forallb (versionColumnOk row columns) before = true →
  (∀ m, parseSystemInfo_column row columns col m
        = Ret (Return (m, Some e))) →
  ∃ systemInfo',
    forRange (parseSystemInfo_column row columns) (before ++ col :: after)
      systemInfo
    = Ret (inr (systemInfo', Some e)).
Proof.
  intros Hbefore Hcol. revert systemInfo.
  induction before as [|b before IH]; intros m.
  - cbn [app forRange]. rewrite Hcol, bind_Ret. by eexists.
  - cbn [forallb] in Hbefore. apply andb_prop in Hbefore as [Hb Hbs].
    cbn [app forRange].
    destruct (parseSystemInfo_column_ok row columns b m Hb) as [v ->].
    rewrite bind_Ret. by apply IH.
Qed.

(** A version column that does not decode stops parseSystemInfo before
    the identity is compared: when the columns before it decode, the error
    names the column and carries the error of the decoder, or the
    unexpected type tag. *)
Theorem parseSystemInfo_version_column_error systemID columns row rest
    externalIDs before col after :
  GetColumnValue row "external_ids" columns
    = inl (VMap externalIDs, "map[string]string") →
  versionKeys = before ++ col :: after →
  forallb (versionColumnOk row columns) before = true →
  (∀ err, GetColumnValue row col columns = inr err →
     ∃ systemInfo,
       parseSystemInfo systemID {| Rows := row :: rest; Columns := columns |}
       = Ret (systemInfo, Some (errParsing col err)))
  ∧ (∀ rowData dataType,
       GetColumnValue row col columns = inl (rowData, dataType) →
       dataType ≠ "string" → dataType ≠ "[]string" →
       ∃ systemInfo,
         parseSystemInfo systemID
           {| Rows := row :: rest; Columns := columns |}
         = Ret (systemInfo, Some (errDataType dataType col))).
Proof.
  intros Hext Hkeys Hbefore.
  assert (∀ e,
    (∀ m, parseSystemInfo_column row columns col m
          = Ret (Return (m, Some e))) →
    ∃ systemInfo,
      parseSystemInfo systemID {| Rows := row :: rest; Columns := columns |}
      = Ret (systemInfo, Some e)) as Hstop.
  { intros e Hcol.
    destruct (parseSystemInfo_columns_stop row columns before col after e
                externalIDs Hbefore Hcol) as [m' Hloop].
    unfold parseSystemInfo. cbn [Rows Columns forRange].
    unfold parseSystemInfo_row. cbv zeta. rewrite Hext.
    destruct (decide _); [|done]. cbn [assert_map]. rewrite bind_Ret.
    fold versionKeys. rewrite Hkeys, Hloop, !bind_Ret. by eexists. }
  split.
  - intros err Hc. apply Hstop. intros m.
    unfold parseSystemInfo_column. by rewrite Hc.
  - intros rowData dataType Hc Hs Hl. apply Hstop. intros m.
    unfold parseSystemInfo_column. rewrite Hc.
    by repeat destruct (decide _).
Qed.

End ParseSystemInfo_more.

(** ** The methods of OvsClient *)

Section OvsClientMethods_properties.
Context `{D : Decoder} `{G : GoRuntime} `{P : @Package D}.
Variable host : Host.
Variable updateRefs : OvsClient → OvsClient.

Lemma getSystemID_nil_error client dbName filepath systemID :
  getSystemID host client dbName filepath = Ret (systemID, None) →
  String.length systemID ≤ 253.
Proof.
  intros H. destruct (Nat.le_gt_cases (String.length systemID) 253) as [|Hlen];
    [done|]. exfalso. revert H. unfold getSystemID.
  destruct (getSystemID_database client dbName) as [[[id e]|dbErr]|] eqn:Hdb;
    rewrite ?bind_Ret; [| |done].
  - intros [= -> ->].
    by pose proof (getSystemID_database_bound _ _ _ _ Hdb Hlen).
  - intros [= Hf].
    by pose proof (getSystemID_file_bound host _ _ _ _ Hf Hlen).
Qed.

Lemma absentOrEmpty_default (m : gmap string string) key :
  absentOrEmpty m key = false → default "" (m !! key) ≠ "".
Proof.
  unfold absentOrEmpty. destruct (m !! key) as [v|]; [|done].
  by intros ?%bool_decide_eq_false.
Qed.

(** The method GetSystemID writes the identity into the client exactly
    when getSystemID returns a nil error, and writes nothing else; the
    identity it writes has at most 253 bytes. With an error the client is
    left as it was and the error is the one of getSystemID. *)
Theorem OvsClient_GetSystemID_spec cli cli' err :
  OvsClient_GetSystemID host cli = Ret (cli', err) →
  match err with
  | None =>
    getSystemID host (Vswitch_Client cli) (Vswitch_Name cli)
      (Vswitch_File_SystemID_Path cli) = Ret (System_ID cli', None)
    ∧ String.length (System_ID cli') ≤ 253
    ∧ cli' = withSystemID (System_ID cli') cli
  | Some e =>
    cli' = cli
    ∧ ∃ systemID,
        getSystemID host (Vswitch_Client cli) (Vswitch_Name cli)
          (Vswitch_File_SystemID_Path cli) = Ret (systemID, Some e)
  end.
Proof.
  unfold OvsClient_GetSystemID.
  intros ([systemID [e|]] & Hid & H)%bind_inv; injection H as <- <-.
  - split; [done|]. by exists systemID.
  - cbn [withSystemID System_ID]. split; [done|]. split; [|done].
    by eapply getSystemID_nil_error.
Qed.

(** GetSystemInfo writes the client only when it succeeds: with an error,
    from the identity, the query, an empty result or the parsing of the
    row, the client is left as it was. *)
Theorem GetSystemInfo_failure cli cli' err :
  GetSystemInfo host updateRefs cli = Ret (cli', Some err) → cli' = cli.
Proof.
  unfold GetSystemInfo.
  intros ([systemID [e|]] & Hid & H)%bind_inv; [by injection H as <-|].
  cbv zeta in H. apply bind_inv in H as ([result|e] & Hq & H);
    [|by injection H as <-].
  destruct (decide _); [by injection H as <-|].
  apply bind_inv in H as ([systemInfo [e|]] & Hparse & H);
    [by injection H as <-|].
  by apply bind_inv in H as (r & _ & [=]).
Qed.

(** What a nil error of GetSystemInfo guarantees. The identity in the
    client is the one getSystemID resolved, of at most 253 bytes, and it is
    the system-id of the external_ids map of the first row of the second
    query: an identity that comes from the file only, with no system-id in
    the database, never gets through. The hostname is the one of that
    map, and the system type, the system version and the schema version
    of the client are not empty. *)
Theorem GetSystemInfo_success cli cli' :
  GetSystemInfo host updateRefs cli = Ret (cli', None) →
  getSystemID host (Vswitch_Client cli) (Vswitch_Name cli)
    (Vswitch_File_SystemID_Path cli) = Ret (System_ID cli', None)
  ∧ String.length (System_ID cli') ≤ 253
  ∧ (∃ result row rest externalIDs,
       vswitchTransact cli (querySystemInfo (Vswitch_Name cli))
       = Ret (inl result)
       ∧ Rows result = row :: rest
       ∧ GetColumnValue row "external_ids" (Columns result)
         = inl (VMap externalIDs, "map[string]string")
       ∧ externalIDs !! "system-id" = Some (System_ID cli')
       ∧ externalIDs !! "hostname" = Some (System_Hostname cli'))
  ∧ System_Type cli' ≠ ""
  ∧ System_Version cli' ≠ ""
  ∧ Vswitch_Schema_Version cli' ≠ "".
Proof.
  unfold GetSystemInfo.
  intros ([systemID [e|]] & Hid & H)%bind_inv; [by injection H|].
  cbv zeta in H. apply bind_inv in H as ([result|e] & Hq & H);
    [|by injection H].
  destruct (decide _); [by injection H|].
  apply bind_inv in H as ([systemInfo [e|]] & Hparse & H);
    [by injection H|].
  apply bind_inv in H as (r & _ & H). injection H as <-.
  apply parseSystemInfo_success_inv in Hparse
    as ((row & rest & externalIDs & Hrows & Hext & Hsid & Hhost)
        & Hsid' & [hostname Hh] & _).
  match goal with
  | |- context [populateVersionFromAppctl host systemInfo ?sock ?timeout
                  ?schema] =>
    destruct (populateVersion_present host systemInfo sock timeout schema)
      as (_ & Hdb & Hty & Hver);
    assert (∀ key, key ≠ "ovs_version" → key ≠ "db_version" →
              key ≠ "system_type" → key ≠ "system_version" →
              populateVersionFromAppctl host systemInfo sock timeout schema
                !! key = systemInfo !! key) as Hother
  end.
  { intros key ????. unfold populateVersionFromAppctl.
    by rewrite populate_system_other, populate_db_version_other,
      populate_ovs_version_other. }
  cbv zeta in Hdb, Hty, Hver.
  cbn [withSystemInfo System_ID System_Hostname System_Type System_Version
       Vswitch_Schema_Version].
  rewrite !Hother, Hsid', Hh by done. cbn [default].
  split; [done|]. split; [by eapply getSystemID_nil_error|].
  split; [|by repeat split; apply absentOrEmpty_default].
  exists result, row, rest, externalIDs. by rewrite Hhost, Hh.
Qed.

End OvsClientMethods_properties.

(** ** GetChassis *)

Lemma omap_length_le {A B} (f : A → option B) (l : list A) :
  length (omap f l) ≤ length l.
Proof.
  induction l as [|x l IH]; [done|]. cbn [omap list_omap length].
  destruct (f x); cbn [length]; lia.
Qed.

Section GetChassis_more.
Context `{D : Decoder} `{G : GoRuntime}.

Lemma chassisRow_key columns row chassis c :
  GetChassis_chassisRow columns row chassis = Ret c →
  ∃ cs, c = Next (chassis ++ cs)
    ∧ chassisKey <$> cs = option_list (baseKey columns row).
Proof.
  unfold GetChassis_chassisRow, baseKey.
  intros (ou & Hu & H)%bind_inv. rewrite Hu.
  destruct ou as [u|].
  2:{ injection H as <-. exists []. by rewrite app_nil_r. }
  apply bind_inv in H as (on & Hn & H). rewrite Hn.
  destruct on as [n|].
  2:{ injection H as <-. exists []. by rewrite app_nil_r. }
  apply bind_inv in H as (oe & He & H). rewrite He.
  destruct oe as [e|].
  2:{ injection H as <-. exists []. by rewrite app_nil_r. }
  injection H as <-. by eexists [_].
Qed.

Lemma base_loop_keys columns rows acc r :
  forRange (GetChassis_chassisRow columns) rows acc = Ret r →
  ∃ cs, r = inl (acc ++ cs)
    ∧ chassisKey <$> cs = omap (baseKey columns) rows.
Proof.
  revert acc. induction rows as [|row rows IH]; intros acc; cbn [forRange].
  - intros H. injection H as <-. exists []. by rewrite app_nil_r.
  - intros (c & Hc & H)%bind_inv.
    apply chassisRow_key in Hc as (cs1 & -> & Hk1).
    apply IH in H as (cs2 & -> & Hk2).
    exists (cs1 ++ cs2). rewrite app_assoc. split; [done|].
    rewrite fmap_app, Hk1, Hk2. cbn [omap list_omap].
    by destruct (baseKey columns row).
Qed.

Lemma resolve_endpoint maps c :
  IPAddress (GetChassis_resolve maps c) = IPAddress c
  ∧ Encaps_Proto (GetChassis_resolve maps c) = Encaps_Proto c.
Proof. unfold GetChassis_resolve. by repeat case_match. Qed.

Lemma join_lookup_other u p n ip cs i c :
  cs !! i = Some c →
  ¬ (Encaps_UUID c = u ∧ Name c = n) →
  GetChassis_join u p n ip cs !! i = Some c.
Proof.
  revert i. induction cs as [|d cs IH]; intros i; [done|].
  cbn [GetChassis_join]. destruct i as [|i]; cbn [lookup list_lookup].
  - intros [= ->] Hno.
    destruct (decide (Encaps_UUID c = u)); [|done].
    destruct (decide (Name c = n)); [|done]. by destruct Hno.
  - intros Hi Hno.
    destruct (decide (Encaps_UUID d = u)); [destruct (decide (Name d = n))|];
      cbn [lookup list_lookup]; [done|by apply IH..].
Qed.

Lemma join_lookup_first u p n ip cs i c :
  cs !! i = Some c →
  Encaps_UUID c = u → Name c = n →
  (∀ j d, j < i → cs !! j = Some d → ¬ (Encaps_UUID d = u ∧ Name d = n)) →
  GetChassis_join u p n ip cs !! i = Some (withEncap (ParseIP ip) p c).
Proof.
  revert i. induction cs as [|d cs IH]; intros i; [done|].
  cbn [GetChassis_join]. destruct i as [|i]; cbn [lookup list_lookup].
  - intros [= ->] Hu Hn _.
    destruct (decide (Encaps_UUID c = u)); [|done].
    by destruct (decide (Name c = n)).
  - intros Hi Hu Hn Hfirst.
    assert (¬ (Encaps_UUID d = u ∧ Name d = n)) as Hd.
    { apply (Hfirst 0 d); [lia|done]. }
    assert (GetChassis_join u p n ip cs !! i
            = Some (withEncap (ParseIP ip) p c)) as Hrest.
    { apply IH; [done..|]. intros j d' Hj Hd'.
      apply (Hfirst (S j) d'); [lia|done]. }
    destruct (decide (Encaps_UUID d = u)); [destruct (decide (Name d = n))|];
      cbn [lookup list_lookup]; [|done..]. by destruct Hd.
Qed.


Lemma forRange_app {A S R} (body : A → S → outcome (ctl S R)) l1 l2 s r :
  (∀ x s c, x ∈ l1 → body x s = Ret c → ∃ s', c = Next s') →
  forRange body (l1 ++ l2) s = Ret r →
  ∃ s1, forRange body l1 s = Ret (inl s1) ∧ forRange body l2 s1 = Ret r.
Proof.
  revert s. induction l1 as [|x l1 IH]; intros s Hbody; cbn [app forRange].
  - intros H. by exists s.
  - intros (c & Hc & H)%bind_inv. rewrite Hc, bind_Ret.
    destruct (Hbody x s c) as [s' ->]; [left|done|].
    apply IH; [|done]. intros y s0 c0 Hy. apply Hbody. by right.
Qed.

Lemma encapRow_next columns row chassis c :
  GetChassis_encapRow columns row chassis = Ret c → ∃ cs, c = Next cs.
Proof.
  intros [->|(u & p & n & ip & _ & ->)]%encapRow_spec; by eexists.
Qed.

Lemma encap_loop_keys columns rows cs r :
  forRange (GetChassis_encapRow columns) rows cs = Ret r →
  ∃ cs', r = inl cs' ∧ chassisKey <$> cs' = chassisKey <$> cs.
Proof.
  apply (forRange_invariant (λ cs', chassisKey <$> cs' = chassisKey <$> cs));
    [|done].
  intros row cs0 c _ Hkey
    [->|(u & p & n & ip & _ & ->)]%encapRow_spec; eexists; (split; [done|]);
    [done|]. by rewrite join_key.
Qed.

Lemma encap_loop_at columns rows cs r i x :
  cs !! i = Some x →
  (∀ row, row ∈ rows → ¬ endpointFor columns row x) →
  forRange (GetChassis_encapRow columns) rows cs = Ret r →
  ∃ cs', r = inl cs' ∧ cs' !! i = Some x.
Proof.
  intros Hi Hnone.
  apply (forRange_invariant (λ cs', cs' !! i = Some x)); [|done].
  intros row cs0 c Hin Hx
    [->|(u & p & n & ip & Hdec & ->)]%encapRow_spec; eexists; (split; [done|]);
    [done|].
  apply join_lookup_other; [done|]. intros [<- <-].
  apply (Hnone row Hin). by exists p, ip.
Qed.

Lemma firstWithKey_keys cs cs' i c :
  chassisKey <$> cs' = chassisKey <$> cs →
  firstWithKey cs i c →
  ∃ c', cs' !! i = Some c' ∧ chassisKey c' = chassisKey c
    ∧ ∀ j d, j < i → cs' !! j = Some d →
        ¬ (Encaps_UUID d = Encaps_UUID c ∧ Name d = Name c).
Proof.
  intros Hkey [Hi Hfirst].
  assert (∀ j d', cs' !! j = Some d' →
            ∃ d, cs !! j = Some d ∧ chassisKey d = chassisKey d') as Hback.
  { intros j d' Hj.
    assert ((chassisKey <$> cs) !! j = Some (chassisKey d')) as Hj'.
    { by rewrite <- Hkey, list_lookup_fmap, Hj. }
    apply list_lookup_fmap_Some in Hj' as (d & ? & ?). by exists d. }
  assert ((chassisKey <$> cs') !! i = Some (chassisKey c)) as Hi'.
  { by rewrite Hkey, list_lookup_fmap, Hi. }
  apply list_lookup_fmap_Some in Hi' as (c' & Hc' & Hk).
  exists c'. split; [done|]. split; [done|].
  intros j d' Hj Hd'. destruct (Hback j d' Hd') as (d & Hd & [= _ Hn He]).
  rewrite <- Hn, <- He. by apply (Hfirst j d).
Qed.

(** Phases two and three of GetChassis after a phase one that built
    [cs1], on an Encap query that succeeds with rows and cells that agree
    with their tags. *)
Lemma GetChassis_after_base cli cs1 encap :
  GetChassis_base cli = Ret (inl cs1) →
  southbound cli queryEncap = inl encap →
  0 < length (Rows encap) →
  rowsWellTagged encap ["_uuid"; "type"; "chassis_name"; "ip"] = true →
  privateWellTagged cli = true →
  ∃ cs2,
    forRange (GetChassis_encapRow (Columns encap)) (Rows encap) cs1
    = Ret (inl cs2)
    ∧ ((∃ err, southbound cli queryPrivate = inr err
               ∧ GetChassis cli = Ret (cs2, None))
       ∨ (∃ private maps,
            southbound cli queryPrivate = inl private
            ∧ GetChassis_index private = Ret (inl maps)
            ∧ GetChassis cli = Ret (GetChassis_resolve maps <$> cs2, None))).
Proof.
  intros Hphase1 Hencap Hne Hwe Hwp.
  destruct (forRange_returns (GetChassis_encapRow (Columns encap))
              (Rows encap) cs1) as [r2 Hr2].
  { intros row cs Hin. by eapply encapRow_returns, rowsWellTagged_elem. }
  destruct (encap_loop_keys _ _ _ _ Hr2) as (cs2 & -> & _).
  assert (GetChassis_encap cli cs1 = Ret (inl cs2)) as Hphase2.
  { unfold GetChassis_encap. cbv zeta.
    unfold southbound, queryEncap in Hencap. rewrite Hencap.
    destruct (decide _); [lia|done]. }
  exists cs2. split; [done|].
  unfold GetChassis. rewrite Hphase1, bind_Ret, Hphase2, bind_Ret.
  unfold GetChassis_private, privateWellTagged, southbound, queryPrivate
    in *. cbv zeta.
  destruct (Transact _ _ "SELECT chassis, name, nb_cfg, nb_cfg_timestamp FROM Chassis_Private")
    as [private|err]; [|left; by exists err].
  destruct (index_returns _ Hwp) as [maps Hindex]. right.
  exists private, maps. by rewrite Hindex.
Qed.

Lemma GetChassis_base_runs cli base :
  southbound cli queryChassis = inl base →
  0 < length (Rows base) →
  rowsWellTagged base ["_uuid"; "name"; "encaps"] = true →
  ∃ cs1,
    forRange (GetChassis_chassisRow (Columns base)) (Rows base) []
    = Ret (inl cs1)
    ∧ GetChassis_base cli = Ret (inl cs1).
Proof.
  intros Hbase Hnb Hwb.
  destruct (forRange_returns (GetChassis_chassisRow (Columns base))
              (Rows base) []) as [r1 Hr1].
  { intros row cs Hin. by eapply chassisRow_returns, rowsWellTagged_elem. }
  destruct (base_loop_keys _ _ _ _ Hr1) as (cs1 & -> & _).
  rewrite app_nil_l in Hr1. exists cs1. split; [done|].
  unfold GetChassis_base. cbv zeta.
  unfold southbound, queryChassis in Hbase. rewrite Hbase.
  destruct (decide _); [lia|done].
Qed.

(** The chassis GetChassis returns are the rows of Chassis whose three
    columns decode as strings, one chassis a row, in the order of the
    rows: a row that does not decode is left out without an error, and
    neither the Encap rows nor the Chassis_Private rows add, drop or
    reorder a chassis. *)
Theorem GetChassis_rows_in_order cli base encap :
  southbound cli queryChassis = inl base →
  southbound cli queryEncap = inl encap →
  0 < length (Rows base) →
  0 < length (Rows encap) →
  rowsWellTagged base ["_uuid"; "name"; "encaps"] = true →
  rowsWellTagged encap ["_uuid"; "type"; "chassis_name"; "ip"] = true →
  privateWellTagged cli = true →
  ∃ chassis,
    GetChassis cli = Ret (chassis, None)
    ∧ chassisKey <$> chassis = omap (baseKey (Columns base)) (Rows base)
    ∧ length chassis ≤ length (Rows base).
Proof.
  intros Hbase Hencap Hnb Hne Hwb Hwe Hwp.
  destruct (GetChassis_base_runs cli base) as (cs1 & Hr1 & Hphase1);
    [done..|].
  destruct (GetChassis_after_base cli cs1 encap) as (cs2 & Hr2 & Hrun);
    [done..|].
  apply base_loop_keys in Hr1 as (cs & [= <-] & Hk1).
  apply encap_loop_keys in Hr2 as (? & [= <-] & Hk2).
  assert (∀ chassis, chassisKey <$> chassis = chassisKey <$> cs2 →
            chassisKey <$> chassis = omap (baseKey (Columns base)) (Rows base)
            ∧ length chassis ≤ length (Rows base)) as Hkeys.
  { intros chassis Hk. rewrite Hk, Hk2, Hk1. split; [done|].
    rewrite <- (length_fmap chassisKey), Hk, Hk2, Hk1.
    apply omap_length_le. }
  destruct Hrun as [(err & _ & ->)|(private & maps & _ & _ & ->)];
    eexists; (split; [done|]); apply Hkeys; [done|].
  rewrite <- list_fmap_compose. apply list_fmap_ext.
  intros ? c _. apply resolve_key.
Qed.

(** The endpoint of a chassis. When a row of Encap decodes and carries the
    encap reference and the name of a chassis of phase one, no later row of
    Encap does, and the chassis is the first one with that reference and
    that name, GetChassis returns that chassis, at its place in the list,
    with the parsed address and the protocol of the row: the last matching
    endpoint row counts. *)
Theorem GetChassis_endpoint cli encap cs1 i c before row after
    encapProto chassisIPAddress :
  GetChassis_base cli = Ret (inl cs1) →
  firstWithKey cs1 i c →
  southbound cli queryEncap = inl encap →
  rowsWellTagged encap ["_uuid"; "type"; "chassis_name"; "ip"] = true →
  privateWellTagged cli = true →
  Rows encap = before ++ row :: after →
  encapRowDecodes (Columns encap) row (Encaps_UUID c) encapProto (Name c)
    chassisIPAddress →
  (∀ row', row' ∈ after → ¬ endpointFor (Columns encap) row' c) →
  ∃ chassis c',
    GetChassis cli = Ret (chassis, None)
    ∧ chassis !! i = Some c'
    ∧ chassisKey c' = chassisKey c
    ∧ IPAddress c' = ParseIP chassisIPAddress
    ∧ Encaps_Proto c' = encapProto.
Proof.
  intros Hphase1 Hfirst Hencap Hwe Hwp Hrows Hdec Hnone.
  assert (0 < length (Rows encap)) as Hne.
  { rewrite Hrows, length_app. cbn [length]. lia. }
  destruct (GetChassis_after_base cli cs1 encap) as (cs2 & Hr2 & Hrun);
    [done..|].
  rewrite Hrows in Hr2.
  apply forRange_app in Hr2 as (csa & Hra & Hr2);
    [|intros ????; apply encapRow_next].
  cbn [forRange] in Hr2. apply bind_inv in Hr2 as (cb & Hrow & Hr2).
  apply encap_loop_keys in Hra as (? & [= <-] & Hka).
  destruct (firstWithKey_keys cs1 csa i c Hka Hfirst)
    as (ca & Hia & Hkc & Hfa).
  injection Hkc as Hu Hn He.
  assert (cb = Next (GetChassis_join (Encaps_UUID c) encapProto (Name c)
                       chassisIPAddress csa)) as ->.
  { revert Hrow. unfold GetChassis_encapRow.
    destruct Hdec as (-> & -> & -> & ->). rewrite !bind_Ret. congruence. }
  set (x := withEncap (ParseIP chassisIPAddress) encapProto ca).
  assert (GetChassis_join (Encaps_UUID c) encapProto (Name c)
            chassisIPAddress csa !! i = Some x) as Hib.
  { by apply join_lookup_first. }
  apply (encap_loop_at _ _ _ _ i x) in Hr2 as (? & [= <-] & Hi2);
    [|done|].
  2:{ intros row' Hin (p & ip & Hd). apply (Hnone row' Hin). exists p, ip.
      cbn [x withEncap Encaps_UUID Name] in Hd. by rewrite <- He, <- Hn. }
  assert (chassisKey x = chassisKey c) as Hkx.
  { unfold chassisKey. cbn [x withEncap UUID Name Encaps_UUID]. congruence. }
  destruct Hrun as [(err & _ & ->)|(private & maps & _ & _ & ->)].
  - exists cs2, x. by repeat (split; [done|]).
  - exists (GetChassis_resolve maps <$> cs2), (GetChassis_resolve maps x).
    split; [done|]. split; [by rewrite list_lookup_fmap, Hi2|].
    split; [by rewrite resolve_key|].
    destruct (resolve_endpoint maps x) as [-> ->]. done.
Qed.

(** GetChassis fails in four cases only, and then returns no chassis: the
    Chassis query fails or has no row, or the Encap query fails or has no
    row. A row that does not decode and a failure of the Chassis_Private
    query are never an error, and no error comes with a non-empty list. *)
Theorem GetChassis_errors cli chassis err :
  GetChassis cli = Ret (chassis, Some err) →
  chassis = []
  ∧ ((∃ e, southbound cli queryChassis = inr e
           ∧ err = errTable (Southbound_Name cli) "Chassis" e)
     ∨ (∃ base, southbound cli queryChassis = inl base ∧ Rows base = []
                ∧ err = errNoChassis (Southbound_Name cli))
     ∨ (∃ e, southbound cli queryEncap = inr e
             ∧ err = errTable (Southbound_Name cli) "Encap" e)
     ∨ (∃ encap, southbound cli queryEncap = inl encap ∧ Rows encap = []
                 ∧ err = errNoChassis (Southbound_Name cli))).
Proof.
  unfold GetChassis.
  intros (r1 & Hr1 & H)%bind_inv.
  destruct r1 as [cs1|ret].
  - apply bind_inv in H as (r2 & Hr2 & H). destruct r2 as [cs2|ret].
    + revert H. unfold GetChassis_private. cbv zeta.
      destruct (Transact _ _ _) as [private|]; [|done].
      intros (r3 & [maps ->]%index_inl & H)%bind_inv. done.
    + injection H as ->. revert Hr2.
      unfold GetChassis_encap, southbound, queryEncap. cbv zeta.
      destruct (Transact _ _ _) as [encap|e].
      * destruct (decide (length (Rows encap) = 0)) as [Hz|].
        { intros [= <- <-]. split; [done|]. do 3 right. exists encap.
          split; [done|]. split; [|done]. by apply nil_length_inv. }
        by intros (? & [=] & _)%encap_loop_keys.
      * intros [= <- <-]. split; [done|]. do 2 right. left. by exists e.
  - injection H as ->. revert Hr1.
    unfold GetChassis_base, southbound, queryChassis. cbv zeta.
    destruct (Transact _ _ _) as [base|e].
    + destruct (decide (length (Rows base) = 0)) as [Hz|].
      { intros [= <- <-]. split; [done|]. right. left. exists base.
        split; [done|]. split; [|done]. by apply nil_length_inv. }
      by intros (? & [=] & _)%base_loop_keys.
    + intros [= <- <-]. split; [done|]. left. by exists e.
Qed.


End GetChassis_more.

(** ** MapPortToChassis on any list of ports *)

Lemma withSwitches_withPorts c ps sws ps' sws' :
  withSwitches
    (Switches (withSwitches (Switches c ++ sws) (withPorts (Ports c ++ ps) c))
     ++ sws')
    (withPorts
       (Ports (withSwitches (Switches c ++ sws) (withPorts (Ports c ++ ps) c))
        ++ ps')
       (withSwitches (Switches c ++ sws) (withPorts (Ports c ++ ps) c)))
  = withSwitches (Switches c ++ sws ++ sws')
      (withPorts (Ports c ++ ps ++ ps') c).
Proof.
  unfold withSwitches, withPorts. cbn. by rewrite <- !app_assoc.
Qed.

Lemma withSwitches_withPorts_nil c :
  withSwitches (Switches c ++ []) (withPorts (Ports c ++ []) c) = c.
Proof. destruct c. unfold withSwitches, withPorts. cbn. by rewrite !app_nil_r. Qed.

Lemma MapPortToChassis_port_inv portMap p h switchMap c :
  MapPortToChassis_port portMap p (h, switchMap) = Ret c →
  ∃ lsp h1 switchMap1,
    portAt h !! p = Some lsp
    ∧ c = Next (h1, switchMap1)
    ∧ ((portMap !! lsp_ChassisUUID lsp = None ∧ h1 = h ∧ switchMap1 = switchMap)
       ∨ ∃ vtep ch new,
           portMap !! lsp_ChassisUUID lsp = Some vtep
           ∧ chassisAt h !! vtep = Some ch
           ∧ chassisAt h1
             = <[vtep := withSwitches (Switches ch ++ new)
                           (withPorts (Ports ch ++ [lsp_UUID lsp]) ch)]>
                 (chassisAt h)
           ∧ portAt h1 = <[p := annotate ch lsp]> (portAt h)
           ∧ ((switchMap !! lsp_LogicalSwitchUUID lsp = None
               ∧ new = [lsp_LogicalSwitchUUID lsp]
               ∧ switchMap1 = <[lsp_LogicalSwitchUUID lsp := true]> switchMap)
              ∨ (is_Some (switchMap !! lsp_LogicalSwitchUUID lsp)
                 ∧ new = [] ∧ switchMap1 = switchMap))).
Proof.
  destruct (portAt h !! p) as [lsp|] eqn:Hp.
  2:{ unfold MapPortToChassis_port, loadPort. cbv beta iota zeta.
      by rewrite Hp. }
  destruct (portMap !! lsp_ChassisUUID lsp) as [vtep|] eqn:Hm.
  2:{ unfold MapPortToChassis_port, loadPort. cbv beta iota zeta.
      rewrite Hp, bind_Ret, Hm. intros [= <-].
      exists lsp, h, switchMap. split; [done|]. split; [done|]. by left. }
  destruct (chassisAt h !! vtep) as [ch|] eqn:Hc.
  2:{ unfold MapPortToChassis_port, loadPort, loadChassis.
      cbv beta iota zeta. by rewrite Hp, bind_Ret, Hm, Hc. }
  rewrite (MapPortToChassis_port_step _ _ _ _ lsp vtep ch) by done.
  intros [= <-].
  destruct (switchMap !! lsp_LogicalSwitchUUID lsp) as [b|] eqn:Hs.
  - eexists lsp, _, _. split; [done|]. split; [done|]. right.
    exists vtep, ch, []. split; [done|]. split; [done|]. cbn [chassisAt portAt].
    split; [|split; [done|right; by eauto]].
    f_equal. destruct ch. unfold withSwitches, withPorts. cbn.
    by rewrite app_nil_r.
  - eexists lsp, _, _. split; [done|]. split; [done|]. right.
    exists vtep, ch, [lsp_LogicalSwitchUUID lsp]. split; [done|].
    split; [done|]. cbn [chassisAt portAt]. split; [done|].
    split; [done|]. by left.
Qed.

Lemma annotate_same c1 c lsp :
  Encaps_Proto c1 = Encaps_Proto c → IPAddress c1 = IPAddress c →
  annotate c1 lsp = annotate c lsp
  ∧ annotate c1 (annotate c lsp) = annotate c lsp.
Proof. unfold annotate. cbn. by intros -> ->. Qed.

Lemma annotated_idemp h portMap lsp :
  annotated h portMap (annotated h portMap lsp) = annotated h portMap lsp.
Proof.
  unfold annotated.
  destruct (portMap !! lsp_ChassisUUID lsp) as [v|] eqn:Hm; [|by rewrite Hm].
  destruct (chassisAt h !! v) as [c|] eqn:Hv; [|by rewrite Hm, Hv].
  cbn [annotate lsp_ChassisUUID]. by rewrite Hm, Hv.
Qed.

(** Ports that agree on the fields MapPortToChassis reads. *)
Lemma portsOn_ext h1 h portMap vtep ports :
  (∀ q, match portAt h !! q with
        | Some lsp =>
          ∃ lsp', portAt h1 !! q = Some lsp'
                  ∧ lsp_UUID lsp' = lsp_UUID lsp
                  ∧ lsp_ChassisUUID lsp' = lsp_ChassisUUID lsp
        | None => portAt h1 !! q = None
        end) →
  portsOn h1 portMap vtep ports = portsOn h portMap vtep ports.
Proof.
  intros Hsame. unfold portsOn. induction ports as [|q ports IH]; [done|].
  cbn [omap list_omap]. rewrite IH. specialize (Hsame q).
  destruct (portAt h !! q) as [lsp|].
  - destruct Hsame as (lsp' & -> & -> & ->). done.
  - by rewrite Hsame.
Qed.

Lemma MapPortToChassis_loop portMap ports h switchMap r :
  forRange (MapPortToChassis_port portMap) ports (h, switchMap) = Ret r →
  ∃ h' switchMap' (added : ptr → list string),
    r = inl (h', switchMap')
    ∧ (∀ v, match chassisAt h !! v with
            | Some c =>
              chassisAt h' !! v
              = Some (withSwitches (Switches c ++ added v)
                        (withPorts (Ports c ++ portsOn h portMap v ports) c))
            | None => chassisAt h' !! v = None ∧ added v = []
            end)
    ∧ (∀ p, match portAt h !! p with
            | Some lsp =>
              portAt h' !! p
              = Some (if decide (p ∈ ports) then annotated h portMap lsp
                      else lsp)
            | None => portAt h' !! p = None
            end)
    ∧ (∀ v sw, sw ∈ added v →
         switchMap !! sw = None ∧ is_Some (switchMap' !! sw))
    ∧ (∀ v, NoDup (added v))
    ∧ (∀ v1 v2 sw, sw ∈ added v1 → sw ∈ added v2 → v1 = v2)
    ∧ (∀ sw, is_Some (switchMap' !! sw) →
         is_Some (switchMap !! sw) ∨ ∃ v, sw ∈ added v)
    ∧ (∀ sw, is_Some (switchMap !! sw) → is_Some (switchMap' !! sw))
    ∧ (∀ p lsp v, p ∈ ports → portAt h !! p = Some lsp →
         portMap !! lsp_ChassisUUID lsp = Some v →
         is_Some (switchMap' !! lsp_LogicalSwitchUUID lsp))
    ∧ (∀ v sw, sw ∈ added v →
         ∃ p lsp, p ∈ ports ∧ portAt h !! p = Some lsp
                  ∧ portMap !! lsp_ChassisUUID lsp = Some v
                  ∧ lsp_LogicalSwitchUUID lsp = sw).
Proof.
  revert h switchMap. induction ports as [|p0 ports IH]; intros h sm;
    cbn [forRange].
  - intros H. injection H as <-. exists h, sm, (λ _, []).
    split; [done|].
    split; [|split; [|split; [|split; [|split; [|split; [|split; [|split]]]]]]].
    + intros v. destruct (chassisAt h !! v) as [c|] eqn:Hc; [|done].
      by rewrite withSwitches_withPorts_nil.
    + intros p. destruct (portAt h !! p); [|done].
      destruct (decide (p ∈ [])) as [Hin|]; [by apply elem_of_nil in Hin|done].
    + by intros v sw ?%elem_of_nil.
    + intros v. constructor.
    + by intros v1 v2 sw ?%elem_of_nil.
    + intros sw ?. by left.
    + done.
    + by intros p lsp v ?%elem_of_nil.
    + by intros v sw ?%elem_of_nil.
  - intros (c & Hc & H)%bind_inv.
    apply MapPortToChassis_port_inv in Hc
      as (lsp0 & h1 & sm1 & Hp0 & -> & Hstep).
    apply IH in H as (h' & sm' & added1 & -> & Hch & Hpt & Hnew & Hnd & Hdisj
                      & Horigin & Hmono & Hseen & Hfrom).
    destruct Hstep as [(Hm0 & -> & ->)
                      |(vtep & ch & new & Hm0 & Hch0 & Hch1 & Hpt1 & Hsw)].
    + (* the port refers to no chassis of the lookup *)
      exists h', sm', added1. split; [done|].
      assert (∀ v, portsOn h portMap v (p0 :: ports)
                   = portsOn h portMap v ports) as Hon.
      { intros v. unfold portsOn. cbn [omap list_omap]. by rewrite Hp0, Hm0. }
      split; [|split; [|do 5 (split; [done|]); split]].
      * intros v. rewrite Hon. apply Hch.
      * intros p. specialize (Hpt p).
        destruct (portAt h !! p) as [lsp|] eqn:Hp; [|done].
        rewrite Hpt. f_equal.
        destruct (decide (p = p0)) as [->|Hne].
        { assert (lsp = lsp0) as -> by congruence.
          assert (annotated h portMap lsp0 = lsp0) as Ha.
          { unfold annotated. by rewrite Hm0. }
          rewrite Ha. destruct (decide (p0 ∈ p0 :: ports)) as [|Hn];
            [by destruct (decide _)|]. destruct Hn. left. }
        destruct (decide (p ∈ ports)), (decide (p ∈ p0 :: ports));
          set_solver.
      * intros p lsp v [->|Hin]%elem_of_cons Hp Hm; [congruence|].
        by eapply Hseen.
      * intros v sw Hin.
        destruct (Hfrom v sw Hin) as (p & lsp & ? & ? & ? & ?).
        exists p, lsp. split; [by right|done].
    + (* the port refers to the chassis at [vtep] *)
      set (ch1 := withSwitches (Switches ch ++ new)
                    (withPorts (Ports ch ++ [lsp_UUID lsp0]) ch)) in *.
      assert (is_Some (sm1 !! lsp_LogicalSwitchUUID lsp0)
              ∧ (∀ sw, is_Some (sm !! sw) → is_Some (sm1 !! sw))
              ∧ (∀ sw, sm1 !! sw = None → sm !! sw = None)
              ∧ (∀ sw, is_Some (sm1 !! sw) →
                   is_Some (sm !! sw) ∨ sw ∈ new)
              ∧ (∀ sw, sw ∈ new →
                   sm !! sw = None ∧ sw = lsp_LogicalSwitchUUID lsp0))
        as (Hin1 & Hmono1 & Hnone1 & Horigin1 & Hnew1).
      { destruct Hsw as [(Hs & -> & ->)|(Hs & -> & ->)].
        - split; [by rewrite lookup_insert_eq|]. split; [|split; [|split]].
          + intros sw Hsome.
            destruct (decide (sw = lsp_LogicalSwitchUUID lsp0)) as [->|];
              [by rewrite lookup_insert_eq|by rewrite lookup_insert_ne].
          + intros sw.
            destruct (decide (sw = lsp_LogicalSwitchUUID lsp0)) as [->|];
              [by rewrite lookup_insert_eq|by rewrite lookup_insert_ne].
          + intros sw.
            destruct (decide (sw = lsp_LogicalSwitchUUID lsp0)) as [->|];
              [right; left|rewrite lookup_insert_ne by done; by left].
          + intros sw ->%list_elem_of_singleton. done.
        - split; [done|]. split; [done|]. split; [done|].
          split; [by left|]. by intros sw ?%elem_of_nil. }
      assert (∀ q, match portAt h !! q with
                   | Some lsp =>
                     ∃ lsp', portAt h1 !! q = Some lsp'
                             ∧ lsp_UUID lsp' = lsp_UUID lsp
                             ∧ lsp_ChassisUUID lsp' = lsp_ChassisUUID lsp
                             ∧ lsp_LogicalSwitchUUID lsp'
                               = lsp_LogicalSwitchUUID lsp
                             ∧ (q ≠ p0 → lsp' = lsp)
                   | None => portAt h1 !! q = None
                   end) as Hkeys.
      { intros q. rewrite Hpt1.
        destruct (decide (q = p0)) as [->|Hne].
        - rewrite Hp0, lookup_insert_eq. by eexists.
        - rewrite lookup_insert_ne by done.
          destruct (portAt h !! q); [by eexists|done]. }
      assert (∀ v, portsOn h1 portMap v ports = portsOn h portMap v ports)
        as Hon1.
      { intros v. apply portsOn_ext. intros q. specialize (Hkeys q).
        destruct (portAt h !! q); [|done].
        destruct Hkeys as (lsp' & ? & ? & ? & _). by exists lsp'. }
      assert (∀ lsp, annotated h1 portMap lsp = annotated h portMap lsp)
        as Hann1.
      { intros lsp. unfold annotated.
        destruct (portMap !! lsp_ChassisUUID lsp) as [v|]; [|done].
        rewrite Hch1. destruct (decide (v = vtep)) as [->|Hne].
        - rewrite lookup_insert_eq, Hch0.
          by destruct (annotate_same ch1 ch lsp).
        - by rewrite lookup_insert_ne. }
      assert (∀ lsp, annotated h1 portMap lsp = annotated h portMap lsp
                     ∧ annotated h1 portMap (annotated h portMap lsp)
                       = annotated h portMap lsp) as Hann.
      { intros lsp. split; [done|]. by rewrite Hann1, annotated_idemp. }
      exists h', sm', (λ v, if decide (v = vtep) then new ++ added1 v
                            else added1 v).
      split; [done|].
      split; [|split; [|split; [|split; [|split; [|split; [|split; [|split]]]]]]].
      * intros v. specialize (Hch v). rewrite Hch1 in Hch.
        unfold portsOn at 1. cbn [omap list_omap]. rewrite Hp0, Hm0.
        fold (portsOn h portMap v ports).
        destruct (decide (v = vtep)) as [->|Hne].
        -- rewrite lookup_insert_eq in Hch. rewrite Hch0, Hch, Hon1.
           destruct (decide (vtep = vtep)); [|done]. f_equal.
           apply withSwitches_withPorts.
        -- rewrite lookup_insert_ne in Hch by done.
           destruct (decide (vtep = v)); [congruence|].
           destruct (chassisAt h !! v); [by rewrite Hch, Hon1|done].
      * intros p. specialize (Hpt p). specialize (Hkeys p).
        destruct (portAt h !! p) as [lsp|] eqn:Hp.
        2:{ by rewrite Hkeys in Hpt. }
        destruct Hkeys as (lsp' & Hp1 & _ & _ & _ & Hsame).
        rewrite Hp1 in Hpt. rewrite Hpt. f_equal.
        destruct (decide (p = p0)) as [->|Hne].
        -- assert (lsp = lsp0) as -> by congruence.
           assert (lsp' = annotated h portMap lsp0) as ->.
           { rewrite Hpt1, lookup_insert_eq in Hp1. injection Hp1 as <-.
             unfold annotated. by rewrite Hm0, Hch0. }
           destruct (decide (p0 ∈ p0 :: ports)) as [|Hn];
             [|destruct Hn; left].
           destruct (decide (p0 ∈ ports)); [|done].
           by destruct (Hann lsp0).
        -- rewrite (Hsame Hne).
           destruct (decide (p ∈ ports)), (decide (p ∈ p0 :: ports));
             [by destruct (Hann lsp)|set_solver|set_solver|done].
      * intros v sw Hin.
        assert (sw ∈ new ∨ sw ∈ added1 v) as [Hn|Ha].
        { destruct (decide (v = vtep)); [|by right].
          by apply elem_of_app in Hin. }
        -- destruct (Hnew1 sw Hn) as [? ->]. split; [done|].
           by apply Hmono.
        -- destruct (Hnew v sw Ha) as [? ?]. split; [|done].
           by apply Hnone1.
      * intros v. destruct (decide (v = vtep)) as [->|]; [|apply Hnd].
        apply NoDup_app. split; [|split; [|apply Hnd]].
        -- destruct Hsw as [(_ & -> & _)|(_ & -> & _)];
             [apply NoDup_singleton|constructor].
        -- intros sw Hn Ha. destruct (Hnew1 sw Hn) as [_ ->].
           destruct (Hnew vtep _ Ha) as [Hnone _].
           rewrite Hnone in Hin1. by destruct Hin1.
      * intros v1 v2 sw H1 H2.
        assert (∀ v, sw ∈ (if decide (v = vtep) then new ++ added1 v
                           else added1 v) →
                  (v = vtep ∧ sw ∈ new) ∨ sw ∈ added1 v) as Hcases.
        { intros v Hin. destruct (decide (v = vtep)); [|by right].
          apply elem_of_app in Hin as [?|?]; [by left|by right]. }
        assert (sw ∈ new → ∀ v, sw ∉ added1 v) as Hfresh.
        { intros Hn v Ha. destruct (Hnew1 sw Hn) as [_ ->].
          destruct (Hnew v _ Ha) as [Hnone _].
          rewrite Hnone in Hin1. by destruct Hin1. }
        destruct (Hcases v1 H1) as [[-> Hn1]|Ha1],
                 (Hcases v2 H2) as [[-> Hn2]|Ha2]; [done|..].
        -- by destruct (Hfresh Hn1 v2).
        -- by destruct (Hfresh Hn2 v1).
        -- by eapply Hdisj.
      * intros sw Hsome. destruct (Horigin sw Hsome) as [H1|[v Hv]].
        -- destruct (Horigin1 sw H1) as [?|Hn]; [by left|right].
           exists vtep. destruct (decide (vtep = vtep)); [|done].
           apply elem_of_app. by left.
        -- right. exists v. destruct (decide (v = vtep)); [|done].
           apply elem_of_app. by right.
      * intros sw Hsome. by apply Hmono, Hmono1.
      * intros p lsp v [->|Hin]%elem_of_cons Hp Hm.
        -- assert (lsp = lsp0) as -> by congruence. by apply Hmono.
        -- specialize (Hkeys p). rewrite Hp in Hkeys.
           destruct Hkeys as (lsp' & Hp1 & _ & Hcu & Hsu & _).
           rewrite <- Hsu. eapply Hseen; [done..|]. by rewrite Hcu.
      * intros v sw Hin.
        assert ((v = vtep ∧ sw ∈ new) ∨ sw ∈ added1 v) as [[-> Hn]|Ha].
        { destruct (decide (v = vtep)); [|by right].
          apply elem_of_app in Hin as [?|?]; [by left|by right]. }
        -- destruct (Hnew1 sw Hn) as [_ ->]. exists p0, lsp0.
           split; [left|done].
        -- destruct (Hfrom v sw Ha) as (p & lsp' & Hin' & Hp1 & Hm1 & Hs1).
           specialize (Hkeys p).
           destruct (portAt h !! p) as [lsp|] eqn:Hp; [|congruence].
           destruct Hkeys as (lsp'' & Hp1' & _ & Hcu & Hsu & _).
           assert (lsp'' = lsp') as -> by congruence.
           exists p, lsp. split; [by right|]. split; [done|].
           by rewrite <- Hcu, <- Hsu.
Qed.

Lemma MapPortToChassis_portMap_returns vteps h portMap0 :
  (∀ v, v ∈ vteps → is_Some (chassisAt h !! v)) →
  ∃ portMap, forRange (MapPortToChassis_index h) vteps portMap0
             = Ret (inl portMap).
Proof.
  revert portMap0. induction vteps as [|v vteps IH]; intros pm Hvalid;
    cbn [forRange]; [by eexists|].
  destruct (Hvalid v) as [c Hc]; [left|].
  assert (MapPortToChassis_index h v pm = Ret (Next (<[UUID c := v]> pm)))
    as ->.
  { unfold MapPortToChassis_index, loadChassis. by rewrite Hc. }
  rewrite bind_Ret. apply IH. intros v' Hin. apply Hvalid. by right.
Qed.

Lemma MapPortToChassis_portMap_inv vteps h portMap0 portMap :
  forRange (MapPortToChassis_index h) vteps portMap0 = Ret (inl portMap) →
  ∀ k v, portMap !! k = Some v →
    portMap0 !! k = Some v
    ∨ (v ∈ vteps ∧ ∃ c, chassisAt h !! v = Some c ∧ UUID c = k).
Proof.
  revert portMap0. induction vteps as [|v0 vteps IH]; intros pm;
    cbn [forRange].
  - intros H. injection H as <-. by left.
  - intros (c & Hc & H)%bind_inv k v Hk.
    revert Hc. unfold MapPortToChassis_index, loadChassis.
    destruct (chassisAt h !! v0) as [c0|] eqn:Hc0; [|done].
    rewrite bind_Ret. intros [= <-].
    destruct (IH _ H k v Hk) as [Hin|(Hin & c1 & ? & ?)].
    + destruct (decide (UUID c0 = k)) as [<-|Hne].
      * rewrite lookup_insert_eq in Hin. injection Hin as <-.
        right. split; [left|by exists c0].
      * rewrite lookup_insert_ne in Hin by done. by left.
    + right. split; [by right|by exists c1].
Qed.

(** The lookup sends the UUID of a chassis of the list to the last
    chassis of the list with that UUID. *)
Lemma MapPortToChassis_portMap_last before v after h portMap0 portMap c :
  forRange (MapPortToChassis_index h) (before ++ v :: after) portMap0
  = Ret (inl portMap) →
  chassisAt h !! v = Some c →
  (∀ v' c', v' ∈ after → chassisAt h !! v' = Some c' → UUID c' ≠ UUID c) →
  portMap !! UUID c = Some v.
Proof.
  revert portMap0. induction before as [|v0 before IH]; intros pm;
    cbn [app forRange].
  - intros (x & Hx & H)%bind_inv Hc Hlast. revert Hx.
    unfold MapPortToChassis_index, loadChassis. rewrite Hc, bind_Ret.
    intros [= <-].
    assert (∀ pm', pm' !! UUID c = Some v →
              forRange (MapPortToChassis_index h) after pm'
              = Ret (inl portMap) → portMap !! UUID c = Some v) as Hkeep.
    { clear H. induction after as [|v1 after IHa]; intros pm' Hpm';
        cbn [forRange].
      - by intros [= <-].
      - intros (x & Hx & H)%bind_inv. revert Hx.
        unfold MapPortToChassis_index, loadChassis.
        destruct (chassisAt h !! v1) as [c1|] eqn:Hc1; [|done].
        rewrite bind_Ret. intros [= <-].
        eapply IHa; [| |exact H].
        + intros v' c' Hin. apply Hlast. by right.
        + rewrite lookup_insert_ne; [done|]. apply (Hlast v1); [left|done]. }
    eapply Hkeep; [|exact H]. by rewrite lookup_insert_eq.
  - intros (x & Hx & H)%bind_inv Hc Hlast. revert Hx.
    unfold MapPortToChassis_index, loadChassis.
    destruct (chassisAt h !! v0) as [c0|]; [|done].
    rewrite bind_Ret. intros [= <-]. by eapply IH.
Qed.

Lemma MapPortToChassis_loop_returns portMap ports h switchMap :
  (∀ k v, portMap !! k = Some v → is_Some (chassisAt h !! v)) →
  (∀ p, p ∈ ports → is_Some (portAt h !! p)) →
  ∃ r, forRange (MapPortToChassis_port portMap) ports (h, switchMap) = Ret r.
Proof.
  revert h switchMap. induction ports as [|p0 ports IH];
    intros h sm Hpm Hports; cbn [forRange]; [by eexists|].
  destruct (Hports p0) as [lsp0 Hp0]; [left|].
  destruct (portMap !! lsp_ChassisUUID lsp0) as [vtep|] eqn:Hm.
  - destruct (Hpm _ _ Hm) as [ch Hch].
    rewrite (MapPortToChassis_port_step _ _ _ _ lsp0 vtep ch), bind_Ret
      by done.
    destruct (sm !! lsp_LogicalSwitchUUID lsp0); apply IH; cbn [chassisAt portAt].
    all: try (intros k v Hk; destruct (decide (v = vtep)) as [->|];
              [by rewrite lookup_insert_eq
              |rewrite lookup_insert_ne by done; by eapply Hpm]).
    all: intros p Hin; destruct (decide (p = p0)) as [->|];
           [by rewrite lookup_insert_eq
           |rewrite lookup_insert_ne by done; apply Hports; by right].
  - assert (MapPortToChassis_port portMap p0 (h, sm) = Ret (Next (h, sm)))
      as ->.
    { unfold MapPortToChassis_port, loadPort. cbv beta iota zeta.
      by rewrite Hp0, bind_Ret, Hm. }
    rewrite bind_Ret. apply IH; [done|].
    intros p Hin. apply Hports. by right.
Qed.

(** MapPortToChassis on pointers that are not nil: it returns, and the
    heap it leaves is described by the loop over the ports started on the
    lookup of the chassis. *)
Lemma MapPortToChassis_runs vteps ports h :
  (∀ v, v ∈ vteps → is_Some (chassisAt h !! v)) →
  (∀ p, p ∈ ports → is_Some (portAt h !! p)) →
  ∃ portMap h' switchMap',
    MapPortToChassis_portMap vteps h = Ret (inl portMap)
    ∧ forRange (MapPortToChassis_port portMap) ports (h, ∅)
      = Ret (inl (h', switchMap'))
    ∧ MapPortToChassis vteps ports h = Ret h'.
Proof.
  intros Hvteps Hports.
  destruct (MapPortToChassis_portMap_returns vteps h ∅ Hvteps)
    as [portMap Hpm].
  destruct (MapPortToChassis_loop_returns portMap ports h ∅) as [r Hr];
    [|done|].
  { intros k v Hk.
    destruct (MapPortToChassis_portMap_inv _ _ _ _ Hpm k v Hk)
      as [?|[Hin _]]; [done|]. by apply Hvteps. }
  destruct (MapPortToChassis_loop _ _ _ _ _ Hr)
    as (h' & sm' & added & -> & _).
  exists portMap, h', sm'. split; [done|]. split; [done|].
  unfold MapPortToChassis, MapPortToChassis_portMap.
  by rewrite Hpm, bind_Ret, Hr, bind_Ret.
Qed.

Lemma MapPortToChassis_portMap_unique vteps h portMap v c :
  MapPortToChassis_portMap vteps h = Ret (inl portMap) →
  v ∈ vteps → chassisAt h !! v = Some c →
  (∀ v' c', v' ∈ vteps → chassisAt h !! v' = Some c' → UUID c' = UUID c →
     v' = v) →
  portMap !! UUID c = Some v.
Proof.
  intros Hpm Hin Hc Huniq.
  destruct (list_elem_of_split_r vteps v Hin) as (before & after & -> & Hnot).
  eapply MapPortToChassis_portMap_last; [exact Hpm|done|].
  intros v' c' Hin' Hc' Heq.
  assert (v' = v) as ->; [|done].
  apply (Huniq v' c'); [|done..]. apply elem_of_app. right. by right.
Qed.

Lemma MapPortToChassis_portMap_unknown vteps h portMap k :
  MapPortToChassis_portMap vteps h = Ret (inl portMap) →
  (∀ v c, v ∈ vteps → chassisAt h !! v = Some c → UUID c ≠ k) →
  portMap !! k = None.
Proof.
  intros Hpm Hnone. destruct (portMap !! k) as [v|] eqn:Hk; [|done].
  destruct (MapPortToChassis_portMap_inv _ _ _ _ Hpm k v Hk)
    as [?|(Hin & c & Hc & Hu)]; [done|].
  by destruct (Hnone v c).
Qed.

(** The ports of a chassis. On chassis and ports that are not nil,
    MapPortToChassis returns, and every chassis of the heap has afterwards
    the ports it had, followed by the UUIDs of the ports of the list whose
    chassis UUID the lookup sends to it, in the order of the list: one
    entry for every such port, a port that is twice in the list twice. *)
Theorem MapPortToChassis_chassis_ports vteps ports h :
  (∀ v, v ∈ vteps → is_Some (chassisAt h !! v)) →
  (∀ p, p ∈ ports → is_Some (portAt h !! p)) →
  ∃ portMap h',
    MapPortToChassis_portMap vteps h = Ret (inl portMap)
    ∧ MapPortToChassis vteps ports h = Ret h'
    ∧ ∀ v c, chassisAt h !! v = Some c →
        ∃ c', chassisAt h' !! v = Some c'
              ∧ Ports c' = Ports c ++ portsOn h portMap v ports.
Proof.
  intros Hvteps Hports.
  destruct (MapPortToChassis_runs vteps ports h Hvteps Hports)
    as (portMap & h' & sm' & Hpm & Hloop & Hrun).
  exists portMap, h'. split; [done|]. split; [done|].
  destruct (MapPortToChassis_loop _ _ _ _ _ Hloop)
    as (? & ? & added & [= <- <-] & Hch & _).
  intros v c Hc. specialize (Hch v). rewrite Hc in Hch.
  eexists. split; [exact Hch|done].
Qed.

(** What MapPortToChassis leaves alone. On chassis and ports that are not
    nil it returns; it creates and removes no chassis and no port; of a
    chassis it changes Ports and Switches only, and these by appending; of
    a port it changes the encapsulation and the chassis address only, and
    a port that is not in the list it does not change at all. *)
Theorem MapPortToChassis_frame vteps ports h :
  (∀ v, v ∈ vteps → is_Some (chassisAt h !! v)) →
  (∀ p, p ∈ ports → is_Some (portAt h !! p)) →
  ∃ h',
    MapPortToChassis vteps ports h = Ret h'
    ∧ (∀ v, chassisAt h !! v = None → chassisAt h' !! v = None)
    ∧ (∀ v c, chassisAt h !! v = Some c →
         ∃ c' ps sws,
           chassisAt h' !! v = Some c'
           ∧ UUID c' = UUID c ∧ Name c' = Name c
           ∧ IPAddress c' = IPAddress c
           ∧ Encaps_UUID c' = Encaps_UUID c
           ∧ Encaps_Proto c' = Encaps_Proto c
           ∧ NbCfg c' = NbCfg c ∧ NbCfgTimestamp c' = NbCfgTimestamp c
           ∧ Ports c' = Ports c ++ ps
           ∧ Switches c' = Switches c ++ sws)
    ∧ (∀ p, portAt h !! p = None → portAt h' !! p = None)
    ∧ (∀ p lsp, portAt h !! p = Some lsp →
         ∃ lsp',
           portAt h' !! p = Some lsp'
           ∧ lsp_UUID lsp' = lsp_UUID lsp
           ∧ lsp_ChassisUUID lsp' = lsp_ChassisUUID lsp
           ∧ lsp_LogicalSwitchUUID lsp' = lsp_LogicalSwitchUUID lsp
           ∧ (p ∉ ports → lsp' = lsp)).
Proof.
  intros Hvteps Hports.
  destruct (MapPortToChassis_runs vteps ports h Hvteps Hports)
    as (portMap & h' & sm' & Hpm & Hloop & Hrun).
  exists h'. split; [done|].
  destruct (MapPortToChassis_loop _ _ _ _ _ Hloop)
    as (? & ? & added & [= <- <-] & Hch & Hpt & _).
  split; [|split; [|split]].
  - intros v Hv. specialize (Hch v). rewrite Hv in Hch. by destruct Hch.
  - intros v c Hc. specialize (Hch v). rewrite Hc in Hch.
    eexists _, _, _. split; [exact Hch|]. by repeat split.
  - intros p Hp. specialize (Hpt p). by rewrite Hp in Hpt.
  - intros p lsp Hp. specialize (Hpt p). rewrite Hp in Hpt.
    eexists. split; [exact Hpt|].
    destruct (decide (p ∈ ports)) as [Hin|Hnot].
    + unfold annotated.
      destruct (portMap !! lsp_ChassisUUID lsp) as [v|]; [|done].
      by destruct (chassisAt h !! v).
    + done.
Qed.

(** The annotation of the ports. On chassis and ports that are not nil
    MapPortToChassis returns, and a port of the list whose chassis UUID is
    the UUID of a chassis of the first list (of that chassis only) has
    afterwards the encapsulation protocol and the address of that chassis;
    a port whose chassis UUID is the UUID of no chassis of the first list
    is as it was. *)
Theorem MapPortToChassis_port_annotation vteps ports h :
  (∀ v, v ∈ vteps → is_Some (chassisAt h !! v)) →
  (∀ p, p ∈ ports → is_Some (portAt h !! p)) →
  ∃ h',
    MapPortToChassis vteps ports h = Ret h'
    ∧ (∀ p lsp v c,
         p ∈ ports → portAt h !! p = Some lsp →
         v ∈ vteps → chassisAt h !! v = Some c →
         UUID c = lsp_ChassisUUID lsp →
         (∀ v' c', v' ∈ vteps → chassisAt h !! v' = Some c' →
            UUID c' = UUID c → v' = v) →
         portAt h' !! p = Some (annotate c lsp))
    ∧ (∀ p lsp,
         portAt h !! p = Some lsp →
         (∀ v c, v ∈ vteps → chassisAt h !! v = Some c →
            UUID c ≠ lsp_ChassisUUID lsp) →
         portAt h' !! p = Some lsp).
Proof.
  intros Hvteps Hports.
  destruct (MapPortToChassis_runs vteps ports h Hvteps Hports)
    as (portMap & h' & sm' & Hpm & Hloop & Hrun).
  exists h'. split; [done|].
  destruct (MapPortToChassis_loop _ _ _ _ _ Hloop)
    as (? & ? & added & [= <- <-] & _ & Hpt & _).
  split.
  - intros p lsp v c Hin Hp Hv Hc Hu Huniq. specialize (Hpt p).
    rewrite Hp in Hpt. rewrite Hpt. destruct (decide _); [|done].
    unfold annotated.
    by rewrite <- Hu,
      (MapPortToChassis_portMap_unique vteps h portMap v c), Hc.
  - intros p lsp Hp Hnone. specialize (Hpt p). rewrite Hp in Hpt.
    rewrite Hpt. destruct (decide _); [|done]. unfold annotated.
    by rewrite (MapPortToChassis_portMap_unknown vteps h portMap).
Qed.

(** A switch is recorded once in a call. On chassis and ports that are
    not nil MapPortToChassis returns and appends to the Switches of every
    chassis a list of switch UUIDs such that: no appended list has a switch
    twice; no switch is in the appended lists of two chassis; a switch is
    appended to a chassis only if a port of the list lies on that chassis
    and belongs to that switch; and the switch of every port of the list
    that lies on a chassis of the lookup is appended to some chassis. So,
    of the ports of one switch that lie on several chassis, one chassis
    only gets the switch. *)
Theorem MapPortToChassis_switch_once vteps ports h :
  (∀ v, v ∈ vteps → is_Some (chassisAt h !! v)) →
  (∀ p, p ∈ ports → is_Some (portAt h !! p)) →
  ∃ portMap h' (added : ptr → list string),
    MapPortToChassis_portMap vteps h = Ret (inl portMap)
    ∧ MapPortToChassis vteps ports h = Ret h'
    ∧ (∀ v c, chassisAt h !! v = Some c →
         ∃ c', chassisAt h' !! v = Some c'
               ∧ Switches c' = Switches c ++ added v)
    ∧ (∀ v, NoDup (added v))
    ∧ (∀ v1 v2 sw, sw ∈ added v1 → sw ∈ added v2 → v1 = v2)
    ∧ (∀ v sw, sw ∈ added v →
         ∃ p lsp, p ∈ ports ∧ portAt h !! p = Some lsp
                  ∧ portMap !! lsp_ChassisUUID lsp = Some v
                  ∧ lsp_LogicalSwitchUUID lsp = sw)
    ∧ (∀ p lsp v, p ∈ ports → portAt h !! p = Some lsp →
         portMap !! lsp_ChassisUUID lsp = Some v →
         ∃ v', lsp_LogicalSwitchUUID lsp ∈ added v').
Proof.
  intros Hvteps Hports.
  destruct (MapPortToChassis_runs vteps ports h Hvteps Hports)
    as (portMap & h' & sm' & Hpm & Hloop & Hrun).
  destruct (MapPortToChassis_loop _ _ _ _ _ Hloop)
    as (? & ? & added & [= <- <-] & Hch & _ & _ & Hnd & Hdisj & Horigin & _
        & Hseen & Hfrom).
  exists portMap, h', added. repeat (split; [done|]).
  split; [|split; [done|split; [done|split; [done|]]]].
  - intros v c Hc. specialize (Hch v). rewrite Hc in Hch.
    eexists. split; [exact Hch|done].
  - intros p lsp v Hin Hp Hm.
    destruct (Horigin (lsp_LogicalSwitchUUID lsp)) as [Hempty|?];
      [by eapply Hseen| |done].
    rewrite lookup_empty in Hempty. by destruct Hempty.
Qed.

(** ** Concrete runs *)

Lemma getSystemID_prefers_database_witness :
  getSystemID (D := tableDecoder) (idFileHost (Some "sys-file"))
    (Some (tableClient (identityDB {["system-id" := "sys-1"]})))
    "Open_vSwitch" idFile
  = Ret ("sys-1", None).
Proof.
  apply (getSystemID_prefers_database (D := tableDecoder)
           (idFileHost (Some "sys-file"))
           (tableClient (identityDB {["system-id" := "sys-1"]}))
           "Open_vSwitch" idFile
           (tableResult
              [[("external_ids",
                 (VMap {["system-id" := "sys-1"]}, "map[string]string"))]])
           [("external_ids",
             (VMap {["system-id" := "sys-1"]}, "map[string]string"))]
           [] {["system-id" := "sys-1"]} "sys-1").
  - discriminate.
  - reflexivity.
  - reflexivity.
  - reflexivity.
  - reflexivity.
  - discriminate.
  - vm_compute. lia.
Defined.

(** An identity file with a first line, and an empty identity file: the
    empty identity comes back with a nil error. *)
Lemma getSystemID_falls_back_to_file_witness :
  getSystemID (D := tableDecoder) (idFileHost (Some "sys-file"))
    (Some (tableClient [])) "Open_vSwitch" idFile
  = Ret ("sys-file", None)
  ∧ getSystemID (D := tableDecoder) (idFileHost None) None "Open_vSwitch"
      idFile
    = Ret ("", None).
Proof.
  split.
  - apply (getSystemID_falls_back_to_file (D := tableDecoder)
             (idFileHost (Some "sys-file")) (Some (tableClient []))
             "Open_vSwitch" idFile (Some "connection refused")
             (Some "sys-file")).
    + apply queryFailed; [discriminate|reflexivity].
    + reflexivity.
    + vm_compute. lia.
  - apply (getSystemID_falls_back_to_file (D := tableDecoder)
             (idFileHost None) None "Open_vSwitch" idFile None None).
    + apply noClient.
    + reflexivity.
    + vm_compute. lia.
Defined.

Lemma getSystemID_error_identity_witness :
  "" = ""
  ∨ (253 < String.length ""
     ∧ idFileErr = errSystemIDTooLong (String.length "")).
Proof.
  apply (getSystemID_error_identity (D := tableDecoder) bareHost None
           "Open_vSwitch" idFile "" idFileErr).
  reflexivity.
Defined.

Lemma getSystemInfoFromOS_last_line_wins_witness :
  (getSystemInfoFromOS osReleaseHost).1 = "ubuntu"
  ∧ (getSystemInfoFromOS osReleaseHost).2 = "20.04".
Proof.
  destruct (getSystemInfoFromOS_last_line_wins osReleaseHost
              ["NAME=Ubuntu"; "ID=ubuntu";
               "VERSION_ID=" +:+ quote +:+ "20.04" +:+ quote] eq_refl)
    as [Hty Hver].
  split.
  - apply (Hty ["NAME=Ubuntu"] "ID=ubuntu"
             ["VERSION_ID=" +:+ quote +:+ "20.04" +:+ quote]);
      [reflexivity|reflexivity|].
    repeat constructor.
  - apply (Hver ["NAME=Ubuntu"; "ID=ubuntu"]
             ("VERSION_ID=" +:+ quote +:+ "20.04" +:+ quote) []);
      [reflexivity|reflexivity|constructor].
Defined.

Lemma getSystemInfoFromOS_quotes_witness :
  (getSystemInfoFromOS osReleaseHost).2 = "20.04".
Proof.
  apply (getSystemInfoFromOS_quotes osReleaseHost
           ["NAME=Ubuntu"; "ID=ubuntu"]
           ("VERSION_ID=" +:+ quote +:+ "20.04" +:+ quote) []
           "VERSION_ID=" "20.04");
    [reflexivity|by right|reflexivity|constructor|reflexivity].
Defined.

Lemma populateVersion_keeps_witness :
  populateVersionFromAppctl (G := testRuntime) bareHost
    {["ovs_version" := "3.1.0"]} "/var/run/openvswitch/ovs-vswitchd.ctl" 1
    None !! "ovs_version"
  = Some "3.1.0".
Proof.
  apply (populateVersion_keeps (G := testRuntime) bareHost
           {["ovs_version" := "3.1.0"]}
           "/var/run/openvswitch/ovs-vswitchd.ctl" 1 None
           "ovs_version" "3.1.0").
  - by left.
  - reflexivity.
  - discriminate.
Defined.

Lemma populateVersion_frame_witness :
  populateVersionFromAppctl (G := testRuntime) bareHost
    {["hostname" := "node-1"]} "/var/run/openvswitch/ovs-vswitchd.ctl" 1
    None !! "hostname"
  = ({["hostname" := "node-1"]} : gmap string string) !! "hostname".
Proof.
  apply (populateVersion_frame (G := testRuntime) bareHost
           {["hostname" := "node-1"]}
           "/var/run/openvswitch/ovs-vswitchd.ctl" 1 None "hostname").
  unfold versionKeys. intros Hin.
  repeat (apply elem_of_cons in Hin as [Hin|Hin]; [discriminate Hin|]).
  by apply elem_of_nil in Hin.
Defined.

Lemma parseSystemInfo_success_witness :
  ∃ systemInfo,
    parseSystemInfo (D := tableDecoder) "sys-1"
      (tableResult
         [versionRow {["system-id" := "sys-1"; "hostname" := "node-1"]}])
    = Ret (systemInfo, None)
    ∧ systemInfo !! "system-id" = Some "sys-1"
    ∧ is_Some (systemInfo !! "hostname")
    ∧ is_Some (systemInfo !! "rundir")
    ∧ ∀ key, key ∈ versionKeys → is_Some (systemInfo !! key).
Proof.
  destruct (parseSystemInfo (D := tableDecoder) "sys-1"
              (tableResult
                 [versionRow
                    {["system-id" := "sys-1"; "hostname" := "node-1"]}]))
    as [[systemInfo [err|]]|] eqn:Hrun;
    [vm_compute in Hrun; discriminate Hrun| |
     vm_compute in Hrun; discriminate Hrun].
  exists systemInfo. split; [reflexivity|].
  exact (proj2 (parseSystemInfo_success (D := tableDecoder) "sys-1"
                  (tableResult
                     [versionRow
                        {["system-id" := "sys-1"; "hostname" := "node-1"]}])
                  systemInfo Hrun)).
Defined.

Lemma parseSystemInfo_contents_witness :
  ∃ systemInfo,
    parseSystemInfo (D := tableDecoder) "sys-1"
      (tableResult
         [versionRow {["system-id" := "sys-1"; "hostname" := "node-1"]}])
    = Ret (systemInfo, None)
    ∧ systemInfo !! "ovs_version" = Some "3.1.0"
    ∧ systemInfo !! "system_type" = Some "ubuntu"
    ∧ systemInfo !! "system_version" = Some ""
    ∧ systemInfo !! "rundir" = Some "/var/run/openvswitch"
    ∧ systemInfo !! "hostname" = Some "node-1".
Proof.
  destruct (parseSystemInfo_contents (D := tableDecoder) "sys-1" ()
              (versionRow {["system-id" := "sys-1"; "hostname" := "node-1"]})
              [] {["system-id" := "sys-1"; "hostname" := "node-1"]})
    as (systemInfo & Hrun & Hcols & Hrundir & Hother).
  - reflexivity.
  - vm_compute. reflexivity.
  - eexists. vm_compute. reflexivity.
  - vm_compute. reflexivity.
  - exists systemInfo. split; [exact Hrun|].
    split; [apply (Hcols "ovs_version"); unfold versionKeys; set_solver|].
    split; [apply (Hcols "system_type"); unfold versionKeys; set_solver|].
    split; [apply (Hcols "system_version"); unfold versionKeys; set_solver|].
    split; [exact Hrundir|].
    rewrite (Hother "hostname"); [vm_compute; reflexivity| |discriminate].
    unfold versionKeys. intros Hin.
    repeat (apply elem_of_cons in Hin as [Hin|Hin]; [discriminate Hin|]).
    by apply elem_of_nil in Hin.
Defined.

Lemma parseSystemInfo_version_column_error_witness :
  ∃ systemInfo,
    parseSystemInfo (D := tableDecoder) "sys-1"
      (tableResult
         [[("external_ids",
            (VMap {["system-id" := "sys-1"; "hostname" := "node-1"]},
             "map[string]string"));
           ("ovs_version", (VString "3.1.0", "string"));
           ("db_version", (VInt64 8, "int64"))]])
    = Ret (systemInfo, Some (errDataType "int64" "db_version")).
Proof.
  apply (proj2 (parseSystemInfo_version_column_error (D := tableDecoder)
                  "sys-1" ()
                  [("external_ids",
                    (VMap {["system-id" := "sys-1"; "hostname" := "node-1"]},
                     "map[string]string"));
                   ("ovs_version", (VString "3.1.0", "string"));
                   ("db_version", (VInt64 8, "int64"))]
                  [] {["system-id" := "sys-1"; "hostname" := "node-1"]}
                  ["ovs_version"] "db_version"
                  ["system_type"; "system_version"]
                  eq_refl eq_refl eq_refl)
          (VInt64 8) "int64");
    [reflexivity|discriminate|discriminate].
Defined.

(** Three rows of Chassis of which the second does not decode: two
    chassis, in the order of their rows. *)
Lemma GetChassis_rows_in_order_witness :
  ∃ chassis,
    GetChassis (G := testRuntime) (tableOvnClient threeRows)
    = Ret (chassis, None)
    ∧ chassisKey <$> chassis
      = [("uuid-1", "ch-1", "encap-1"); ("uuid-2", "ch-2", "encap-2")]
    ∧ length chassis ≤ 3.
Proof.
  destruct (GetChassis_rows_in_order (D := tableDecoder) (G := testRuntime)
              (tableOvnClient threeRows)
              (tableResult [mkChassisRow "uuid-1" "ch-1" "encap-1";
                            [("_uuid", (VString "uuid-x", "string"));
                             ("encaps", (VString "encap-x", "string"))];
                            mkChassisRow "uuid-2" "ch-2" "encap-2"])
              (tableResult
                 [mkEncapRow "encap-1" "geneve" "ch-1" "10.0.0.1"]))
    as (chassis & Hrun & Hkeys & Hlen).
  - reflexivity.
  - reflexivity.
  - vm_compute. lia.
  - vm_compute. lia.
  - vm_compute. reflexivity.
  - vm_compute. reflexivity.
  - vm_compute. reflexivity.
  - exists chassis. split; [exact Hrun|]. split; [exact Hkeys|exact Hlen].
Defined.

Lemma GetChassis_endpoint_witness :
  ∃ chassis c',
    GetChassis (G := testRuntime) (tableOvnClient joinedDB)
    = Ret (chassis, None)
    ∧ chassis !! 0 = Some c'
    ∧ chassisKey c' = ("uuid-1", "ch-1", "encap-1")
    ∧ IPAddress c' = String.list_byte_of_string "10.0.0.1"
    ∧ Encaps_Proto c' = "geneve".
Proof.
  apply (GetChassis_endpoint (D := tableDecoder) (G := testRuntime)
           (tableOvnClient joinedDB)
           (tableResult [mkEncapRow "encap-1" "geneve" "ch-1" "10.0.0.1"])
           [fresh1; chassis2] 0 fresh1 []
           (mkEncapRow "encap-1" "geneve" "ch-1" "10.0.0.1") []
           "geneve" "10.0.0.1").
  - vm_compute. reflexivity.
  - split; [reflexivity|]. intros j d Hj. lia.
  - reflexivity.
  - vm_compute. reflexivity.
  - vm_compute. reflexivity.
  - reflexivity.
  - repeat split.
  - intros row' Hin. by apply elem_of_nil in Hin.
Defined.

(** The Encap query is not answered: no chassis, and the error of the
    Encap table. *)
Lemma GetChassis_errors_witness :
  GetChassis (G := testRuntime) (tableOvnClient twoChassis)
  = Ret ([], Some "OVN_Southbound: 'Encap' table error: connection refused")
  ∧ ∃ e, southbound (tableOvnClient twoChassis) queryEncap = inr e
         ∧ "OVN_Southbound: 'Encap' table error: connection refused"
           = errTable "OVN_Southbound" "Encap" e.
Proof.
  assert (GetChassis (G := testRuntime) (tableOvnClient twoChassis)
          = Ret ([], Some "OVN_Southbound: 'Encap' table error: connection refused"))
    as Hrun by (vm_compute; reflexivity).
  split; [exact Hrun|].
  destruct (GetChassis_errors (D := tableDecoder) (G := testRuntime)
              (tableOvnClient twoChassis) []
              "OVN_Southbound: 'Encap' table error: connection refused" Hrun)
    as [_ [(e & He & _)|[(base & Hb & Hrows & _)|[H|(encap & He & _)]]]].
  - discriminate He.
  - injection Hb as <-. discriminate Hrows.
  - exact H.
  - discriminate He.
Defined.

Lemma OvsClient_GetSystemID_spec_witness :
  ∃ cli',
    OvsClient_GetSystemID bareHost
      (testCli (identityDB {["system-id" := "sys-1"]}))
    = Ret (cli', None)
    ∧ System_ID cli' = "sys-1"
    ∧ String.length (System_ID cli') ≤ 253
    ∧ cli' = withSystemID (System_ID cli')
               (testCli (identityDB {["system-id" := "sys-1"]})).
Proof.
  destruct (OvsClient_GetSystemID bareHost
              (testCli (identityDB {["system-id" := "sys-1"]})))
    as [[cli' [err|]]|] eqn:Hrun;
    [vm_compute in Hrun; discriminate Hrun| |
     vm_compute in Hrun; discriminate Hrun].
  exists cli'. split; [reflexivity|].
  destruct (OvsClient_GetSystemID_spec bareHost _ _ _ Hrun)
    as (Hid & Hlen & Hcli).
  split; [|split; [exact Hlen|exact Hcli]].
  vm_compute in Hid. by injection Hid.
Defined.

(** No database and no identity file: the error of getSystemID, and the
    client as it was. *)
Lemma GetSystemInfo_failure_witness :
  ∃ cli' err,
    GetSystemInfo (G := testRuntime) bareHost (λ cli, cli) (testCli [])
    = Ret (cli', Some err)
    ∧ cli' = testCli [].
Proof.
  destruct (GetSystemInfo (G := testRuntime) bareHost (λ cli, cli)
              (testCli []))
    as [[cli' [err|]]|] eqn:Hrun;
    [|vm_compute in Hrun; discriminate Hrun..].
  exists cli', err. split; [reflexivity|].
  exact (GetSystemInfo_failure (G := testRuntime) bareHost (λ cli, cli)
           _ _ _ Hrun).
Defined.

(** A database row with system-id and hostname, on a host without
    control socket and without os-release file. *)
Lemma GetSystemInfo_success_witness :
  ∃ cli',
    GetSystemInfo (G := testRuntime) bareHost (λ cli, cli)
      (testCli (vswitchDB {["system-id" := "sys-1"; "hostname" := "node-1"]}))
    = Ret (cli', None)
    ∧ String.length (System_ID cli') ≤ 253
    ∧ System_Type cli' ≠ ""
    ∧ System_Version cli' ≠ ""
    ∧ Vswitch_Schema_Version cli' ≠ "".
Proof.
  destruct (GetSystemInfo (G := testRuntime) bareHost (λ cli, cli)
              (testCli (vswitchDB
                          {["system-id" := "sys-1"; "hostname" := "node-1"]})))
    as [[cli' [err|]]|] eqn:Hrun;
    [vm_compute in Hrun; discriminate Hrun| |
     vm_compute in Hrun; discriminate Hrun].
  exists cli'. split; [reflexivity|].
  destruct (GetSystemInfo_success (G := testRuntime) bareHost (λ cli, cli)
              _ _ Hrun) as (_ & Hlen & _ & Hty & Hver & Hdb).
  split; [exact Hlen|]. split; [exact Hty|]. split; [exact Hver|exact Hdb].
Defined.

Lemma heap2_chassis v :
  v ∈ [1%positive; 2%positive] → is_Some (chassisAt heap2 !! v).
Proof.
  intros Hin. repeat (apply elem_of_cons in Hin as [->|Hin]);
    [by eexists..|by apply elem_of_nil in Hin].
Qed.

Lemma heap2_ports p :
  p ∈ [1%positive; 2%positive; 3%positive] → is_Some (portAt heap2 !! p).
Proof.
  intros Hin. repeat (apply elem_of_cons in Hin as [->|Hin]);
    [by eexists..|by apply elem_of_nil in Hin].
Qed.

(** The chassis get the ports that lie on them: port-a on chassis 1,
    port-b on chassis 2; port-c, on a chassis that is not known, is
    nowhere. *)
Lemma MapPortToChassis_chassis_ports_witness :
  ∃ h' c1 c2,
    MapPortToChassis [1%positive; 2%positive]
      [1%positive; 2%positive; 3%positive] heap2 = Ret h'
    ∧ chassisAt h' !! 1%positive = Some c1 ∧ Ports c1 = ["port-a"]
    ∧ chassisAt h' !! 2%positive = Some c2 ∧ Ports c2 = ["port-b"].
Proof.
  destruct (MapPortToChassis_chassis_ports [1%positive; 2%positive]
              [1%positive; 2%positive; 3%positive] heap2
              heap2_chassis heap2_ports)
    as (portMap & h' & Hpm & Hrun & Hports).
  vm_compute in Hpm. injection Hpm as <-.
  destruct (Hports 1%positive chassis1 eq_refl) as (c1 & Hc1 & Hp1).
  destruct (Hports 2%positive chassis2 eq_refl) as (c2 & Hc2 & Hp2).
  exists h', c1, c2. split; [exact Hrun|]. split; [exact Hc1|].
  split; [exact Hp1|]. split; [exact Hc2|exact Hp2].
Defined.

(** A port that is not in the list is not changed. *)
Lemma MapPortToChassis_frame_witness :
  ∃ h' lsp',
    MapPortToChassis [1%positive; 2%positive] [1%positive; 2%positive] heap2
    = Ret h'
    ∧ portAt h' !! 3%positive = Some lsp'
    ∧ lsp' = mkPort "port-c" "uuid-9" "sw-1".
Proof.
  destruct (MapPortToChassis_frame [1%positive; 2%positive]
              [1%positive; 2%positive] heap2)
    as (h' & Hrun & _ & _ & _ & Hports).
  - exact heap2_chassis.
  - intros p Hin. apply heap2_ports. apply elem_of_cons in Hin as [->|Hin];
      [left|right; apply elem_of_cons in Hin as [->|Hin];
            [left|by apply elem_of_nil in Hin]].
  - destruct (Hports 3%positive (mkPort "port-c" "uuid-9" "sw-1") eq_refl)
      as (lsp' & Hp & _ & _ & _ & Hsame).
    exists h', lsp'. split; [exact Hrun|]. split; [exact Hp|].
    apply Hsame. intros Hin.
    apply elem_of_cons in Hin as [Hin|Hin]; [discriminate Hin|].
    apply elem_of_cons in Hin as [Hin|Hin]; [discriminate Hin|].
    by apply elem_of_nil in Hin.
Defined.

(** The port on chassis 1 gets the protocol and the address of chassis 1;
    the port on a chassis that is not known stays as it was. *)
Lemma MapPortToChassis_port_annotation_witness :
  ∃ h',
    MapPortToChassis [1%positive; 2%positive]
      [1%positive; 2%positive; 3%positive] heap2 = Ret h'
    ∧ portAt h' !! 1%positive
      = Some {| lsp_UUID := "port-a"; lsp_ChassisUUID := "uuid-1";
                lsp_LogicalSwitchUUID := "sw-1";
                lsp_Encapsulation := "geneve";
                lsp_ChassisIPAddress := String.list_byte_of_string "10.0.0.1" |}
    ∧ portAt h' !! 3%positive = Some (mkPort "port-c" "uuid-9" "sw-1").
Proof.
  destruct (MapPortToChassis_port_annotation [1%positive; 2%positive]
              [1%positive; 2%positive; 3%positive] heap2
              heap2_chassis heap2_ports)
    as (h' & Hrun & Hknown & Hunknown).
  exists h'. split; [exact Hrun|]. split.
  - apply (Hknown 1%positive (mkPort "port-a" "uuid-1" "sw-1") 1%positive
             chassis1); [left|reflexivity|left|reflexivity|reflexivity|].
    intros v' c' Hin Hc' Hu.
    apply elem_of_cons in Hin as [->|Hin]; [reflexivity|].
    apply elem_of_cons in Hin as [->|Hin];
      [|by apply elem_of_nil in Hin].
    injection Hc' as <-. discriminate Hu.
  - apply (Hunknown 3%positive (mkPort "port-c" "uuid-9" "sw-1"));
      [reflexivity|].
    intros v c Hin Hc.
    apply elem_of_cons in Hin as [->|Hin];
      [injection Hc as <-; discriminate|].
    apply elem_of_cons in Hin as [->|Hin];
      [injection Hc as <-; discriminate|by apply elem_of_nil in Hin].
Defined.

(** Two ports of switch sw-1 on two chassis: the switch is appended to
    the chassis of the first port and not to the other one. *)
Lemma MapPortToChassis_switch_once_witness :
  ∃ h' c1 c2,
    MapPortToChassis [1%positive; 2%positive]
      [1%positive; 2%positive; 3%positive] heap2 = Ret h'
    ∧ chassisAt h' !! 1%positive = Some c1
    ∧ chassisAt h' !! 2%positive = Some c2
    ∧ length (Switches c1 ++ Switches c2) = 1.
Proof.
  destruct (MapPortToChassis_switch_once [1%positive; 2%positive]
              [1%positive; 2%positive; 3%positive] heap2
              heap2_chassis heap2_ports)
    as (portMap & h' & added & Hpm & Hrun & Hsw & Hnd & Hdisj & Hfrom & Hall).
  vm_compute in Hpm. injection Hpm as <-.
  destruct (Hsw 1%positive chassis1 eq_refl) as (c1 & Hc1 & Hs1).
  destruct (Hsw 2%positive chassis2 eq_refl) as (c2 & Hc2 & Hs2).
  exists h', c1, c2. split; [exact Hrun|]. split; [exact Hc1|].
  split; [exact Hc2|]. rewrite Hs1, Hs2. cbn [Switches chassis1 chassis2 app].
  assert (∀ v sw, sw ∈ added v → sw = "sw-1") as Hone.
  { intros v sw Hin. destruct (Hfrom v sw Hin) as (p & lsp & Hp & Hl & _ & <-).
    repeat (apply elem_of_cons in Hp as [->|Hp]);
      [vm_compute in Hl; injection Hl as <-; reflexivity..
      |by apply elem_of_nil in Hp]. }
  assert (NoDup (added 1%positive ++ added 2%positive)) as Hnd2.
  { apply NoDup_app. split; [apply Hnd|]. split; [|apply Hnd].
    intros sw H1 H2. discriminate (Hdisj _ _ _ H1 H2). }
  assert (∃ v, "sw-1" ∈ added v) as [v Hv].
  { apply (Hall 1%positive (mkPort "port-a" "uuid-1" "sw-1") 1%positive);
      [left|reflexivity|vm_compute; reflexivity]. }
  assert (v = 1%positive ∨ v = 2%positive) as Hv12.
  { destruct (Hfrom v _ Hv) as (p & lsp & Hp & Hl & Hm & _).
    repeat (apply elem_of_cons in Hp as [->|Hp]);
      [vm_compute in Hl; injection Hl as <-; vm_compute in Hm;
       first [discriminate Hm|injection Hm as <-; auto]..
      |by apply elem_of_nil in Hp]. }
  assert ("sw-1" ∈ added 1%positive ++ added 2%positive) as Hin.
  { apply elem_of_app. destruct Hv12 as [-> | ->]; auto. }
  destruct (added 1%positive ++ added 2%positive) as [|a [|b l]] eqn:E.
  - by apply elem_of_nil in Hin.
  - reflexivity.
  - assert (a = "sw-1" ∧ b = "sw-1") as [-> ->].
    { assert (∀ sw, sw ∈ a :: b :: l → sw = "sw-1") as Hs.
      { intros sw. rewrite <- E. intros [?|?]%elem_of_app; by eapply Hone. }
      split; apply Hs; [left|right; left]. }
    apply NoDup_cons in Hnd2 as [Hn _]. destruct Hn. left.
Defined.
